(** * Threads, contact disclosure and resource status of the marketplace UI

    A shallow embedding of the two React components of the repository,
    [Inbox] (src/components/Inbox.tsx) and [ResourceTable], together with the
    part of the hosted store their calls act on.  Component state is an
    explicit record, the store is an explicit record of tables, every handler
    is a function from (store, state) to (store, state), and the refreshes a
    handler starts without awaiting them are returned as a list of tasks. *)

From Stdlib Require Import ZArith NArith List Bool Lia String Ascii Decimal.
From Stdlib Require Import Numbers.DecimalNat.
From Stdlib Require Import Sorting.Sorted Sorting.Permutation.
From stdpp Require Import gmap list.
Import ListNotations.

(* ===================================================================== *)
(** ** JavaScript strings *)
(* ===================================================================== *)

(** A JavaScript string is a sequence of UTF-16 code units. *)
Abbreviation jsstring := (list N).

Module JS.

(** A literal whose characters are all below U+0100. *)
Definition lit (s : string) : jsstring :=
  List.map N_of_ascii (list_ascii_of_string s).

(** Code units of the Norwegian letters used by the user-visible texts. *)
Definition aring : N := 229.   (* U+00E5 *)
Definition oslash : N := 248.  (* U+00F8 *)

(** [===] on strings. *)
Definition eqb (a b : jsstring) : bool := bool_decide (a = b).

(** ToBoolean on a string: only the empty string is falsy. *)
Definition truthy (s : jsstring) : bool :=
  match s with [] => false | _ :: _ => true end.

(** ToBoolean on a nullable string ([string | null]). *)
Definition truthy_opt (s : option jsstring) : bool :=
  match s with Some s => truthy s | None => false end.

(** [a || b] where [a] is a nullable string and [b] a string. *)
Definition or_else (a : option jsstring) (b : jsstring) : jsstring :=
  match a with
  | Some (c :: s) => c :: s
  | _ => b
  end.

(** ECMAScript WhiteSpace and LineTerminator code points, the characters
    removed by [String.prototype.trim]. *)
Definition isWhiteSpace (c : N) : bool :=
  ((c =? 9) || (c =? 10) || (c =? 11) || (c =? 12) || (c =? 13)
   || (c =? 32) || (c =? 160) || (c =? 5760)
   || ((8192 <=? c) && (c <=? 8202))
   || (c =? 8232) || (c =? 8233) || (c =? 8239) || (c =? 8287)
   || (c =? 12288) || (c =? 65279))%N.

Fixpoint trimStart (s : jsstring) : jsstring :=
  match s with
  | [] => []
  | c :: s' => if isWhiteSpace c then trimStart s' else s
  end.

Definition trimEnd (s : jsstring) : jsstring := rev (trimStart (rev s)).

Definition trim (s : jsstring) : jsstring := trimEnd (trimStart s).

(** Decimal digits of a non-negative integer, as [`${n}`] prints it. *)
Fixpoint uint_codes (d : Decimal.uint) : jsstring :=
  match d with
  | Decimal.Nil => []
  | Decimal.D0 d => 48%N :: uint_codes d
  | Decimal.D1 d => 49%N :: uint_codes d
  | Decimal.D2 d => 50%N :: uint_codes d
  | Decimal.D3 d => 51%N :: uint_codes d
  | Decimal.D4 d => 52%N :: uint_codes d
  | Decimal.D5 d => 53%N :: uint_codes d
  | Decimal.D6 d => 54%N :: uint_codes d
  | Decimal.D7 d => 55%N :: uint_codes d
  | Decimal.D8 d => 56%N :: uint_codes d
  | Decimal.D9 d => 57%N :: uint_codes d
  end.

Definition of_nat (n : nat) : jsstring := uint_codes (Nat.to_uint n).

(** The properties every plain object inherits from [Object.prototype],
    each with the [length] of the inherited value: the methods are functions,
    whose [length] is their number of parameters, and [__proto__] reads as
    the prototype object, which has no [length]. *)
Definition proto_members : list (jsstring * option nat) :=
  [ (lit "constructor", Some 1);
    (lit "__defineGetter__", Some 2);
    (lit "__defineSetter__", Some 2);
    (lit "hasOwnProperty", Some 1);
    (lit "__lookupGetter__", Some 1);
    (lit "__lookupSetter__", Some 1);
    (lit "isPrototypeOf", Some 1);
    (lit "propertyIsEnumerable", Some 1);
    (lit "toString", Some 0);
    (lit "valueOf", Some 0);
    (lit "__proto__", None);
    (lit "toLocaleString", Some 0) ].

(** Whether [k] names an inherited property: for such a key [obj[k]] on a
    plain object is a truthy value even when [obj] has no entry of its own. *)
Definition proto_member (k : jsstring) : bool :=
  List.existsb (fun p => eqb (fst p) k) proto_members.

(** [obj[k].length] for an inherited property, [None] for undefined. *)
Definition proto_length (k : jsstring) : option nat :=
  match List.find (fun p => eqb (fst p) k) proto_members with
  | Some (_, n) => n
  | None => None
  end.

(** [obj[k] = v] on a plain object and a primitive [v]: an own property is
    written, except for [__proto__], whose inherited setter ignores a value
    that is not an object. *)
Definition assign {A : Type} (k : jsstring) (v : A) (obj : gmap jsstring A)
  : gmap jsstring A :=
  if eqb k (lit "__proto__") then obj else <[k := v]> obj.

(** A [Date]: its time value in milliseconds, [None] for an invalid date
    (whose time value is NaN). *)
Definition Date := option Z.

(** [a < b] on dates: both are converted to their time values and a
    comparison with NaN is false. *)
Definition date_lt (a b : Date) : bool :=
  match a, b with
  | Some x, Some y => (x <? y)%Z
  | _, _ => false
  end.

End JS.

(** The spec's "empty or whitespace-only". *)
Definition whitespace_only (s : jsstring) : Prop :=
  Forall (fun c => JS.isWhiteSpace c = true) s.

(* ===================================================================== *)
(** ** The store: the tables the components read and write *)
(* ===================================================================== *)

Module ContactInfo.
Record t := mk {
  company_name : jsstring;
  email : jsstring;
  phone : jsstring;
  address : jsstring }.
End ContactInfo.

Module CompanyRow.
Record t := mk {
  id : jsstring;
  user_id : jsstring;
  anonymous_id : jsstring;
  real_contact_info : option ContactInfo.t }.
End CompanyRow.

Module ResourceRow.
Record t := mk {
  id : jsstring;
  competence : jsstring;
  is_taken : bool;
  price : option Z;
  price_type : jsstring }.

Definition set_is_taken (b : bool) (r : t) : t :=
  mk (id r) (competence r) b (price r) (price_type r).
End ResourceRow.

Module MessageRow.
Record t := mk {
  id : jsstring;
  from_company_id : jsstring;
  to_company_id : jsstring;
  resource_id : jsstring;
  subject : jsstring;
  content : jsstring;
  created_at : Z;
  read_at : option Z;
  thread_id : option jsstring }.

Definition set_read_at (v : option Z) (m : t) : t :=
  mk (id m) (from_company_id m) (to_company_id m) (resource_id m)
     (subject m) (content m) (created_at m) v (thread_id m).
End MessageRow.

Module SharingRow.
Record t := mk {
  thread_id : jsstring;
  from_company_id : jsstring;
  to_company_id : jsstring }.
End SharingRow.

Module Store.
Record t := mk {
  companies : list CompanyRow.t;
  resources : list ResourceRow.t;
  messages : list MessageRow.t;
  thread_contact_sharing : list SharingRow.t }.

Definition set_resources (v : list ResourceRow.t) (s : t) : t :=
  mk (companies s) v (messages s) (thread_contact_sharing s).
Definition set_messages (v : list MessageRow.t) (s : t) : t :=
  mk (companies s) (resources s) v (thread_contact_sharing s).
Definition set_thread_contact_sharing (v : list SharingRow.t) (s : t) : t :=
  mk (companies s) (resources s) (messages s) v.
End Store.

(** What the store fills in on an insert into [messages]: the new row's
    primary key and its [created_at] default. *)
Record Defaults := { new_id : jsstring; db_now : Z }.

Module Db.

(** [.order('created_at', { ascending })]: rows with equal timestamps keep
    their table order. *)
Definition before (ascending : bool) (x y : MessageRow.t) : bool :=
  if ascending
  then (MessageRow.created_at x <=? MessageRow.created_at y)%Z
  else (MessageRow.created_at y <=? MessageRow.created_at x)%Z.

Fixpoint place (ascending : bool) (x : MessageRow.t) (l : list MessageRow.t)
  : list MessageRow.t :=
  match l with
  | [] => [x]
  | y :: l' =>
      if before ascending x y then x :: l else y :: place ascending x l'
  end.

Fixpoint order (ascending : bool) (l : list MessageRow.t)
  : list MessageRow.t :=
  match l with
  | [] => []
  | x :: l' => place ascending x (order ascending l')
  end.

(** [.from('companies') ... .eq('id', k)], first match. *)
Definition company (s : Store.t) (k : jsstring) : option CompanyRow.t :=
  List.find (fun c => JS.eqb (CompanyRow.id c) k) (Store.companies s).

Definition resource (s : Store.t) (k : jsstring) : option ResourceRow.t :=
  List.find (fun r => JS.eqb (ResourceRow.id r) k) (Store.resources s).

(** [.from('messages').insert({...})]: [id], [created_at] come from the
    store, [read_at] starts null. *)
Definition insert_message (d : Defaults)
    (from_company_id to_company_id resource_id subject content : jsstring)
    (thread_id : option jsstring) (s : Store.t) : Store.t :=
  Store.set_messages
    (Store.messages s ++
     [MessageRow.mk (new_id d) from_company_id to_company_id resource_id
                    subject content (db_now d) None thread_id]) s.

(** [.from('thread_contact_sharing').insert({...})]. *)
Definition insert_sharing (thread_id from_company_id to_company_id : jsstring)
    (s : Store.t) : Store.t :=
  Store.set_thread_contact_sharing
    (Store.thread_contact_sharing s ++
     [SharingRow.mk thread_id from_company_id to_company_id]) s.

(** [.from('messages').update({ read_at: t }).eq('id', k)]. *)
Definition update_read_at (k : jsstring) (t : Z) (s : Store.t) : Store.t :=
  Store.set_messages
    (List.map (fun m => if JS.eqb (MessageRow.id m) k
                        then MessageRow.set_read_at (Some t) m else m)
              (Store.messages s)) s.

(** [.from('resources').update({ is_taken: true }).eq('id', k)]. *)
Definition update_is_taken (k : jsstring) (s : Store.t) : Store.t :=
  Store.set_resources
    (List.map (fun r => if JS.eqb (ResourceRow.id r) k
                        then ResourceRow.set_is_taken true r else r)
              (Store.resources s)) s.

End Db.

(* ===================================================================== *)
(** ** Inbox.tsx *)
(* ===================================================================== *)

Module Inbox.

(** The company columns embedded by the two message queries:
    [from_company:from_company_id(id, anonymous_id, real_contact_info)]. *)
Module Party.
Record t := mk {
  id : jsstring;
  anonymous_id : jsstring;
  real_contact_info : option ContactInfo.t }.
Definition of_row (c : CompanyRow.t) : t :=
  mk (CompanyRow.id c) (CompanyRow.anonymous_id c)
     (CompanyRow.real_contact_info c).
End Party.

(** [resource:resource_id(id, competence, is_taken, price, price_type)]. *)
Module Res.
Record t := mk {
  id : jsstring;
  competence : jsstring;
  is_taken : bool;
  price : option Z;
  price_type : jsstring }.
Definition of_row (r : ResourceRow.t) : t :=
  mk (ResourceRow.id r) (ResourceRow.competence r) (ResourceRow.is_taken r)
     (ResourceRow.price r) (ResourceRow.price_type r).
End Res.

(** A row as the query returns it: an embedded reference that does not
    resolve is null. *)
Module RawMessage.
Record t := mk {
  id : jsstring;
  subject : jsstring;
  content : jsstring;
  created_at : Z;
  read_at : option Z;
  thread_id : option jsstring;
  from_company : option Party.t;
  to_company : option Party.t;
  resource : option Res.t }.
End RawMessage.

(** The component's [Message] type: the three references are present. *)
Module Message.
Record t := mk {
  id : jsstring;
  subject : jsstring;
  content : jsstring;
  created_at : Z;
  read_at : option Z;
  thread_id : option jsstring;
  from_company : Party.t;
  to_company : Party.t;
  resource : Res.t }.

(** [message.thread_id || message.id]. *)
Definition thread_key (m : t) : jsstring := JS.or_else (thread_id m) (id m).
End Message.

(** The select list of [loadMessages] and [loadThread] applied to one row. *)
Definition select_row (s : Store.t) (m : MessageRow.t) : RawMessage.t :=
  RawMessage.mk (MessageRow.id m) (MessageRow.subject m) (MessageRow.content m)
    (MessageRow.created_at m) (MessageRow.read_at m) (MessageRow.thread_id m)
    (Party.of_row <$> Db.company s (MessageRow.from_company_id m))
    (Party.of_row <$> Db.company s (MessageRow.to_company_id m))
    (Res.of_row <$> Db.resource s (MessageRow.resource_id m)).

(** One element of
    [messages.filter(msg => msg.from_company && msg.to_company && msg.resource)]. *)
Definition valid (r : RawMessage.t) : option Message.t :=
  match RawMessage.from_company r, RawMessage.to_company r,
        RawMessage.resource r with
  | Some f, Some t, Some res =>
      Some (Message.mk (RawMessage.id r) (RawMessage.subject r)
              (RawMessage.content r) (RawMessage.created_at r)
              (RawMessage.read_at r) (RawMessage.thread_id r) f t res)
  | _, _, _ => None
  end.

Definition validMessages (l : list RawMessage.t) : list Message.t :=
  omap valid l.

(** Component state, one field per [useState]. *)
Record State := mkState {
  messages : list Message.t;
  selectedMessage : option Message.t;
  selectedThread : list Message.t;
  reply : jsstring;
  loading : bool;
  loadingThread : bool;
  error : option jsstring;
  hasCompany : bool;
  contactShared : gmap jsstring bool;
  userCompanyId : option jsstring }.

Definition setMessages v (u : State) :=
  mkState v (selectedMessage u) (selectedThread u) (reply u) (loading u)
    (loadingThread u) (error u) (hasCompany u) (contactShared u)
    (userCompanyId u).
Definition setSelectedMessage v (u : State) :=
  mkState (messages u) v (selectedThread u) (reply u) (loading u)
    (loadingThread u) (error u) (hasCompany u) (contactShared u)
    (userCompanyId u).
Definition setSelectedThread v (u : State) :=
  mkState (messages u) (selectedMessage u) v (reply u) (loading u)
    (loadingThread u) (error u) (hasCompany u) (contactShared u)
    (userCompanyId u).
Definition setReply v (u : State) :=
  mkState (messages u) (selectedMessage u) (selectedThread u) v (loading u)
    (loadingThread u) (error u) (hasCompany u) (contactShared u)
    (userCompanyId u).
Definition setLoading v (u : State) :=
  mkState (messages u) (selectedMessage u) (selectedThread u) (reply u) v
    (loadingThread u) (error u) (hasCompany u) (contactShared u)
    (userCompanyId u).
Definition setLoadingThread v (u : State) :=
  mkState (messages u) (selectedMessage u) (selectedThread u) (reply u)
    (loading u) v (error u) (hasCompany u) (contactShared u)
    (userCompanyId u).
Definition setError v (u : State) :=
  mkState (messages u) (selectedMessage u) (selectedThread u) (reply u)
    (loading u) (loadingThread u) (Some v) (hasCompany u) (contactShared u)
    (userCompanyId u).
Definition setContactShared v (u : State) :=
  mkState (messages u) (selectedMessage u) (selectedThread u) (reply u)
    (loading u) (loadingThread u) (error u) (hasCompany u) v
    (userCompanyId u).

(** The store together with the component. *)
Record World := mkWorld { store : Store.t; ui : State }.

Definition with_ui (f : State -> State) (w : World) : World :=
  mkWorld (store w) (f (ui w)).
Definition with_store (f : Store.t -> Store.t) (w : World) : World :=
  mkWorld (f (store w)) (ui w).

(** Calls a handler starts and does not await. *)
Inductive Task :=
| LoadContactSharing
| LoadMessages
| LoadThread (messageId : jsstring)
| OnMessageUpdate.

(** How a handler was left: through the guard on its first line, at the
    end of its [try] block, or through its [catch] block. *)
Inductive Exit := Rejected | Completed | Caught.

(** The optional [onMessageUpdate] prop: whether the parent passed one. *)
Record Props := { onMessageUpdate : bool }.

Definition notify (p : Props) : list Task :=
  if onMessageUpdate p then [OnMessageUpdate] else [].

(** [x.id === userCompanyId], where [userCompanyId] may be null. *)
Definition is_user (u : State) (k : jsstring) : bool :=
  match userCompanyId u with
  | Some c => JS.eqb k c
  | None => false
  end.

(** The messages a company takes part in:
    [.or(`from_company_id.eq.${c},to_company_id.eq.${c}`)]. *)
Definition involves (c : jsstring) (m : MessageRow.t) : bool :=
  JS.eqb (MessageRow.from_company_id m) c
  || JS.eqb (MessageRow.to_company_id m) c.

(** [.or(`id.eq.${k},thread_id.eq.${k}`)]. *)
Definition in_thread (k : jsstring) (m : MessageRow.t) : bool :=
  JS.eqb (MessageRow.id m) k
  || match MessageRow.thread_id m with
     | Some t => JS.eqb t k
     | None => false
     end.

(** *** loadContactSharing *)

Definition sharedThreads (rows : list SharingRow.t) : gmap jsstring bool :=
  foldl (fun acc curr => JS.assign (SharingRow.thread_id curr) true acc) ∅ rows.

Definition loadContactSharing (sharingError : bool) (w : World) : World :=
  match userCompanyId (ui w) with
  | Some c =>
      if negb (JS.truthy c) then w
      else if sharingError then w
      else
        let sharingData :=
          List.filter
            (fun r => JS.eqb (SharingRow.from_company_id r) c
                      || JS.eqb (SharingRow.to_company_id r) c)
            (Store.thread_contact_sharing (store w)) in
        with_ui (setContactShared (sharedThreads sharingData)) w
  | None => w
  end.

(** *** loadMessages *)

(** The [Map] of [loadMessages]: keys in insertion order, [set] on a key
    that is present replaces its value in place. *)
Definition ThreadMap := list (jsstring * Message.t).

Definition tm_get (k : jsstring) (tm : ThreadMap) : option Message.t :=
  snd <$> List.find (fun p => JS.eqb (fst p) k) tm.

Definition tm_has (k : jsstring) (tm : ThreadMap) : bool :=
  List.existsb (fun p => JS.eqb (fst p) k) tm.

Fixpoint tm_set (k : jsstring) (v : Message.t) (tm : ThreadMap) : ThreadMap :=
  match tm with
  | [] => [(k, v)]
  | (k', v') :: tm' =>
      if JS.eqb k' k then (k, v) :: tm' else (k', v') :: tm_set k v tm'
  end.

Definition tm_values (tm : ThreadMap) : list Message.t := List.map snd tm.

(** The body of [validMessages.forEach(msg => ...)]. *)
Definition group_step (tm : ThreadMap) (msg : Message.t) : ThreadMap :=
  let threadId := Message.thread_key msg in
  if negb (tm_has threadId tm)
     || match tm_get threadId tm with
        | Some old => (Message.created_at old <? Message.created_at msg)%Z
        | None => false
        end
  then tm_set threadId msg tm
  else tm.

Definition latestMessages (valid_msgs : list Message.t) : list Message.t :=
  tm_values (foldl group_step [] valid_msgs).

(** The rows [loadMessages] asks for, as the store returns them. *)
Definition query_messages (c : jsstring) (s : Store.t) : list RawMessage.t :=
  List.map (select_row s)
    (Db.order false (List.filter (involves c) (Store.messages s))).

Definition err_load_messages : jsstring :=
  JS.lit "Kunne ikke laste meldinger. Vennligst pr" ++ [JS.oslash]
  ++ JS.lit "v igjen senere.".

Definition loadMessages (error : bool) (p : Props) (w : World)
  : World * list Task :=
  match userCompanyId (ui w) with
  | Some c =>
      if negb (JS.truthy c) then (w, [])
      else if error then
        (with_ui (fun u => setLoading false (setError err_load_messages
                                               (setLoading true u))) w, [])
      else
        let latest :=
          latestMessages (validMessages (query_messages c (store w))) in
        let reselect (u : State) :=
          match selectedMessage u with
          | Some sel =>
              match List.find
                      (fun msg =>
                         JS.eqb (Message.id msg) (Message.id sel)
                         || match Message.thread_id msg with
                            | Some t => JS.eqb t (Message.id sel)
                            | None => false
                            end) latest with
              | Some updated => setSelectedMessage (Some updated) u
              | None => u
              end
          | None => u
          end in
        (with_ui (fun u => setLoading false
                             (reselect (setMessages latest (setLoading true u)))) w,
         notify p)
  | None => (w, [])
  end.

(** *** loadThread *)

Definition query_thread (messageId : jsstring) (s : Store.t)
  : list RawMessage.t :=
  List.map (select_row s)
    (Db.order true (List.filter (in_thread messageId) (Store.messages s))).

(** [!msg.read_at && msg.to_company.id === userCompanyId]. *)
Definition unread_for (u : State) (msg : Message.t) : bool :=
  match Message.read_at msg with None => true | Some _ => false end
  && is_user u (Party.id (Message.to_company msg)).

(** The updates of [unreadMessages.map(...)], in the order they are
    issued; [clock i] is what the [i]-th [new Date()] of the call reads and
    [accepted i] whether the store carries the [i]-th update out.  The
    responses are not looked at: an update that is refused changes nothing
    and is not reported. *)
Fixpoint mark_read (clock : nat -> Z) (accepted : nat -> bool) (i : nat)
    (unread : list Message.t) (s : Store.t) : Store.t :=
  match unread with
  | [] => s
  | msg :: rest =>
      mark_read clock accepted (S i) rest
        (if accepted i
         then Db.update_read_at (Message.id msg) (clock i) s
         else s)
  end.

Definition err_load_thread : jsstring :=
  JS.lit "Kunne ikke laste meldingstr" ++ [JS.aring]
  ++ JS.lit "d. Vennligst pr" ++ [JS.oslash] ++ JS.lit "v igjen senere.".

Definition loadThread (error : bool) (clock : nat -> Z)
    (accepted : nat -> bool) (messageId : jsstring) (w : World) : World :=
  if error then
    with_ui (fun u => setLoadingThread false
                        (setError err_load_thread (setLoadingThread true u))) w
  else
    let valid_msgs := validMessages (query_thread messageId (store w)) in
    let unreadMessages := List.filter (unread_for (ui w)) valid_msgs in
    mkWorld (mark_read clock accepted 0 unreadMessages (store w))
            (setLoadingThread false
               (setSelectedThread valid_msgs (setLoadingThread true (ui w)))).

(** *** handleReply *)

(** [selectedMessage.from_company.id === userCompanyId
      ? selectedMessage.to_company.id : selectedMessage.from_company.id],
    the expression [handleReply] and [handleShareContact] both use. *)
Definition toCompanyId (u : State) (sel : Message.t) : jsstring :=
  if is_user u (Party.id (Message.from_company sel))
  then Party.id (Message.to_company sel)
  else Party.id (Message.from_company sel).

Definition err_reply : jsstring :=
  JS.lit "Kunne ikke sende svar. Vennligst pr" ++ [JS.oslash]
  ++ JS.lit "v igjen senere.".

Definition handleReply (d : Defaults) (error : bool) (p : Props) (w : World)
  : Exit * World * list Task :=
  match selectedMessage (ui w), userCompanyId (ui w) with
  | Some sel, Some c =>
      if negb (JS.truthy (JS.trim (reply (ui w)))) || negb (JS.truthy c)
      then (Rejected, w, [])
      else
        let threadId := Message.thread_key sel in
        if error then (Caught, with_ui (setError err_reply) w, [])
        else
          (Completed,
           mkWorld
             (Db.insert_message d c (toCompanyId (ui w) sel)
                (Res.id (Message.resource sel))
                (JS.lit "Re: " ++ Message.subject sel)
                (reply (ui w)) (Some threadId) (store w))
             (setReply [] (ui w)),
           [LoadMessages; LoadThread threadId] ++ notify p)
  | _, _ => (Rejected, w, [])
  end.

(** *** handleShareContact *)

Definition subject_shared : jsstring := JS.lit "Kontaktinformasjon delt".

Definition content_shared : jsstring :=
  JS.lit "Kontaktinformasjon er n" ++ [JS.aring]
  ++ JS.lit " delt mellom partene.".

Definition err_share : jsstring :=
  JS.lit "Kunne ikke dele kontaktinformasjon. Pr" ++ [JS.oslash]
  ++ JS.lit "v igjen senere.".

(** [sharingError] and [messageError] are the [error] fields of the two
    responses; a call that returns an error has written nothing. *)
Definition handleShareContact (d : Defaults)
    (sharingError messageError : bool) (messageId : jsstring) (w : World)
  : Exit * World * list Task :=
  match selectedMessage (ui w), userCompanyId (ui w) with
  | Some sel, Some c =>
      if negb (JS.truthy c) then (Rejected, w, [])
      else if sharingError then (Caught, with_ui (setError err_share) w, [])
      else
        let s1 := Db.insert_sharing messageId c (toCompanyId (ui w) sel)
                    (store w) in
        if messageError
        then (Caught, mkWorld s1 (setError err_share (ui w)), [])
        else
          (Completed,
           mkWorld
             (Db.insert_message d c (toCompanyId (ui w) sel)
                (Res.id (Message.resource sel))
                subject_shared content_shared (Some messageId) s1)
             (ui w),
           [LoadContactSharing; LoadMessages; LoadThread messageId])
  | _, _ => (Rejected, w, [])
  end.

(** *** handleMarkAsTaken *)

Definition err_taken : jsstring :=
  JS.lit "Kunne ikke markere ressursen som tatt. Pr" ++ [JS.oslash]
  ++ JS.lit "v igjen senere.".

Definition handleMarkAsTaken (error : bool) (resourceId : jsstring)
    (p : Props) (w : World) : Exit * World * list Task :=
  if error then (Caught, with_ui (setError err_taken) w, [])
  else (Completed, with_store (Db.update_is_taken resourceId) w,
        [LoadMessages] ++ notify p).

(** *** getDisplayName and what is rendered *)

(** [contactShared[k]] as a condition: the entry of the object when it has
    one, and otherwise what it inherits under that name, which is truthy. *)
Definition shared (u : State) (k : jsstring) : bool :=
  match contactShared u !! k with
  | Some b => b
  | None => JS.proto_member k
  end.

Definition getDisplayName (u : State) (message : Message.t)
    (isFromUser : bool) : jsstring :=
  let company := if isFromUser then Message.from_company message
                 else Message.to_company message in
  let isShared := shared u (Message.thread_key message) in
  if isFromUser then JS.lit "Du"
  else
    match isShared, Party.real_contact_info company with
    | true, Some info => ContactInfo.company_name info
    | _, _ => Party.anonymous_id company
    end.

(** One entry of the message list: the sender or recipient line, the date
    of the message (before formatting), its subject and the "Ny melding"
    badge. *)
Record ListEntry := {
  entry_party : jsstring;
  entry_date : Z;
  entry_subject : jsstring;
  entry_unread : bool }.

Definition render_entry (u : State) (message : Message.t) : ListEntry :=
  let isUnread := unread_for u message in
  let fromUser := is_user u (Party.id (Message.from_company message)) in
  let displayName := getDisplayName u message fromUser in
  {| entry_party :=
       if fromUser then JS.lit "Til: " ++ getDisplayName u message false
       else JS.lit "Fra: " ++ displayName;
     entry_date := Message.created_at message;
     entry_subject := Message.subject message;
     entry_unread := isUnread |}.

(** One message of the opened thread: the name line, the time, the text
    and, when [showContactInfo] holds, the four contact lines. *)
Record Bubble := {
  bubble_name : jsstring;
  bubble_time : Z;
  bubble_content : jsstring;
  bubble_contact : option ContactInfo.t }.

Definition render_bubble (u : State) (sel message : Message.t) : Bubble :=
  let isFromUser := is_user u (Party.id (Message.from_company message)) in
  let isContactMessage := JS.eqb (Message.subject message) subject_shared in
  let showContactInfo :=
    shared u (Message.thread_key sel)
    && match Party.real_contact_info (Message.from_company message) with
       | Some _ => true | None => false end
    && negb isContactMessage in
  {| bubble_name := getDisplayName u message isFromUser;
     bubble_time := Message.created_at message;
     bubble_content := Message.content message;
     bubble_contact :=
       if showContactInfo
       then Party.real_contact_info (Message.from_company message)
       else None |}.

(** The header of the opened thread and the reply composer: which of the
    controls are rendered. *)
Record Controls := {
  show_agreed : bool;        (* "Avtale inngått" *)
  show_mark_taken : bool;    (* "Marker som avtalt" *)
  show_share : bool;         (* "Del kontaktinfo" *)
  show_shared : bool;        (* "Kontaktinfo delt" *)
  show_composer : bool }.

Definition render_controls (u : State) (sel : Message.t) : Controls :=
  let taken := Res.is_taken (Message.resource sel) in
  let sh := shared u (Message.thread_key sel) in
  {| show_agreed := taken;
     show_mark_taken := negb taken && sh;
     show_share := negb sh;
     show_shared := sh;
     show_composer := negb taken |}.

(** *** loadUserCompany *)

Definition setHasCompany v (u : State) :=
  mkState (messages u) (selectedMessage u) (selectedThread u) (reply u)
    (loading u) (loadingThread u) (error u) v (contactShared u)
    (userCompanyId u).
Definition setUserCompanyId v (u : State) :=
  mkState (messages u) (selectedMessage u) (selectedThread u) (reply u)
    (loading u) (loadingThread u) (error u) (hasCompany u) (contactShared u) v.

Definition err_company : jsstring :=
  JS.lit "Kunne ikke laste bedriftsinformasjon. Vennligst pr" ++ [JS.oslash]
  ++ JS.lit "v igjen senere.".

(** [user] is the id of the signed-in user, [None] when there is none.
    [.maybeSingle()] gives null for no row, the row for one, and an error
    for more than one; [error] is an error of the call itself. *)
Definition loadUserCompany (error : bool) (user : option jsstring) (w : World)
  : World :=
  match user with
  | None => w
  | Some uid =>
      if error then with_ui (setError err_company) w
      else
        match List.filter (fun c => JS.eqb (CompanyRow.user_id c) uid)
                (Store.companies (store w)) with
        | [] =>
            with_ui (fun u => setUserCompanyId None (setHasCompany false u)) w
        | [company] =>
            with_ui (fun u => setHasCompany true
                                (setUserCompanyId (Some (CompanyRow.id company))
                                   u)) w
        | _ :: _ :: _ => with_ui (setError err_company) w
        end
  end.

End Inbox.

(* ===================================================================== *)
(** ** ResourceTable *)
(* ===================================================================== *)

Module ResourceTable.

(** The [Resource] prop; [period_to] and [period_from] are
    [new Date(resource.period.to)] and [new Date(resource.period.from)]. *)
Module Resource.
Record t := mk {
  id : jsstring;
  company_id : jsstring;
  competence : jsstring;
  comments : jsstring;
  anonymId : jsstring;
  is_taken : bool;
  period_from : JS.Date;
  period_to : JS.Date }.
End Resource.

(** A pending request: the selected columns of the message and the
    [from_company] object added to it. *)
Module Request.
Record t := mk {
  id : jsstring;
  content : jsstring;
  created_at : Z;
  resource_id : jsstring;
  from_company_id : jsstring;
  from_company_anonymous_id : jsstring }.
End Request.

Record State := mkState {
  contactInfo : gmap jsstring ContactInfo.t;
  userCompanyId : option jsstring;
  loading : bool;
  pendingRequests : gmap jsstring (list Request.t);
  selectedResource : option jsstring;
  showMessages : bool }.

Definition setContactInfo v (u : State) :=
  mkState v (userCompanyId u) (loading u) (pendingRequests u)
    (selectedResource u) (showMessages u).
Definition setLoading v (u : State) :=
  mkState (contactInfo u) (userCompanyId u) v (pendingRequests u)
    (selectedResource u) (showMessages u).
Definition setPendingRequests v (u : State) :=
  mkState (contactInfo u) (userCompanyId u) (loading u) v
    (selectedResource u) (showMessages u).

Record World := mkWorld { store : Store.t; ui : State }.

(** [.single()]: the row when the result has exactly one, an error (and no
    data) otherwise. *)
Definition single {A : Type} (rows : list A) : option A :=
  match rows with
  | [x] => Some x
  | _ => None
  end.

(** *** loadPendingRequests *)

(** [.eq('to_company_id', c).is('thread_id', null).is('read_at', null)]. *)
Definition pending (c : jsstring) (m : MessageRow.t) : bool :=
  JS.eqb (MessageRow.to_company_id m) c
  && match MessageRow.thread_id m with None => true | Some _ => false end
  && match MessageRow.read_at m with None => true | Some _ => false end.

Definition unknown_company : jsstring := JS.lit "Ukjent bedrift".

(** The callback of [messages.map(async (msg) => ...)]. *)
Definition with_company_info (s : Store.t) (msg : MessageRow.t) : Request.t :=
  let anon :=
    match single (List.filter
                    (fun c => JS.eqb (CompanyRow.id c)
                                     (MessageRow.from_company_id msg))
                    (Store.companies s)) with
    | Some company =>
        if JS.truthy (CompanyRow.anonymous_id company)
        then CompanyRow.anonymous_id company else unknown_company
    | None => unknown_company
    end in
  Request.mk (MessageRow.id msg) (MessageRow.content msg)
    (MessageRow.created_at msg) (MessageRow.resource_id msg)
    (MessageRow.from_company_id msg) anon.

(** One step of the [reduce] that groups the requests by [resource_id],
    [None] once it has thrown.  When [acc] has no entry of its own under the
    id and the id names an inherited property, [acc[id]] is truthy, no array
    is created, and [acc[id].push] is not a function. *)
Definition group (acc : option (gmap jsstring (list Request.t)))
    (msg : Request.t) : option (gmap jsstring (list Request.t)) :=
  match acc with
  | None => None
  | Some acc =>
      match acc !! Request.resource_id msg with
      | Some l => Some (<[Request.resource_id msg := l ++ [msg]]> acc)
      | None =>
          if JS.proto_member (Request.resource_id msg) then None
          else Some (<[Request.resource_id msg := [msg]]> acc)
      end
  end.

Definition grouped (msgs : list Request.t)
  : option (gmap jsstring (list Request.t)) :=
  foldl group (Some ∅) msgs.

(** [failed]: the query returned no data.  An exception of the [reduce] is
    caught and logged, and [setPendingRequests] is not reached. *)
Definition loadPendingRequests (failed : bool) (w : World) : World :=
  match userCompanyId (ui w) with
  | Some c =>
      if negb (JS.truthy c) then w
      else if failed then w
      else
        let messages :=
          Db.order false (List.filter (pending c) (Store.messages (store w))) in
        let messagesWithCompanyInfo :=
          List.map (with_company_info (store w)) messages in
        match grouped messagesWithCompanyInfo with
        | Some g => mkWorld (store w) (setPendingRequests g (ui w))
        | None => w
        end
  | None => w
  end.

(** *** loadContactInfo *)

(** One iteration of [for (const resource of acceptedResources)]. *)
Definition contact_step (s : Store.t) (c : jsstring)
    (info : gmap jsstring ContactInfo.t) (resource : Resource.t)
  : gmap jsstring ContactInfo.t :=
  match single (take 1 (Db.order true
                          (List.filter
                             (fun m => JS.eqb (MessageRow.resource_id m)
                                              (Resource.id resource))
                             (Store.messages s)))) with
  | Some messages =>
      match single (List.filter
                      (fun r => JS.eqb (SharingRow.thread_id r)
                                       (MessageRow.id messages))
                      (Store.thread_contact_sharing s)) with
      | Some sharing =>
          let otherCompanyId :=
            if JS.eqb (SharingRow.from_company_id sharing) c
            then SharingRow.to_company_id sharing
            else SharingRow.from_company_id sharing in
          match single (List.filter
                          (fun co => JS.eqb (CompanyRow.id co) otherCompanyId)
                          (Store.companies s)) with
          | Some company =>
              match CompanyRow.real_contact_info company with
              | Some real => <[Resource.id resource := real]> info
              | None => info
              end
          | None => info
          end
      | None => info
      end
  | None => info
  end.

Definition loadContactInfo (resources : list Resource.t) (w : World) : World :=
  match userCompanyId (ui w) with
  | Some c =>
      if negb (JS.truthy c) then w
      else
        let acceptedResources := List.filter Resource.is_taken resources in
        mkWorld (store w)
          (setContactInfo
             (foldl (contact_step (store w) c) (contactInfo (ui w))
                    acceptedResources)
             (ui w))
  | None => w
  end.

(** *** handleAcceptResource *)

Inductive RpcError := AlreadyTakenError | NotFoundError.

(** Modelled from the spec: the remote procedure [accept_resource] that
    [handleAcceptResource] calls is not among the sources.  The spec gives
    it as: fails with [AlreadyTakenError] if the resource's [is_taken] is
    already true; on success sets [is_taken = true] on the resource.  A
    resource id that names no row is answered with [NotFoundError]. *)
Definition accept_resource (p_resource_id p_accepting_company_id : jsstring)
    (s : Store.t) : option RpcError * Store.t :=
  match Db.resource s p_resource_id with
  | Some r =>
      if ResourceRow.is_taken r then (Some AlreadyTakenError, s)
      else (None, Db.update_is_taken p_resource_id s)
  | None => (Some NotFoundError, s)
  end.

Inductive Task := OnMessageSent.

(** The response of the call is not looked at: [onMessageSent] is called
    whatever it holds. *)
Definition handleAcceptResource (onMessageSent : bool) (resourceId : jsstring)
    (w : World) : World * list Task :=
  match userCompanyId (ui w) with
  | Some c =>
      if negb (JS.truthy c) then (w, [])
      else
        let response := accept_resource resourceId c (store w) in
        (mkWorld (snd response) (setLoading false (setLoading true (ui w))),
         if onMessageSent then [OnMessageSent] else [])
  | None => (w, [])
  end.

(** *** getStatusInfo *)

Inductive Glyph := Check | MessageSquare | Clock | X.

Record StatusInfo := {
  icon : Glyph * jsstring;   (* the icon and its className *)
  text : jsstring;
  color : jsstring }.

(** [pendingRequests[resource.id]?.length], 0 standing for undefined: the
    length of the entry when the object has one, and otherwise the [length]
    of what it inherits under that name. *)
Definition pending_count (u : State) (k : jsstring) : nat :=
  match pendingRequests u !! k with
  | Some l => length l
  | None => default 0 (JS.proto_length k)
  end.

(** [contactInfo[resource.id]] as a condition. *)
Definition has_info (u : State) (k : jsstring) : bool :=
  match contactInfo u !! k with
  | Some _ => true
  | None => JS.proto_member k
  end.

Definition getStatusInfo (u : State) (now : Z) (resource : Resource.t)
  : StatusInfo :=
  if Resource.is_taken resource then
    let info := has_info u (Resource.id resource) in
    {| icon := if info then (Check, JS.lit "w-4 h-4 text-green-600")
               else (MessageSquare, JS.lit "w-4 h-4 text-blue-600");
       text := if info
               then JS.lit "Avtale inng" ++ [JS.aring] ++ JS.lit "tt"
               else JS.lit "Venter p" ++ [JS.aring] ++ JS.lit " godkjenning";
       color := if info then JS.lit "text-green-600"
                else JS.lit "text-blue-600" |}
  else if 0 <? pending_count u (Resource.id resource) then
    let n := pending_count u (Resource.id resource) in
    {| icon := (Clock, JS.lit "w-4 h-4 text-yellow-600");
       text := JS.of_nat n ++ JS.lit " ny"
               ++ (if 1 <? n then JS.lit "e" else [])
               ++ JS.lit " foresp" ++ [JS.oslash] ++ JS.lit "rsel"
               ++ (if 1 <? n then JS.lit "er" else []);
       color := JS.lit "text-yellow-600" |}
  else if JS.date_lt (Resource.period_to resource) (Some now) then
    {| icon := (X, JS.lit "w-4 h-4 text-red-600");
       text := JS.lit "Utl" ++ [JS.oslash] ++ JS.lit "pt";
       color := JS.lit "text-red-600" |}
  else
    {| icon := (Clock, JS.lit "w-4 h-4 text-blue-600");
       text := JS.lit "Aktiv";
       color := JS.lit "text-blue-600" |}.

(** *** The "Bedrift" cell of a table row *)

(** The contact block with its four texts, [None] for a text that is
    undefined and renders as nothing, or the anonymous id. *)
Inductive CompanyCell :=
| Contact (company_name phone email address : option jsstring)
| Anonymous (anonymId : jsstring).

(** [info ? <contact block of info> : resource.anonymId]: an inherited value
    is truthy and has none of the four properties. *)
Definition render_company (u : State) (resource : Resource.t) : CompanyCell :=
  match contactInfo u !! Resource.id resource with
  | Some info =>
      Contact (Some (ContactInfo.company_name info))
              (Some (ContactInfo.phone info))
              (Some (ContactInfo.email info))
              (Some (ContactInfo.address info))
  | None =>
      if JS.proto_member (Resource.id resource)
      then Contact None None None None
      else Anonymous (Resource.anonymId resource)
  end.

(** *** formatPrice and renderAction *)

(** The fields of the [Resource] prop that only [formatPrice] and
    [renderAction] read, beside the resource itself; [price] is a price in
    whole kroner, [None] when the property is missing. *)
Module Listing.
Record t := mk {
  resource : Resource.t;
  price : option Z;
  priceType : option jsstring }.
End Listing.

(** [`${price}`] for a whole number. *)
Definition of_Z (z : Z) : jsstring :=
  match z with
  | Z0 => JS.lit "0"
  | Zpos p => JS.of_nat (Pos.to_nat p)
  | Zneg p => JS.lit "-" ++ JS.of_nat (Pos.to_nat p)
  end.

(** ToBoolean on an optional number: missing and 0 are falsy. *)
Definition price_truthy (price : option Z) : bool :=
  match price with
  | Some z => negb (z =? 0)%Z
  | None => false
  end.

(** [priceType === k]. *)
Definition type_is (priceType : option jsstring) (k : jsstring) : bool :=
  match priceType with
  | Some t => JS.eqb t k
  | None => false
  end.

Definition formatPrice (price : option Z) (priceType : option jsstring)
  : jsstring :=
  if negb (price_truthy price) && negb (type_is priceType (JS.lit "negotiable"))
  then JS.lit "Ikke spesifisert"
  else if type_is priceType (JS.lit "negotiable") then JS.lit "Etter avtale"
  else
    match price with Some z => of_Z z | None => JS.lit "undefined" end
    ++ JS.lit " kr"
    ++ (if type_is priceType (JS.lit "hourly") then JS.lit "/time" else []).

(** What the "Handling" cell holds: the requests button with its count and,
    when open, the dialog with one accept button per request; the accept
    button, disabled while loading; the contact button; or nothing.
    [Throws]: the dialog is open and [pendingRequests[resource.id]] is an
    inherited value, which has no [map]. *)
Inductive Action :=
| Requests (count : nat) (dialog : option (list Request.t))
| AcceptButton (disabled : bool)
| ContactButton
| NoAction
| Throws.

Definition renderAction (showActions : bool) (u : State) (l : Listing.t)
  : Action :=
  let resource := Listing.resource l in
  let isMyResource :=
    match userCompanyId u with
    | Some c => JS.eqb (Resource.company_id resource) c
    | None => false
    end in
  let hasPendingRequests := 0 <? pending_count u (Resource.id resource) in
  let canAccept :=
    negb (Resource.is_taken resource) && price_truthy (Listing.price l)
    && negb isMyResource in
  if isMyResource && hasPendingRequests && negb (Resource.is_taken resource)
  then
    if match selectedResource u with
       | Some k => JS.eqb k (Resource.id resource)
       | None => false
       end && showMessages u
    then
      match pendingRequests u !! Resource.id resource with
      | Some requests =>
          Requests (pending_count u (Resource.id resource)) (Some requests)
      | None => Throws
      end
    else Requests (pending_count u (Resource.id resource)) None
  else if canAccept && showActions then AcceptButton (loading u)
  else if negb (Resource.is_taken resource) && negb isMyResource
  then ContactButton
  else NoAction.

End ResourceTable.

(* ===================================================================== *)
(** ** The status of a resource, as the specification words it *)
(* ===================================================================== *)

Inductive Status :=
| Agreed
| AwaitingApproval
| PendingRequests (n : nat)
| Expired
| Active.

(** [statusOf]: taken and contact resolvable, taken, unread inbound
    requests, period over, otherwise; read top to bottom. *)
Definition statusOf (is_taken contact_resolvable : bool) (n : nat)
    (period_over : bool) : Status :=
  if is_taken then (if contact_resolvable then Agreed else AwaitingApproval)
  else if 0 <? n then PendingRequests n
  else if period_over then Expired
  else Active.

(** What the table shows for each status: the objects built at the return
    sites of [getStatusInfo]. *)
Definition display (st : Status) : ResourceTable.StatusInfo :=
  match st with
  | Agreed =>
      {| ResourceTable.icon :=
           (ResourceTable.Check, JS.lit "w-4 h-4 text-green-600");
         ResourceTable.text :=
           JS.lit "Avtale inng" ++ [JS.aring] ++ JS.lit "tt";
         ResourceTable.color := JS.lit "text-green-600" |}
  | AwaitingApproval =>
      {| ResourceTable.icon :=
           (ResourceTable.MessageSquare, JS.lit "w-4 h-4 text-blue-600");
         ResourceTable.text :=
           JS.lit "Venter p" ++ [JS.aring] ++ JS.lit " godkjenning";
         ResourceTable.color := JS.lit "text-blue-600" |}
  | PendingRequests n =>
      {| ResourceTable.icon :=
           (ResourceTable.Clock, JS.lit "w-4 h-4 text-yellow-600");
         ResourceTable.text :=
           JS.of_nat n ++ JS.lit " ny"
           ++ (if 1 <? n then JS.lit "e" else [])
           ++ JS.lit " foresp" ++ [JS.oslash] ++ JS.lit "rsel"
           ++ (if 1 <? n then JS.lit "er" else []);
         ResourceTable.color := JS.lit "text-yellow-600" |}
  | Expired =>
      {| ResourceTable.icon := (ResourceTable.X, JS.lit "w-4 h-4 text-red-600");
         ResourceTable.text := JS.lit "Utl" ++ [JS.oslash] ++ JS.lit "pt";
         ResourceTable.color := JS.lit "text-red-600" |}
  | Active =>
      {| ResourceTable.icon :=
           (ResourceTable.Clock, JS.lit "w-4 h-4 text-blue-600");
         ResourceTable.text := JS.lit "Aktiv";
         ResourceTable.color := JS.lit "text-blue-600" |}
  end.

(** Whether the viewer can resolve the contact details of a resource. *)
Definition contact_resolvable (u : ResourceTable.State)
    (r : ResourceTable.Resource.t) : bool :=
  match ResourceTable.contactInfo u !! ResourceTable.Resource.id r with
  | Some _ => true
  | None => false
  end.

(** [period.to < now]. *)
Definition period_over (now : Z) (r : ResourceTable.Resource.t) : bool :=
  JS.date_lt (ResourceTable.Resource.period_to r) (Some now).

(* ===================================================================== *)
(** ** Notions the properties are stated with *)
(* ===================================================================== *)

(** The order of [.order('created_at', { ascending })] on rows. *)
Definition row_order (ascending : bool) (x y : MessageRow.t) : Prop :=
  Db.before ascending x y = true.

(** Newest first and oldest first on the component's messages. *)
Definition newest_first (l : list Inbox.Message.t) : Prop :=
  StronglySorted
    (fun a b => (Inbox.Message.created_at b <= Inbox.Message.created_at a)%Z) l.

Definition oldest_first (l : list Inbox.Message.t) : Prop :=
  StronglySorted
    (fun a b => (Inbox.Message.created_at a <= Inbox.Message.created_at b)%Z) l.

(** The three references of a row resolve. *)
Definition resolves (s : Store.t) (row : MessageRow.t) : Prop :=
  Db.company s (MessageRow.from_company_id row) <> None
  /\ Db.company s (MessageRow.to_company_id row) <> None
  /\ Db.resource s (MessageRow.resource_id row) <> None.

(** A row as [loadMessages] and [loadThread] keep it, if they keep it. *)
Definition joined (s : Store.t) (row : MessageRow.t) : option Inbox.Message.t :=
  Inbox.valid (Inbox.select_row s row).

(** What holds of the map while [forEach] runs over messages that arrive
    newest first: [done] have been seen, [rest] are still to come. *)
Definition grouped_so_far (tm : Inbox.ThreadMap)
    (done rest : list Inbox.Message.t) : Prop :=
  (forall k v, In (k, v) tm -> k = Inbox.Message.thread_key v /\ In v done)
  /\ NoDup (List.map fst tm)
  /\ (forall m, In m done ->
        exists v, In (Inbox.Message.thread_key m, v) tm
                  /\ (Inbox.Message.created_at m <= Inbox.Message.created_at v)%Z)
  /\ newest_first (List.map snd tm)
  /\ (forall k v m, In (k, v) tm -> In m rest ->
        (Inbox.Message.created_at m <= Inbox.Message.created_at v)%Z).

(** What holds of the map while [forEach] runs over messages in any order:
    every entry is keyed by its thread and was seen, no thread has two
    entries, and every message seen has an entry of its thread that is at
    least as recent. *)
Definition latest_so_far (tm : Inbox.ThreadMap)
    (done : list Inbox.Message.t) : Prop :=
  (forall k v, In (k, v) tm -> k = Inbox.Message.thread_key v /\ In v done)
  /\ NoDup (List.map fst tm)
  /\ (forall m, In m done ->
        exists v, In (Inbox.Message.thread_key m, v) tm
                  /\ (Inbox.Message.created_at m <= Inbox.Message.created_at v)%Z).

(** An unread request that starts a thread, sent to [c] about [rid]. *)
Definition pending_request (c rid : jsstring) (m : MessageRow.t) : bool :=
  ResourceTable.pending c m && JS.eqb (MessageRow.resource_id m) rid.

(** A message belongs to thread [T]: it is the message with id [T] or its
    [thread_id] is [T]. *)
Definition of_thread (T : jsstring) (x : MessageRow.t) : Prop :=
  MessageRow.id x = T \/ MessageRow.thread_id x = Some T.


(** Every message of thread [T] is about resource [rid]. *)
Definition thread_shares_resource (T rid : jsstring)
    (msgs : list MessageRow.t) : Prop :=
  forall x, In x msgs -> of_thread T x -> MessageRow.resource_id x = rid.

(** The viewer has contact details of its own under the resource's id. *)
Definition has_contact_details (u : ResourceTable.State)
    (r : ResourceTable.Resource.t) : Prop :=
  ResourceTable.contactInfo u !! ResourceTable.Resource.id r <> None.

(** The thread of a message, as the key under which it is looked up: its
    [thread_id] when that is a non-empty string, and its own id otherwise. *)
Definition thread_of (m : Inbox.Message.t) (T : jsstring) : Prop :=
  match Inbox.Message.thread_id m with
  | Some (c :: t) => T = c :: t
  | _ => T = Inbox.Message.id m
  end.

(** Nothing marks thread [T] as shared: the component holds no true entry of
    its own under [T], and [T] names no inherited property. *)
Definition unmarked (u : Inbox.State) (T : jsstring) : Prop :=
  Inbox.contactShared u !! T <> Some true /\ JS.proto_member T = false.

(** One run of any handler of the two components, seen from the store. *)
Inductive step : Store.t -> Store.t -> Prop :=
| step_loadContactSharing sharingError w :
    step (Inbox.store w) (Inbox.store (Inbox.loadContactSharing sharingError w))
| step_loadMessages error p w :
    step (Inbox.store w) (Inbox.store (fst (Inbox.loadMessages error p w)))
| step_loadThread error clock accepted messageId w :
    step (Inbox.store w)
         (Inbox.store (Inbox.loadThread error clock accepted messageId w))
| step_handleReply d error p w :
    step (Inbox.store w)
         (Inbox.store (snd (fst (Inbox.handleReply d error p w))))
| step_handleShareContact d sharingError messageError messageId w :
    step (Inbox.store w)
         (Inbox.store
            (snd (fst (Inbox.handleShareContact d sharingError messageError
                         messageId w))))
| step_handleMarkAsTaken error resourceId p w :
    step (Inbox.store w)
         (Inbox.store
            (snd (fst (Inbox.handleMarkAsTaken error resourceId p w))))
| step_loadPendingRequests failed w :
    step (ResourceTable.store w)
         (ResourceTable.store (ResourceTable.loadPendingRequests failed w))
| step_loadContactInfo resources w :
    step (ResourceTable.store w)
         (ResourceTable.store (ResourceTable.loadContactInfo resources w))
| step_handleAcceptResource onMessageSent resourceId w :
    step (ResourceTable.store w)
         (ResourceTable.store
            (fst (ResourceTable.handleAcceptResource onMessageSent
                    resourceId w))).

(** Row by row, the resources keep their ids and a taken resource stays
    taken. *)
Definition stays_taken (r r' : ResourceRow.t) : Prop :=
  ResourceRow.id r' = ResourceRow.id r
  /\ (ResourceRow.is_taken r = true -> ResourceRow.is_taken r' = true).

Definition never_untaken (s s' : Store.t) : Prop :=
  Forall2 stays_taken (Store.resources s) (Store.resources s').

(** A message of the opened thread that [loadThread] returns, addressed to
    the user's company and not read yet. *)
Definition to_stamp (s : Store.t) (u : Inbox.State) (messageId : jsstring)
    (row : MessageRow.t) : Prop :=
  of_thread messageId row
  /\ resolves s row
  /\ MessageRow.read_at row = None
  /\ Inbox.userCompanyId u = Some (MessageRow.to_company_id row).

(** A message with the real contact details of both companies removed. *)
Definition hide_party (c : Inbox.Party.t) : Inbox.Party.t :=
  Inbox.Party.mk (Inbox.Party.id c) (Inbox.Party.anonymous_id c) None.

Definition hide (m : Inbox.Message.t) : Inbox.Message.t :=
  Inbox.Message.mk (Inbox.Message.id m) (Inbox.Message.subject m)
    (Inbox.Message.content m) (Inbox.Message.created_at m)
    (Inbox.Message.read_at m) (Inbox.Message.thread_id m)
    (hide_party (Inbox.Message.from_company m))
    (hide_party (Inbox.Message.to_company m))
    (Inbox.Message.resource m).

(* ===================================================================== *)
(** ** Example data: two companies negotiating over one resource *)
(* ===================================================================== *)

Module Sample.

Definition alfa : CompanyRow.t :=
  CompanyRow.mk (JS.lit "c-alfa") (JS.lit "u-1") (JS.lit "Anonym-17")
    (Some (ContactInfo.mk (JS.lit "Alfa Elektro AS") (JS.lit "post@alfa.no")
             (JS.lit "22 00 00 01") (JS.lit "Storgata 1"))).

Definition beta : CompanyRow.t :=
  CompanyRow.mk (JS.lit "c-beta") (JS.lit "u-2") (JS.lit "Anonym-42")
    (Some (ContactInfo.mk (JS.lit "Beta Installasjon AS")
             (JS.lit "post@beta.no") (JS.lit "22 00 00 02")
             (JS.lit "Lillegata 2"))).

Definition elektriker : ResourceRow.t :=
  ResourceRow.mk (JS.lit "r-1") (JS.lit "Elektriker") false (Some 500%Z)
    (JS.lit "hourly").

(** Beta asks Alfa about the resource; Alfa answers. *)
Definition request : MessageRow.t :=
  MessageRow.mk (JS.lit "m-1") (JS.lit "c-beta") (JS.lit "c-alfa")
    (JS.lit "r-1") (JS.lit "Ledig i januar?") (JS.lit "Hei, er dere ledige?")
    100%Z None None.

Definition answer : MessageRow.t :=
  MessageRow.mk (JS.lit "m-2") (JS.lit "c-alfa") (JS.lit "c-beta")
    (JS.lit "r-1") (JS.lit "Re: Ledig i januar?") (JS.lit "Ja.")
    200%Z None (Some (JS.lit "m-1")).

Definition db : Store.t :=
  Store.mk [alfa; beta] [elektriker] [request; answer] [].

(** The same store after Alfa's resource has been taken. *)
Definition db_taken : Store.t :=
  Store.set_resources [ResourceRow.set_is_taken true elektriker] db.

(** The store after the resource has been taken and Beta has disclosed its
    contact details to Alfa in the thread of the request. *)
Definition db_disclosed : Store.t :=
  Store.set_thread_contact_sharing
    [SharingRow.mk (JS.lit "m-1") (JS.lit "c-beta") (JS.lit "c-alfa")]
    db_taken.

(** The store with one more request of Beta's, about an id that names a
    property every object inherits. *)
Definition stray : MessageRow.t :=
  MessageRow.mk (JS.lit "m-7") (JS.lit "c-beta") (JS.lit "c-alfa")
    (JS.lit "toString") (JS.lit "Hei") (JS.lit "Hei") 150%Z None None.

Definition db_stray : Store.t := Store.set_messages [request; answer; stray] db.

(** A message of Beta's whose sender row no longer resolves. *)
Definition orphan : MessageRow.t :=
  MessageRow.mk (JS.lit "m-9") (JS.lit "c-gone") (JS.lit "c-alfa")
    (JS.lit "r-1") (JS.lit "Hei") (JS.lit "Hei") 50%Z None None.

Definition db_orphan : Store.t := Store.set_messages [orphan] db.

(** Alfa's inbox with nothing loaded yet. *)
Definition inbox0 : Inbox.State :=
  Inbox.mkState [] None [] [] false false None true ∅
    (Some (JS.lit "c-alfa")).

(** Alfa has opened the thread through Beta's request. *)
Definition opened (r : jsstring) : Inbox.State :=
  Inbox.setReply r
    (Inbox.setSelectedMessage
       (Inbox.valid (Inbox.select_row db request)) inbox0).

(** Alfa has opened the thread through its own answer, a reply. *)
Definition opened_reply (r : jsstring) : Inbox.State :=
  Inbox.setReply r
    (Inbox.setSelectedMessage
       (Inbox.valid (Inbox.select_row db answer)) inbox0).

(** Beta's inbox with nothing loaded yet. *)
Definition inbox_beta : Inbox.State :=
  Inbox.mkState [] None [] [] false false None true ∅
    (Some (JS.lit "c-beta")).

(** What the store fills in on a second insert. *)
Definition defaults' : Defaults :=
  {| new_id := JS.lit "m-4"; db_now := 310%Z |}.

(** Beta's request as Alfa's inbox holds it. *)
Definition inbound : Inbox.Message.t :=
  Inbox.Message.mk (JS.lit "m-1") (JS.lit "Ledig i januar?")
    (JS.lit "Hei, er dere ledige?") 100%Z None None
    (Inbox.Party.of_row beta) (Inbox.Party.of_row alfa)
    (Inbox.Res.of_row elektriker).

(** Alfa's answer as Alfa's inbox holds it. *)
Definition outbound : Inbox.Message.t :=
  Inbox.Message.mk (JS.lit "m-2") (JS.lit "Re: Ledig i januar?")
    (JS.lit "Ja.") 200%Z None (Some (JS.lit "m-1"))
    (Inbox.Party.of_row alfa) (Inbox.Party.of_row beta)
    (Inbox.Res.of_row elektriker).

Definition props : Inbox.Props := {| Inbox.onMessageUpdate := true |}.

Definition defaults : Defaults :=
  {| new_id := JS.lit "m-3"; db_now := 300%Z |}.

(** Alfa's resource as the table receives it. *)
Definition offer (taken : bool) : ResourceTable.Resource.t :=
  ResourceTable.Resource.mk (JS.lit "r-1") (JS.lit "c-alfa")
    (JS.lit "Elektriker") (JS.lit "") (JS.lit "Anonym-17") taken
    (Some 1000%Z) (Some 2000%Z).

(** A resource of Alfa's with a given id. *)
Definition offer_named (k : jsstring) (taken : bool)
  : ResourceTable.Resource.t :=
  ResourceTable.Resource.mk k (JS.lit "c-alfa") (JS.lit "Elektriker")
    (JS.lit "") (JS.lit "Anonym-17") taken (Some 1000%Z) (Some 2000%Z).

Definition table0 : ResourceTable.State :=
  ResourceTable.mkState ∅ (Some (JS.lit "c-alfa")) false ∅ None false.

End Sample.

(* ===================================================================== *)
(** ** Strings *)
(* ===================================================================== *)

Lemma eqb_eq (a b : jsstring) : JS.eqb a b = true <-> a = b.
Proof. unfold JS.eqb. apply bool_decide_eq_true. Qed.

Lemma eqb_neq (a b : jsstring) : JS.eqb a b = false <-> a <> b.
Proof. unfold JS.eqb. apply bool_decide_eq_false. Qed.

Lemma eqb_refl (a : jsstring) : JS.eqb a a = true.
Proof. now apply eqb_eq. Qed.

Lemma trimStart_whitespace (s : jsstring) :
  whitespace_only s -> JS.trimStart s = [].
Proof.
  induction 1 as [|c s Hc _ IH]; simpl; [reflexivity|].
  now rewrite Hc.
Qed.

Lemma trimStart_nil_inv (s : jsstring) :
  JS.trimStart s = [] -> whitespace_only s.
Proof.
  induction s as [|c s IH]; simpl; intros H; [constructor|].
  destruct (JS.isWhiteSpace c) eqn:Hc; [|discriminate].
  constructor; [exact Hc | now apply IH].
Qed.

Lemma trimStart_head (s : jsstring) c t :
  JS.trimStart s = c :: t -> JS.isWhiteSpace c = false.
Proof.
  induction s as [|x s IH]; simpl; [discriminate|].
  destruct (JS.isWhiteSpace x) eqn:Hx; [exact IH|].
  intros [= -> _]. exact Hx.
Qed.

Lemma whitespace_only_rev (a : jsstring) :
  whitespace_only (rev a) <-> whitespace_only a.
Proof.
  unfold whitespace_only. rewrite !List.Forall_forall.
  split; intros H c Hc; apply H.
  - now apply in_rev in Hc.
  - now apply in_rev.
Qed.

(** [trim] leaves nothing exactly when every character is white space. *)
Lemma trim_nil_iff (s : jsstring) : JS.trim s = [] <-> whitespace_only s.
Proof.
  unfold JS.trim, JS.trimEnd. split.
  - intros H.
    assert (Hr : JS.trimStart (rev (JS.trimStart s)) = []).
    { apply (f_equal (@rev N)) in H. now rewrite rev_involutive in H. }
    apply trimStart_nil_inv in Hr.
    apply (proj1 (whitespace_only_rev _)) in Hr.
    destruct (JS.trimStart s) as [|c t] eqn:E.
    + now apply trimStart_nil_inv.
    + apply trimStart_head in E.
      apply Forall_inv in Hr. simpl in Hr. congruence.
  - intros H. now rewrite (trimStart_whitespace s H).
Qed.

Lemma uint_codes_inj (d e : Decimal.uint) :
  JS.uint_codes d = JS.uint_codes e -> d = e.
Proof.
  revert e. induction d; intros e H; destruct e; simpl in H;
    try discriminate; try reflexivity;
    injection H as H; f_equal; auto.
Qed.

Lemma of_nat_inj (n m : nat) : JS.of_nat n = JS.of_nat m -> n = m.
Proof.
  unfold JS.of_nat. intros H. apply uint_codes_inj in H.
  rewrite <- (DecimalNat.Unsigned.of_to n), <- (DecimalNat.Unsigned.of_to m).
  now rewrite H.
Qed.

Lemma uint_codes_no_space (d : Decimal.uint) :
  Forall (fun c => c <> 32%N) (JS.uint_codes d).
Proof. induction d; simpl; constructor; auto; discriminate. Qed.

Lemma split_at_first (sep : N) (a b x y : jsstring) :
  Forall (fun c => c <> sep) a -> Forall (fun c => c <> sep) b ->
  a ++ sep :: x = b ++ sep :: y -> a = b.
Proof.
  intros Ha. revert b. induction Ha as [|c a Hc Ha IH]; intros b Hb H.
  - destruct Hb as [|d b Hd Hb]; [reflexivity|].
    simpl in H. injection H as H _. congruence.
  - destruct Hb as [|d b Hd Hb]; simpl in H.
    + injection H as H _. congruence.
    + injection H as -> H. f_equal. now apply IH.
Qed.

(* ===================================================================== *)
(** ** getStatusInfo *)
(* ===================================================================== *)

Lemma getStatusInfo_display (u : ResourceTable.State) (now : Z)
    (r : ResourceTable.Resource.t) :
  ResourceTable.getStatusInfo u now r =
  display (statusOf (ResourceTable.Resource.is_taken r)
                    (ResourceTable.has_info u (ResourceTable.Resource.id r))
                    (ResourceTable.pending_count u (ResourceTable.Resource.id r))
                    (period_over now r)).
Proof.
  unfold ResourceTable.getStatusInfo, statusOf, period_over.
  destruct (ResourceTable.Resource.is_taken r).
  - destruct (ResourceTable.has_info u (ResourceTable.Resource.id r));
      reflexivity.
  - destruct (0 <? ResourceTable.pending_count u (ResourceTable.Resource.id r));
      [reflexivity|].
    destruct (JS.date_lt (ResourceTable.Resource.period_to r) (Some now));
      reflexivity.
Qed.

(** Different statuses are shown differently. *)
Lemma display_inj (st st' : Status) : display st = display st' -> st = st'.
Proof.
  destruct st, st'; intros H; try reflexivity; try discriminate H.
  apply (f_equal ResourceTable.text) in H. cbn [display ResourceTable.text] in H.
  f_equal. apply of_nat_inj.
  eapply (split_at_first 32%N (JS.of_nat n) (JS.of_nat n0)).
  - apply uint_codes_no_space.
  - apply uint_codes_no_space.
  - exact H.
Qed.

Lemma proto_length_member (k : jsstring) :
  JS.proto_member k = false -> JS.proto_length k = None.
Proof.
  unfold JS.proto_member, JS.proto_length. intros H.
  destruct (List.find _ JS.proto_members) as [[k' n]|] eqn:E; [|reflexivity].
  apply find_some in E. destruct E as [Hin E].
  assert (Hex : List.existsb (fun p => JS.eqb (fst p) k) JS.proto_members
                = true) by (apply existsb_exists; eauto).
  congruence.
Qed.

(** For an id that names no inherited property the two lookups of
    [getStatusInfo] read the table's own entries. *)
Lemma has_info_own (u : ResourceTable.State) (r : ResourceTable.Resource.t) :
  JS.proto_member (ResourceTable.Resource.id r) = false ->
  ResourceTable.has_info u (ResourceTable.Resource.id r)
  = contact_resolvable u r.
Proof.
  intros H. unfold ResourceTable.has_info, contact_resolvable.
  destruct (ResourceTable.contactInfo u !! _); [reflexivity | exact H].
Qed.

Lemma pending_count_own (u : ResourceTable.State) (k : jsstring) :
  JS.proto_member k = false ->
  ResourceTable.pending_count u k
  = length (default [] (ResourceTable.pendingRequests u !! k)).
Proof.
  intros H. unfold ResourceTable.pending_count.
  destruct (ResourceTable.pendingRequests u !! k); [reflexivity|].
  now rewrite (proto_length_member k H).
Qed.

Lemma period_over_iff (now : Z) (r : ResourceTable.Resource.t) :
  period_over now r = true
  <-> exists t, ResourceTable.Resource.period_to r = Some t /\ (t < now)%Z.
Proof.
  unfold period_over, JS.date_lt.
  destruct (ResourceTable.Resource.period_to r) as [t|].
  - rewrite Z.ltb_lt. split; [eauto|]. now intros (t' & [= <-] & H).
  - split; [discriminate|]. now intros (t' & H & _).
Qed.

(** C2. A resource whose id names a property that every object inherits is
    given a status that its state does not support.  With no contact details
    and no pending request in the table, a taken resource with id "toString"
    is shown as "Avtale inngått" (Agreed, where AwaitingApproval is due) and
    a resource that is not taken, whose period has not ended, with id
    "constructor" is shown as "1 ny forespørsel" (PendingRequests(1), where
    Active is due). *)
Theorem inherited_names_change_status :
  ResourceTable.contactInfo Sample.table0 = ∅
  /\ ResourceTable.pendingRequests Sample.table0 = ∅
  /\ ResourceTable.getStatusInfo Sample.table0 1500
       (Sample.offer_named (JS.lit "toString") true)
     = display Agreed
  /\ ResourceTable.getStatusInfo Sample.table0 1500
       (Sample.offer_named (JS.lit "constructor") false)
     = display (PendingRequests 1)
  /\ ResourceTable.text
       (ResourceTable.getStatusInfo Sample.table0 1500
          (Sample.offer_named (JS.lit "constructor") false))
     = JS.lit "1 ny foresp" ++ [JS.oslash] ++ JS.lit "rsel"
  /\ statusOf true false 0 false = AwaitingApproval
  /\ statusOf false false 0 false = Active.
Proof. repeat split. Qed.

(** X21. For a resource whose id names no inherited property,
    [getStatusInfo] shows exactly one of the five statuses, chosen top to
    bottom: a taken resource is Agreed when the table holds contact details
    under its id and AwaitingApproval otherwise; a resource that is not taken
    has PendingRequests(n) when the table lists n > 0 requests under its id,
    else Expired when its period's end is a date earlier than now, else
    Active. *)
Theorem getStatusInfo_statusOf (u : ResourceTable.State) (now : Z)
    (r : ResourceTable.Resource.t) :
  JS.proto_member (ResourceTable.Resource.id r) = false ->
  let n := length (default [] (ResourceTable.pendingRequests u
                               !! ResourceTable.Resource.id r)) in
  (exists! st, ResourceTable.getStatusInfo u now r = display st)
  /\ ResourceTable.getStatusInfo u now r =
     display (statusOf (ResourceTable.Resource.is_taken r)
                (contact_resolvable u r) n (period_over now r))
  /\ (contact_resolvable u r = true <-> has_contact_details u r)
  /\ (period_over now r = true
      <-> exists t, ResourceTable.Resource.period_to r = Some t
                    /\ (t < now)%Z)
  /\ (forall n over, statusOf true true n over = Agreed)
  /\ (forall n over, statusOf true false n over = AwaitingApproval)
  /\ (forall c n over, statusOf false c (S n) over = PendingRequests (S n))
  /\ (forall c, statusOf false c 0 true = Expired)
  /\ (forall c, statusOf false c 0 false = Active).
Proof.
  intros Hk n.
  assert (E : ResourceTable.getStatusInfo u now r =
              display (statusOf (ResourceTable.Resource.is_taken r)
                         (contact_resolvable u r) n (period_over now r))).
  { rewrite getStatusInfo_display, (has_info_own u r Hk).
    now rewrite (pending_count_own u _ Hk). }
  split.
  { eexists. split; [exact E|].
    intros st' H. rewrite E in H. now apply display_inj in H. }
  split; [exact E|]. split.
  { unfold contact_resolvable, has_contact_details.
    destruct (ResourceTable.contactInfo u !! _); intuition congruence. }
  split; [apply period_over_iff|]. repeat split; reflexivity.
Qed.

Lemma getStatusInfo_statusOf_witness :
  ResourceTable.getStatusInfo Sample.table0 2500 (Sample.offer false)
  = display Expired
  /\ ResourceTable.getStatusInfo Sample.table0 1500 (Sample.offer false)
     = display Active.
Proof.
  destruct (getStatusInfo_statusOf Sample.table0 2500 (Sample.offer false)
              eq_refl) as (_ & H1 & _).
  destruct (getStatusInfo_statusOf Sample.table0 1500 (Sample.offer false)
              eq_refl) as (_ & H2 & _).
  split; [exact H1 | exact H2].
Defined.

(** A resource that is taken while the viewer has no contact details for it
    is shown as AwaitingApproval, not as Agreed. *)
Lemma taken_without_contact_not_agreed :
  ResourceTable.Resource.is_taken (Sample.offer true) = true
  /\ ResourceTable.getStatusInfo Sample.table0 1500 (Sample.offer true)
     = display AwaitingApproval
  /\ ResourceTable.getStatusInfo Sample.table0 1500 (Sample.offer true)
     <> display Agreed.
Proof.
  split; [reflexivity|]. split; [reflexivity|].
  intros H. discriminate H.
Qed.

(** C6 (amended). For a resource whose id names no inherited property,
    [getStatusInfo] shows exactly one of the five statuses; Agreed is shown
    if and only if the resource is taken and the table holds contact details
    under its id, and the resource is taken if and only if Agreed or
    AwaitingApproval is shown. *)
Theorem agreed_iff_taken_and_resolvable (u : ResourceTable.State) (now : Z)
    (r : ResourceTable.Resource.t) :
  JS.proto_member (ResourceTable.Resource.id r) = false ->
  (exists! st, ResourceTable.getStatusInfo u now r = display st)
  /\ (ResourceTable.getStatusInfo u now r = display Agreed
      <-> ResourceTable.Resource.is_taken r = true
          /\ has_contact_details u r)
  /\ (ResourceTable.Resource.is_taken r = true
      <-> ResourceTable.getStatusInfo u now r = display Agreed
          \/ ResourceTable.getStatusInfo u now r = display AwaitingApproval).
Proof.
  intros Hk. split.
  { eexists. split; [apply getStatusInfo_display|].
    intros st' H. rewrite getStatusInfo_display in H.
    now apply display_inj in H. }
  rewrite getStatusInfo_display, (has_info_own u r Hk).
  unfold statusOf, has_contact_details, contact_resolvable.
  destruct (ResourceTable.Resource.is_taken r),
    (ResourceTable.contactInfo u !! ResourceTable.Resource.id r),
    (0 <? ResourceTable.pending_count u (ResourceTable.Resource.id r)),
    (period_over now r);
    (split; [split; [intros H; apply display_inj in H; try discriminate H;
                     split; congruence
                    | intros [? ?]; try discriminate; try congruence;
                      reflexivity]
            | split; [intros H; try discriminate H; auto
                     | intros [H|H]; apply display_inj in H;
                       try discriminate H; reflexivity]]).
Qed.

Lemma agreed_iff_taken_and_resolvable_witness :
  ResourceTable.getStatusInfo Sample.table0 1500 (Sample.offer true)
  <> display Agreed.
Proof.
  destruct (agreed_iff_taken_and_resolvable Sample.table0 1500
              (Sample.offer true) eq_refl) as (_ & H & _).
  intros E. apply H in E. destruct E as [_ E]. apply E. reflexivity.
Defined.

(* ===================================================================== *)
(** ** handleReply: the guard *)
(* ===================================================================== *)

(** [handleReply] is left through its guard exactly when no message is
    selected, the trimmed reply is empty or no company is known. *)
Lemma handleReply_rejected_iff (d : Defaults) (error : bool) (p : Inbox.Props)
    (w : Inbox.World) :
  fst (fst (Inbox.handleReply d error p w)) = Inbox.Rejected
  <-> Inbox.selectedMessage (Inbox.ui w) = None
      \/ whitespace_only (Inbox.reply (Inbox.ui w))
      \/ JS.truthy_opt (Inbox.userCompanyId (Inbox.ui w)) = false.
Proof.
  unfold Inbox.handleReply. rewrite <- trim_nil_iff.
  destruct (Inbox.selectedMessage (Inbox.ui w)) as [sel|];
    [|simpl; split; auto].
  destruct (Inbox.userCompanyId (Inbox.ui w)) as [c|];
    [|simpl; split; auto].
  simpl.
  destruct (JS.trim (Inbox.reply (Inbox.ui w))) as [|x t];
    [simpl; split; auto|].
  destruct c as [|y c]; [simpl; split; auto|].
  simpl. destruct error; simpl; split; try discriminate;
    intros [H|[H|H]]; discriminate H.
Qed.

(** [handleReply] runs to the end of its [try] block exactly when a message
    is selected, the reply has a character that is not white space, the
    company is known and the insert returns no error. *)
Lemma handleReply_completed_iff (d : Defaults) (error : bool) (p : Inbox.Props)
    (w : Inbox.World) :
  fst (fst (Inbox.handleReply d error p w)) = Inbox.Completed
  <-> Inbox.selectedMessage (Inbox.ui w) <> None
      /\ ~ whitespace_only (Inbox.reply (Inbox.ui w))
      /\ JS.truthy_opt (Inbox.userCompanyId (Inbox.ui w)) = true
      /\ error = false.
Proof.
  unfold Inbox.handleReply. rewrite <- trim_nil_iff.
  destruct (Inbox.selectedMessage (Inbox.ui w)) as [sel|];
    [|simpl; intuition congruence].
  destruct (Inbox.userCompanyId (Inbox.ui w)) as [c|];
    [|simpl; intuition congruence].
  destruct (JS.trim (Inbox.reply (Inbox.ui w))) as [|x t];
    [simpl; intuition congruence|].
  destruct c as [|y c]; [simpl; intuition congruence|].
  destruct error; simpl; intuition congruence.
Qed.

(** With a reply of white space only [handleReply] returns without an
    error: the [error] field is as it was, null, and the outcome is the one
    of a call with no message selected. *)
Lemma blank_reply_raises_nothing :
  let w := Inbox.mkWorld Sample.db (Sample.opened [32; 9; 10; 160]%N) in
  let r := Inbox.handleReply Sample.defaults false Sample.props w in
  let nothing_selected :=
    Inbox.mkWorld Sample.db (Inbox.setReply (JS.lit "Ja.") Sample.inbox0) in
  whitespace_only (Inbox.reply (Inbox.ui w))
  /\ Inbox.selectedMessage (Inbox.ui w) <> None
  /\ fst (fst r) = Inbox.Rejected
  /\ snd (fst r) = w
  /\ Inbox.error (Inbox.ui (snd (fst r))) = None
  /\ snd r = []
  /\ fst (fst (Inbox.handleReply Sample.defaults false Sample.props
                 nothing_selected)) = Inbox.Rejected.
Proof.
  intros w r nothing_selected. split; [repeat constructor|].
  split; [discriminate|]. repeat split.
Qed.

(** C5 (amended). Whatever the thread, the sender and the resource,
    [handleReply] does nothing with a reply that is empty or consists of
    white space only: it returns through the guard on its first line, nothing
    is sent to the store, the component state, its [error] field included, is
    unchanged, and no refresh is started.  No error is raised or shown. *)
Theorem handleReply_rejects_blank (d : Defaults) (error : bool)
    (p : Inbox.Props) (w : Inbox.World) :
  whitespace_only (Inbox.reply (Inbox.ui w)) ->
  Inbox.handleReply d error p w = (Inbox.Rejected, w, []).
Proof.
  intros H. apply trim_nil_iff in H. unfold Inbox.handleReply.
  rewrite H. simpl.
  destruct (Inbox.selectedMessage (Inbox.ui w));
    destruct (Inbox.userCompanyId (Inbox.ui w)); reflexivity.
Qed.

Lemma handleReply_rejects_blank_witness :
  let w := Inbox.mkWorld Sample.db (Sample.opened [32; 9; 10; 160]%N) in
  whitespace_only (Inbox.reply (Inbox.ui w))
  /\ Inbox.handleReply Sample.defaults false Sample.props w
     = (Inbox.Rejected, w, []).
Proof.
  intros w. split.
  - repeat constructor.
  - apply (handleReply_rejects_blank Sample.defaults false Sample.props w).
    repeat constructor.
Defined.

(* ===================================================================== *)
(** ** Ordered queries *)
(* ===================================================================== *)

Lemma before_total (asc : bool) (x y : MessageRow.t) :
  Db.before asc x y = false -> Db.before asc y x = true.
Proof. unfold Db.before. destruct asc; lia. Qed.

Lemma before_trans (asc : bool) (x y z : MessageRow.t) :
  Db.before asc x y = true -> Db.before asc y z = true ->
  Db.before asc x z = true.
Proof. unfold Db.before. destruct asc; lia. Qed.

Lemma place_Permutation (asc : bool) (x : MessageRow.t) (l : list MessageRow.t) :
  Permutation (x :: l) (Db.place asc x l).
Proof.
  induction l as [|y l IH]; simpl; [reflexivity|].
  destruct (Db.before asc x y); [reflexivity|].
  rewrite perm_swap. now constructor.
Qed.

Lemma order_Permutation (asc : bool) (l : list MessageRow.t) :
  Permutation l (Db.order asc l).
Proof.
  induction l as [|x l IH]; simpl; [reflexivity|].
  rewrite <- place_Permutation. now constructor.
Qed.

Lemma In_order (asc : bool) (l : list MessageRow.t) (x : MessageRow.t) :
  In x (Db.order asc l) <-> In x l.
Proof.
  split; apply Permutation_in;
    [symmetry|]; apply order_Permutation.
Qed.

Lemma place_sorted (asc : bool) (x : MessageRow.t) (l : list MessageRow.t) :
  StronglySorted (row_order asc) l ->
  StronglySorted (row_order asc) (Db.place asc x l).
Proof.
  induction 1 as [|y l Hl IH Hy]; simpl.
  - repeat constructor.
  - destruct (Db.before asc x y) eqn:E.
    + constructor; [now constructor|].
      constructor; [exact E|].
      rewrite List.Forall_forall in Hy |- *. intros z Hz.
      eapply before_trans; [exact E | now apply Hy].
    + constructor; [exact IH|].
      rewrite List.Forall_forall in Hy |- *. intros z Hz.
      apply (Permutation_in _ (Permutation_sym (place_Permutation asc x l)))
        in Hz.
      destruct Hz as [<-|Hz]; [now apply before_total | now apply Hy].
Qed.

Lemma order_sorted (asc : bool) (l : list MessageRow.t) :
  StronglySorted (row_order asc) (Db.order asc l).
Proof.
  induction l as [|x l IH]; simpl; [constructor | now apply place_sorted].
Qed.

Lemma joined_resolves (s : Store.t) (row : MessageRow.t) :
  joined s row <> None <-> resolves s row.
Proof.
  unfold joined, resolves, Inbox.valid, Inbox.select_row. simpl.
  destruct (Db.company s (MessageRow.from_company_id row)),
    (Db.company s (MessageRow.to_company_id row)),
    (Db.resource s (MessageRow.resource_id row)); simpl;
    intuition congruence.
Qed.

Lemma joined_fields (s : Store.t) (row : MessageRow.t) (m : Inbox.Message.t) :
  joined s row = Some m ->
  Inbox.Message.id m = MessageRow.id row
  /\ Inbox.Message.subject m = MessageRow.subject row
  /\ Inbox.Message.content m = MessageRow.content row
  /\ Inbox.Message.created_at m = MessageRow.created_at row
  /\ Inbox.Message.read_at m = MessageRow.read_at row
  /\ Inbox.Message.thread_id m = MessageRow.thread_id row
  /\ Inbox.Party.id (Inbox.Message.to_company m) = MessageRow.to_company_id row
  /\ Inbox.Party.id (Inbox.Message.from_company m)
     = MessageRow.from_company_id row
  /\ Inbox.Res.id (Inbox.Message.resource m) = MessageRow.resource_id row.
Proof.
  unfold joined, Inbox.valid, Inbox.select_row, Db.company, Db.resource. simpl.
  destruct (List.find _ (Store.companies s)) as [f|] eqn:Ef; [|discriminate].
  destruct (List.find (fun c => JS.eqb (CompanyRow.id c)
                                  (MessageRow.to_company_id row))
              (Store.companies s)) as [t|] eqn:Et; [|discriminate].
  destruct (List.find _ (Store.resources s)) as [r|] eqn:Er; [|discriminate].
  simpl. intros [= <-]. simpl.
  apply find_some in Ef, Et, Er.
  destruct Ef as [_ Ef], Et as [_ Et], Er as [_ Er].
  apply eqb_eq in Ef, Et, Er. repeat split; assumption.
Qed.

Lemma In_validMessages (s : Store.t) (rows : list MessageRow.t)
    (m : Inbox.Message.t) :
  In m (Inbox.validMessages (List.map (Inbox.select_row s) rows))
  <-> exists row, In row rows /\ joined s row = Some m.
Proof.
  unfold Inbox.validMessages, joined.
  rewrite <- list_elem_of_In, list_elem_of_omap. split.
  - intros (r & Hr & Hv). apply list_elem_of_In, in_map_iff in Hr.
    destruct Hr as (row & <- & Hrow). eauto.
  - intros (row & Hrow & Hv). exists (Inbox.select_row s row).
    split; [|exact Hv]. apply list_elem_of_In, in_map_iff. eauto.
Qed.

Lemma validMessages_cons (s : Store.t) (row : MessageRow.t)
    (rows : list MessageRow.t) :
  Inbox.validMessages (List.map (Inbox.select_row s) (row :: rows))
  = match joined s row with
    | Some m => m :: Inbox.validMessages (List.map (Inbox.select_row s) rows)
    | None => Inbox.validMessages (List.map (Inbox.select_row s) rows)
    end.
Proof. reflexivity. Qed.

Lemma validMessages_sorted (s : Store.t) (asc : bool)
    (rows : list MessageRow.t) :
  StronglySorted (row_order asc) rows ->
  (if asc then oldest_first else newest_first)
    (Inbox.validMessages (List.map (Inbox.select_row s) rows)).
Proof.
  assert (G : forall R : Inbox.Message.t -> Inbox.Message.t -> Prop,
    (forall a b a' b', joined s a = Some a' -> joined s b = Some b' ->
                       row_order asc a b -> R a' b') ->
    StronglySorted (row_order asc) rows ->
    StronglySorted R (Inbox.validMessages (List.map (Inbox.select_row s) rows))).
  { intros R HR. induction 1 as [|x l Hl IH Hx].
    - constructor.
    - rewrite validMessages_cons. destruct (joined s x) as [m|] eqn:E;
        [|exact IH].
      constructor; [exact IH|].
      rewrite List.Forall_forall in Hx |- *. intros m' Hm'.
      apply In_validMessages in Hm'. destruct Hm' as (row & Hrow & Hj).
      eapply HR; eauto. }
  intros H. destruct asc; apply G; try exact H;
    intros a b a' b' Ha Hb Hab;
    apply joined_fields in Ha, Hb;
    destruct Ha as (_ & _ & _ & -> & _), Hb as (_ & _ & _ & -> & _);
    unfold row_order, Db.before in Hab; lia.
Qed.

(* ===================================================================== *)
(** ** loadMessages: the latest message of every thread *)
(* ===================================================================== *)

Lemma tm_has_false (k : jsstring) (tm : Inbox.ThreadMap) :
  Inbox.tm_has k tm = false <-> ~ In k (List.map fst tm).
Proof.
  unfold Inbox.tm_has. induction tm as [|[k' v'] tm IH]; simpl.
  - tauto.
  - rewrite orb_false_iff, IH, eqb_neq. tauto.
Qed.

Lemma tm_set_fresh (k : jsstring) (v : Inbox.Message.t) (tm : Inbox.ThreadMap) :
  Inbox.tm_has k tm = false -> Inbox.tm_set k v tm = tm ++ [(k, v)].
Proof.
  unfold Inbox.tm_has. induction tm as [|[k' v'] tm IH]; simpl;
    [reflexivity|].
  intros H. apply orb_false_iff in H. destruct H as [-> H].
  now rewrite IH.
Qed.

Lemma tm_has_get (k : jsstring) (tm : Inbox.ThreadMap) :
  Inbox.tm_has k tm = true ->
  exists v, Inbox.tm_get k tm = Some v /\ In (k, v) tm.
Proof.
  unfold Inbox.tm_has, Inbox.tm_get.
  induction tm as [|[k' v'] tm IH]; simpl; [discriminate|].
  destruct (JS.eqb k' k) eqn:E; simpl.
  - intros _. apply eqb_eq in E. subst k'. exists v'. split; auto.
  - intros H. destruct (IH H) as (v & Hv & Hin). exists v. split; auto.
Qed.

Lemma StronglySorted_snoc {A : Type} (R : A -> A -> Prop) (l : list A) (x : A) :
  StronglySorted R l -> Forall (fun y => R y x) l ->
  StronglySorted R (l ++ [x]).
Proof.
  induction 1 as [|y l Hl IH Hy]; intros Hx; simpl.
  - repeat constructor.
  - apply Forall_cons_1 in Hx. destruct Hx as [Hyx Hx].
    constructor; [now apply IH|].
    apply Forall_app. split; [exact Hy | now repeat constructor].
Qed.

Lemma group_step_grouped (tm : Inbox.ThreadMap) (msg : Inbox.Message.t)
    (done rest : list Inbox.Message.t) :
  grouped_so_far tm done (msg :: rest) -> newest_first (msg :: rest) ->
  grouped_so_far (Inbox.group_step tm msg) (done ++ [msg]) rest.
Proof.
  intros (Ha & Hb & Hc & Hd & He) Hs. unfold Inbox.group_step.
  apply StronglySorted_inv in Hs. destruct Hs as [_ Hs].
  rewrite List.Forall_forall in Hs.
  destruct (Inbox.tm_has (Inbox.Message.thread_key msg) tm) eqn:Eh.
  - destruct (tm_has_get _ _ Eh) as (old & Hg & Hin). rewrite Hg. simpl.
    assert (Hle := He _ _ msg Hin (in_eq _ _)).
    apply Z.ltb_ge in Hle. rewrite Hle.
    refine (conj _ (conj Hb (conj _ (conj Hd _)))).
    + intros k v Hkv. apply Ha in Hkv. destruct Hkv as [-> Hv].
      split; [reflexivity | apply in_or_app; now left].
    + intros m Hm. apply in_app_or in Hm. destruct Hm as [Hm|[<-|[]]].
      * now apply Hc.
      * exists old. split; [exact Hin | now apply Z.ltb_ge].
    + intros k v m Hkv Hm. apply (He k v m Hkv). now right.
  - simpl. rewrite (tm_set_fresh _ _ _ Eh). apply tm_has_false in Eh.
    refine (conj _ (conj _ (conj _ (conj _ _)))).
    + intros k v Hkv. apply in_app_or in Hkv.
      destruct Hkv as [Hkv|[[= <- <-]|[]]].
      * apply Ha in Hkv. destruct Hkv as [-> Hv].
        split; [reflexivity | apply in_or_app; now left].
      * split; [reflexivity | apply in_or_app; right; now left].
    + rewrite List.map_app. simpl. apply NoDup_app.
      split; [exact Hb|]. split.
      * intros x Hx Hx'. apply list_elem_of_In in Hx, Hx'.
        destruct Hx' as [<-|[]]. contradiction.
      * apply NoDup_singleton.
    + intros m Hm. apply in_app_or in Hm. destruct Hm as [Hm|[<-|[]]].
      * destruct (Hc m Hm) as (v & Hv & Hle). exists v.
        split; [apply in_or_app; now left | exact Hle].
      * exists msg. split; [apply in_or_app; right; now left | lia].
    + rewrite List.map_app. simpl. apply StronglySorted_snoc; [exact Hd|].
      rewrite List.Forall_forall. intros v Hv.
      apply in_map_iff in Hv. destruct Hv as ([k v'] & <- & Hv). simpl.
      apply (He k v' msg Hv). now left.
    + intros k v m Hkv Hm. apply in_app_or in Hkv.
      destruct Hkv as [Hkv|[[= <- <-]|[]]].
      * apply (He k v m Hkv). now right.
      * now apply Hs.
Qed.

Lemma foldl_group_step_grouped (rest : list Inbox.Message.t) :
  forall (tm : Inbox.ThreadMap) (done : list Inbox.Message.t),
  grouped_so_far tm done rest -> newest_first rest ->
  grouped_so_far (foldl Inbox.group_step tm rest) (done ++ rest) [].
Proof.
  induction rest as [|msg rest IH]; intros tm done H Hs; simpl.
  - now rewrite app_nil_r.
  - replace (done ++ msg :: rest) with ((done ++ [msg]) ++ rest)
      by now rewrite <- app_assoc.
    apply IH.
    + now apply group_step_grouped.
    + now apply StronglySorted_inv in Hs.
Qed.

(** On messages that arrive newest first, [latestMessages] keeps one
    message per thread, the newest, and keeps them newest first. *)
Lemma latestMessages_newest (l : list Inbox.Message.t) :
  newest_first l ->
  (forall m, In m (Inbox.latestMessages l) -> In m l)
  /\ NoDup (List.map Inbox.Message.thread_key (Inbox.latestMessages l))
  /\ (forall m, In m l ->
        exists v, In v (Inbox.latestMessages l)
                  /\ Inbox.Message.thread_key v = Inbox.Message.thread_key m
                  /\ (Inbox.Message.created_at m
                      <= Inbox.Message.created_at v)%Z)
  /\ newest_first (Inbox.latestMessages l).
Proof.
  intros Hs.
  assert (H0 : grouped_so_far [] [] l).
  { refine (conj _ (conj _ (conj _ (conj _ _)))).
    - intros k v [].
    - constructor.
    - intros m [].
    - constructor.
    - intros k v m []. }
  destruct (foldl_group_step_grouped l [] [] H0 Hs) as (Ha & Hb & Hc & Hd & _).
  simpl in Ha, Hc. unfold Inbox.latestMessages, Inbox.tm_values.
  set (tm := foldl Inbox.group_step [] l) in *.
  assert (Hk : List.map Inbox.Message.thread_key (List.map snd tm)
               = List.map fst tm).
  { rewrite List.map_map. apply map_ext_in. intros [k v] Hkv. simpl.
    symmetry. now apply Ha in Hkv. }
  refine (conj _ (conj _ (conj _ Hd))).
  - intros m Hm. apply in_map_iff in Hm. destruct Hm as ([k v] & <- & Hkv).
    now apply Ha in Hkv.
  - now rewrite Hk.
  - intros m Hm. destruct (Hc m Hm) as (v & Hv & Hle). exists v.
    split; [|split; [now apply Ha in Hv | exact Hle]].
    apply in_map_iff. now exists (Inbox.Message.thread_key m, v).
Qed.

Lemma loadMessages_ok (p : Inbox.Props) (w : Inbox.World) (c : jsstring) :
  Inbox.userCompanyId (Inbox.ui w) = Some c -> JS.truthy c = true ->
  Inbox.messages (Inbox.ui (fst (Inbox.loadMessages false p w)))
  = Inbox.latestMessages
      (Inbox.validMessages (Inbox.query_messages c (Inbox.store w)))
  /\ Inbox.store (fst (Inbox.loadMessages false p w)) = Inbox.store w
  /\ Inbox.error (Inbox.ui (fst (Inbox.loadMessages false p w)))
     = Inbox.error (Inbox.ui w).
Proof.
  intros Hc Ht. unfold Inbox.loadMessages. rewrite Hc, Ht. simpl.
  destruct (Inbox.selectedMessage (Inbox.ui w)) as [sel|]; simpl; [|auto].
  match goal with |- context [List.find ?f ?l] => destruct (List.find f l) end;
    simpl; auto.
Qed.

Lemma NoDup_map_inj {A B : Type} (f : A -> B) (l : list A) (a b : A) :
  NoDup (List.map f l) -> In a l -> In b l -> f a = f b -> a = b.
Proof.
  induction l as [|x l IH]; simpl; [tauto|].
  intros H Ha Hb E. inversion H as [|y l' Hx H']; subst.
  destruct Ha as [<-|Ha], Hb as [<-|Hb]; auto.
  - exfalso. apply Hx, list_elem_of_In. rewrite E. now apply in_map.
  - exfalso. apply Hx, list_elem_of_In. rewrite <- E. now apply in_map.
Qed.

Lemma thread_of_key (m : Inbox.Message.t) (T : jsstring) :
  thread_of m T <-> T = Inbox.Message.thread_key m.
Proof.
  unfold thread_of, Inbox.Message.thread_key, JS.or_else.
  now destruct (Inbox.Message.thread_id m) as [[|c t]|].
Qed.




(* ===================================================================== *)
(** ** loadPendingRequests: what is counted *)
(* ===================================================================== *)

(** The [reduce] on requests none of which is about an id that names an
    inherited property: it does not throw and lists, under every id, the
    requests about it in their order. *)
Lemma grouped_fold (k : jsstring) (l : list ResourceTable.Request.t) :
  Forall (fun r => JS.proto_member (ResourceTable.Request.resource_id r)
                   = false) l ->
  forall acc : gmap jsstring (list ResourceTable.Request.t),
  exists g,
    foldl ResourceTable.group (Some acc) l = Some g
    /\ default [] (g !! k)
       = default [] (acc !! k)
         ++ List.filter
              (fun r => JS.eqb (ResourceTable.Request.resource_id r) k) l.
Proof.
  induction 1 as [|msg l Hmsg _ IH]; intros acc; cbn [foldl List.filter].
  - exists acc. split; [reflexivity | now rewrite app_nil_r].
  - assert (Hstep : exists acc',
              ResourceTable.group (Some acc) msg = Some acc'
              /\ default [] (acc' !! k)
                 = default [] (acc !! k)
                   ++ (if JS.eqb (ResourceTable.Request.resource_id msg) k
                       then [msg] else [])).
    { unfold ResourceTable.group.
      destruct (acc !! ResourceTable.Request.resource_id msg) as [l0|] eqn:E.
      - eexists. split; [reflexivity|].
        destruct (JS.eqb (ResourceTable.Request.resource_id msg) k) eqn:Ek.
        + apply eqb_eq in Ek. subst k. now rewrite lookup_insert_eq, E.
        + apply eqb_neq in Ek. rewrite lookup_insert_ne by exact Ek.
          now rewrite app_nil_r.
      - rewrite Hmsg. eexists. split; [reflexivity|].
        destruct (JS.eqb (ResourceTable.Request.resource_id msg) k) eqn:Ek.
        + apply eqb_eq in Ek. subst k. now rewrite lookup_insert_eq, E.
        + apply eqb_neq in Ek. rewrite lookup_insert_ne by exact Ek.
          now rewrite app_nil_r. }
    destruct Hstep as (acc' & -> & Hacc').
    destruct (IH acc') as (g & Hg & Hk). exists g. split; [exact Hg|].
    rewrite Hk, Hacc', <- app_assoc. f_equal.
    now destruct (JS.eqb (ResourceTable.Request.resource_id msg) k).
Qed.

Lemma filter_length_Permutation {A : Type} (f : A -> bool) (l l' : list A) :
  Permutation l l' -> length (List.filter f l) = length (List.filter f l').
Proof.
  induction 1 as [|x l l' _ IH|x y l|l l' l'' _ IH _ IH']; simpl.
  - reflexivity.
  - destruct (f x); simpl; congruence.
  - destruct (f x), (f y); reflexivity.
  - congruence.
Qed.

Lemma filter_filter_andb {A : Type} (f g : A -> bool) (l : list A) :
  List.filter f (List.filter g l) = List.filter (fun x => g x && f x) l.
Proof.
  induction l as [|x l IH]; simpl; [reflexivity|].
  destruct (g x); simpl; [destruct (f x)|]; congruence.
Qed.

Lemma filter_map_comm {A B : Type} (f : B -> bool) (g : A -> B) (l : list A) :
  List.filter f (List.map g l) = List.map g (List.filter (fun x => f (g x)) l).
Proof.
  induction l as [|x l IH]; simpl; [reflexivity|].
  destruct (f (g x)); simpl; congruence.
Qed.

Lemma filter_none {A : Type} (f : A -> bool) (l : list A) :
  (forall x, In x l -> f x = false) -> List.filter f l = [].
Proof.
  induction l as [|x l IH]; simpl; intros H; [reflexivity|].
  rewrite (H x (or_introl eq_refl)). apply IH. intros y Hy. apply H. now right.
Qed.

Lemma pending_iff (c : jsstring) (m : MessageRow.t) :
  ResourceTable.pending c m = true
  <-> MessageRow.to_company_id m = c /\ MessageRow.thread_id m = None
      /\ MessageRow.read_at m = None.
Proof.
  unfold ResourceTable.pending. rewrite !andb_true_iff, eqb_eq.
  destruct (MessageRow.thread_id m), (MessageRow.read_at m);
    intuition congruence.
Qed.

Lemma pending_request_iff (c rid : jsstring) (m : MessageRow.t) :
  pending_request c rid m = true
  <-> MessageRow.to_company_id m = c /\ MessageRow.thread_id m = None
      /\ MessageRow.read_at m = None /\ MessageRow.resource_id m = rid.
Proof.
  unfold pending_request. rewrite andb_true_iff, pending_iff, eqb_eq. tauto.
Qed.

(** What [loadPendingRequests] stores when no pending request is about an
    id that names an inherited property. *)
Lemma loadPendingRequests_stored (w : ResourceTable.World) (c : jsstring) :
  ResourceTable.userCompanyId (ResourceTable.ui w) = Some c ->
  JS.truthy c = true ->
  (forall m, In m (Store.messages (ResourceTable.store w)) ->
             ResourceTable.pending c m = true ->
             JS.proto_member (MessageRow.resource_id m) = false) ->
  ResourceTable.userCompanyId
    (ResourceTable.ui (ResourceTable.loadPendingRequests false w)) = Some c
  /\ forall k,
       default []
         (ResourceTable.pendingRequests
            (ResourceTable.ui (ResourceTable.loadPendingRequests false w))
          !! k)
       = List.map (ResourceTable.with_company_info (ResourceTable.store w))
           (List.filter (fun m => JS.eqb (MessageRow.resource_id m) k)
              (Db.order false
                 (List.filter (ResourceTable.pending c)
                    (Store.messages (ResourceTable.store w))))).
Proof.
  intros Hc Ht Hok. unfold ResourceTable.loadPendingRequests. rewrite Hc, Ht.
  simpl. unfold ResourceTable.grouped.
  set (reqs := List.map (ResourceTable.with_company_info (ResourceTable.store w))
                 (Db.order false
                    (List.filter (ResourceTable.pending c)
                       (Store.messages (ResourceTable.store w))))).
  assert (Hall : Forall (fun r => JS.proto_member
                                    (ResourceTable.Request.resource_id r)
                                  = false) reqs).
  { apply List.Forall_forall. intros r Hr. subst reqs.
    apply in_map_iff in Hr. destruct Hr as (m & <- & Hm).
    apply In_order, filter_In in Hm. simpl. now apply Hok. }
  assert (G : forall k, exists g,
             foldl ResourceTable.group (Some ∅) reqs = Some g
             /\ default [] (g !! k)
                = List.filter
                    (fun r => JS.eqb (ResourceTable.Request.resource_id r) k)
                    reqs).
  { intros k. destruct (grouped_fold k reqs Hall ∅) as (g & Hg & Hk).
    exists g. split; [exact Hg|]. now rewrite Hk, lookup_empty. }
  destruct (G []) as (g & Hg & _). rewrite Hg. simpl. split; [exact Hc|].
  intros k. destruct (G k) as (g' & Hg' & Hk).
  assert (g' = g) by congruence. subst g'. rewrite Hk. subst reqs.
  now rewrite filter_map_comm.
Qed.

Lemma pending_count_after_load (w : ResourceTable.World) (c rid : jsstring) :
  ResourceTable.userCompanyId (ResourceTable.ui w) = Some c ->
  JS.truthy c = true ->
  (forall m, In m (Store.messages (ResourceTable.store w)) ->
             ResourceTable.pending c m = true ->
             JS.proto_member (MessageRow.resource_id m) = false) ->
  JS.proto_member rid = false ->
  ResourceTable.pending_count
    (ResourceTable.ui (ResourceTable.loadPendingRequests false w)) rid
  = length (List.filter (pending_request c rid)
              (Store.messages (ResourceTable.store w))).
Proof.
  intros Hc Ht Hok Hrid.
  destruct (loadPendingRequests_stored w c Hc Ht Hok) as [_ Hst].
  rewrite (pending_count_own _ _ Hrid), Hst, length_map.
  rewrite <- (filter_length_Permutation _ _ _
                (order_Permutation false
                   (List.filter (ResourceTable.pending c)
                      (Store.messages (ResourceTable.store w))))).
  now rewrite filter_filter_andb.
Qed.

(** C10. The number read for a resource is not always the number of unread
    thread-starting messages about it.  With no message about it in the
    store, a resource with id "constructor" is given the count 1 and shown as
    "1 ny forespørsel".  And one unread thread-starting message to the
    company about an id "toString" makes the grouping throw, so the table
    keeps no request at all and the request about "r-1" is not counted. *)
Theorem pending_count_inherited_names :
  let u' := ResourceTable.ui
              (ResourceTable.loadPendingRequests false
                 (ResourceTable.mkWorld Sample.db Sample.table0)) in
  let u'' := ResourceTable.ui
               (ResourceTable.loadPendingRequests false
                  (ResourceTable.mkWorld Sample.db_stray Sample.table0)) in
  List.filter (fun m => JS.eqb (MessageRow.resource_id m)
                                (JS.lit "constructor"))
              (Store.messages Sample.db) = []
  /\ ResourceTable.pending_count u' (JS.lit "constructor") = 1
  /\ ResourceTable.getStatusInfo u' 1500
       (Sample.offer_named (JS.lit "constructor") false)
     = display (PendingRequests 1)
  /\ List.filter (pending_request (JS.lit "c-alfa") (JS.lit "r-1"))
       (Store.messages Sample.db_stray) = [Sample.request]
  /\ ResourceTable.pendingRequests u'' = ∅
  /\ ResourceTable.pending_count u'' (JS.lit "r-1") = 0.
Proof. repeat split. Qed.

(** X22. After a [loadPendingRequests] that got its data for company [c],
    when no unread thread-starting message to [c] is about an id that names
    an inherited property, the number that [getStatusInfo] reads for a
    resource whose id names none either is the number of messages addressed
    to [c] about that resource whose [thread_id] and [read_at] are both null.
    Replies and read requests are not counted: when every message to [c]
    about the resource has a [thread_id] or a [read_at], the number is 0 and
    a resource that is not taken is shown as Expired when its period's end is
    a date earlier than now and as Active otherwise. *)
Theorem pending_count_counts (w : ResourceTable.World) (c rid : jsstring) :
  ResourceTable.userCompanyId (ResourceTable.ui w) = Some c ->
  JS.truthy c = true ->
  (forall m, In m (Store.messages (ResourceTable.store w)) ->
             MessageRow.to_company_id m = c ->
             MessageRow.thread_id m = None -> MessageRow.read_at m = None ->
             JS.proto_member (MessageRow.resource_id m) = false) ->
  JS.proto_member rid = false ->
  let u' := ResourceTable.ui (ResourceTable.loadPendingRequests false w) in
  let msgs := Store.messages (ResourceTable.store w) in
  ResourceTable.pending_count u' rid
  = length (List.filter (pending_request c rid) msgs)
  /\ (forall m, pending_request c rid m = true <->
        MessageRow.to_company_id m = c /\ MessageRow.thread_id m = None
        /\ MessageRow.read_at m = None /\ MessageRow.resource_id m = rid)
  /\ ((forall m, In m msgs -> MessageRow.to_company_id m = c ->
         MessageRow.resource_id m = rid ->
         MessageRow.thread_id m <> None \/ MessageRow.read_at m <> None) ->
      ResourceTable.pending_count u' rid = 0
      /\ forall now r,
           ResourceTable.Resource.id r = rid ->
           ResourceTable.Resource.is_taken r = false ->
           ((exists t, ResourceTable.Resource.period_to r = Some t
                       /\ (t < now)%Z) ->
            ResourceTable.getStatusInfo u' now r = display Expired)
           /\ (~ (exists t, ResourceTable.Resource.period_to r = Some t
                            /\ (t < now)%Z) ->
               ResourceTable.getStatusInfo u' now r = display Active)).
Proof.
  intros Hc Ht Hok Hrid u' msgs.
  assert (Hok' : forall m, In m (Store.messages (ResourceTable.store w)) ->
                           ResourceTable.pending c m = true ->
                           JS.proto_member (MessageRow.resource_id m) = false).
  { intros m Hm Hp. apply pending_iff in Hp. destruct Hp as (H1 & H2 & H3).
    now apply Hok. }
  assert (Hcount := pending_count_after_load w c rid Hc Ht Hok' Hrid).
  fold u' in Hcount. fold msgs in Hcount.
  split; [exact Hcount|]. split; [apply pending_request_iff|].
  intros Hnone.
  assert (H0 : ResourceTable.pending_count u' rid = 0).
  { rewrite Hcount, filter_none; [reflexivity|].
    intros m Hm.
    destruct (pending_request c rid m) eqn:E; [|reflexivity].
    apply pending_request_iff in E. destruct E as (E1 & E2 & E3 & E4).
    destruct (Hnone m Hm E1 E4); congruence. }
  split; [exact H0|].
  intros now r Hr Htaken. rewrite getStatusInfo_display, Hr, H0, Htaken.
  unfold statusOf. simpl. split; intros Hp.
  - apply period_over_iff in Hp. now rewrite Hp.
  - destruct (period_over now r) eqn:E; [|reflexivity].
    apply period_over_iff in E. contradiction.
Qed.

Lemma pending_count_counts_witness :
  let beta_table :=
    ResourceTable.mkState ∅ (Some (JS.lit "c-beta")) false ∅ None false in
  let w := ResourceTable.mkWorld Sample.db beta_table in
  ResourceTable.pending_count
    (ResourceTable.ui (ResourceTable.loadPendingRequests false w))
    (JS.lit "r-1") = 0
  /\ ResourceTable.pending_count
       (ResourceTable.ui
          (ResourceTable.loadPendingRequests false
             (ResourceTable.mkWorld Sample.db Sample.table0)))
       (JS.lit "r-1") = 1.
Proof.
  intros beta_table w. split.
  - destruct (pending_count_counts w (JS.lit "c-beta") (JS.lit "r-1")
                eq_refl eq_refl) as (_ & _ & H).
    + intros m [<-|[<-|[]]] _ _ _; reflexivity.
    + reflexivity.
    + apply H. intros m [<-|[<-|[]]] Hto _.
      * vm_compute in Hto. discriminate Hto.
      * left. discriminate.
  - reflexivity.
Defined.

(* ===================================================================== *)
(** ** handleReply: the message that is sent *)
(* ===================================================================== *)

(** C8. When [handleReply] succeeds, exactly one row is appended to
    [messages]: it is sent by the user's company to the other participant of
    the selected message (its recipient when the user sent it, its sender
    otherwise), it is about the selected message's resource, and its
    [thread_id] is the thread's identifier: the [thread_id] of the selected
    message when it has one, and the id of the selected message when that
    message starts the thread.  So the new message belongs to that thread and
    the thread still has one resource. *)
Theorem handleReply_appends (d : Defaults) (error : bool) (p : Inbox.Props)
    (w w' : Inbox.World) (tasks : list Inbox.Task) :
  Inbox.handleReply d error p w = (Inbox.Completed, w', tasks) ->
  exists sel c m T,
    Inbox.selectedMessage (Inbox.ui w) = Some sel
    /\ Inbox.userCompanyId (Inbox.ui w) = Some c
    /\ Store.messages (Inbox.store w')
       = Store.messages (Inbox.store w) ++ [m]
    /\ Store.companies (Inbox.store w') = Store.companies (Inbox.store w)
    /\ Store.resources (Inbox.store w') = Store.resources (Inbox.store w)
    /\ Store.thread_contact_sharing (Inbox.store w')
       = Store.thread_contact_sharing (Inbox.store w)
    /\ MessageRow.from_company_id m = c
    /\ MessageRow.to_company_id m
       = (if JS.eqb (Inbox.Party.id (Inbox.Message.from_company sel)) c
          then Inbox.Party.id (Inbox.Message.to_company sel)
          else Inbox.Party.id (Inbox.Message.from_company sel))
    /\ (forall o, o <> c ->
          (Inbox.Party.id (Inbox.Message.from_company sel) = c
           /\ Inbox.Party.id (Inbox.Message.to_company sel) = o)
          \/ (Inbox.Party.id (Inbox.Message.from_company sel) = o
              /\ Inbox.Party.id (Inbox.Message.to_company sel) = c) ->
          MessageRow.to_company_id m = o)
    /\ MessageRow.resource_id m = Inbox.Res.id (Inbox.Message.resource sel)
    /\ MessageRow.thread_id m = Some T
    /\ (forall t, Inbox.Message.thread_id sel = Some t -> t <> [] -> T = t)
    /\ (Inbox.Message.thread_id sel = None
        \/ Inbox.Message.thread_id sel = Some [] ->
        T = Inbox.Message.id sel)
    /\ MessageRow.content m = Inbox.reply (Inbox.ui w)
    /\ MessageRow.subject m = JS.lit "Re: " ++ Inbox.Message.subject sel
    /\ MessageRow.read_at m = None
    /\ of_thread T m
    /\ (thread_shares_resource T (Inbox.Res.id (Inbox.Message.resource sel))
          (Store.messages (Inbox.store w)) ->
        thread_shares_resource T (Inbox.Res.id (Inbox.Message.resource sel))
          (Store.messages (Inbox.store w'))).
Proof.
  unfold Inbox.handleReply.
  destruct (Inbox.selectedMessage (Inbox.ui w)) as [sel|] eqn:Es;
    [|discriminate].
  destruct (Inbox.userCompanyId (Inbox.ui w)) as [c|] eqn:Ec; [|discriminate].
  destruct (negb (JS.truthy (JS.trim (Inbox.reply (Inbox.ui w))))
            || negb (JS.truthy c)); [discriminate|].
  destruct error; [discriminate|].
  intros [= <- _]. simpl.
  eexists sel, c, _, (Inbox.Message.thread_key sel).
  do 3 (split; [reflexivity|]). do 3 (split; [reflexivity|]). simpl.
  split; [reflexivity|].
  split; [unfold Inbox.toCompanyId, Inbox.is_user; now rewrite Ec|].
  split.
  { intros o Ho [[Hf Ht]|[Hf Ht]];
      unfold Inbox.toCompanyId, Inbox.is_user; rewrite Ec, Hf.
    - now rewrite eqb_refl.
    - apply eqb_neq in Ho. now rewrite Ho. }
  do 2 (split; [reflexivity|]).
  split.
  { intros t Ht Hne. unfold Inbox.Message.thread_key. rewrite Ht.
    destruct t; [contradiction | reflexivity]. }
  split.
  { unfold Inbox.Message.thread_key. now intros [-> | ->]. }
  do 3 (split; [reflexivity|]).
  split; [right; reflexivity|].
  intros H x Hx Hth. apply in_app_or in Hx. destruct Hx as [Hx|[<-|[]]].
  - now apply H.
  - reflexivity.
Qed.

Lemma handleReply_appends_witness :
  let w := Inbox.mkWorld Sample.db
             (Sample.opened_reply (JS.lit "Ja, fra mandag.")) in
  exists w' tasks m,
    (Inbox.Message.id <$> Inbox.selectedMessage (Inbox.ui w))
    = Some (JS.lit "m-2")
    /\ Inbox.handleReply Sample.defaults false Sample.props w
       = (Inbox.Completed, w', tasks)
    /\ Store.messages (Inbox.store w') = Store.messages Sample.db ++ [m]
    /\ MessageRow.to_company_id m = JS.lit "c-beta"
    /\ MessageRow.resource_id m = JS.lit "r-1"
    /\ MessageRow.thread_id m = Some (JS.lit "m-1").
Proof.
  intros w.
  destruct (Inbox.handleReply Sample.defaults false Sample.props w)
    as [[e w'] tasks] eqn:E.
  assert (He : e = Inbox.Completed)
    by exact (f_equal (fun r => fst (fst r)) (eq_sym E)).
  subst e.
  destruct (handleReply_appends _ _ _ _ _ _ E)
    as (sel & c & m & T & Hs & Hc & Hm & _ & _ & _ & _ & Hto & _ & Hr & Ht
        & HT & _).
  exists w', tasks, m. split; [reflexivity|]. split; [reflexivity|].
  split; [exact Hm|].
  injection Hs as <-. injection Hc as <-.
  split; [exact Hto|]. split; [exact Hr|].
  rewrite Ht. f_equal. apply HT; [reflexivity | discriminate].
Defined.

(* ===================================================================== *)
(** ** handleShareContact: two writes in sequence *)
(* ===================================================================== *)

Lemma handleShareContact_completes (d : Defaults) (messageId : jsstring)
    (w : Inbox.World) (sel : Inbox.Message.t) (c : jsstring) :
  Inbox.selectedMessage (Inbox.ui w) = Some sel ->
  Inbox.userCompanyId (Inbox.ui w) = Some c ->
  JS.truthy c = true ->
  Inbox.handleShareContact d false false messageId w
  = (Inbox.Completed,
     Inbox.mkWorld
       (Db.insert_message d c (Inbox.toCompanyId (Inbox.ui w) sel)
          (Inbox.Res.id (Inbox.Message.resource sel))
          Inbox.subject_shared Inbox.content_shared (Some messageId)
          (Db.insert_sharing messageId c (Inbox.toCompanyId (Inbox.ui w) sel)
             (Inbox.store w)))
       (Inbox.ui w),
     [Inbox.LoadContactSharing; Inbox.LoadMessages; Inbox.LoadThread messageId]).
Proof.
  intros Hs Hc Ht. unfold Inbox.handleShareContact. now rewrite Hs, Hc, Ht.
Qed.

Lemma toCompanyId_other (u : Inbox.State) (sel : Inbox.Message.t)
    (c : jsstring) :
  Inbox.userCompanyId u = Some c ->
  Inbox.toCompanyId u sel
  = (if JS.eqb (Inbox.Party.id (Inbox.Message.from_company sel)) c
     then Inbox.Party.id (Inbox.Message.to_company sel)
     else Inbox.Party.id (Inbox.Message.from_company sel))
  /\ (forall o, o <> c ->
        (Inbox.Party.id (Inbox.Message.from_company sel) = c
         /\ Inbox.Party.id (Inbox.Message.to_company sel) = o)
        \/ (Inbox.Party.id (Inbox.Message.from_company sel) = o
            /\ Inbox.Party.id (Inbox.Message.to_company sel) = c) ->
        Inbox.toCompanyId u sel = o).
Proof.
  intros Hc. unfold Inbox.toCompanyId, Inbox.is_user. rewrite Hc.
  split; [reflexivity|].
  intros o Ho [[Hf Ht]|[Hf Ht]]; rewrite Hf.
  - now rewrite eqb_refl.
  - apply eqb_neq in Ho. now rewrite Ho.
Qed.

(** The two writes are not atomic and not guarded.  When the store accepts
    the disclosure row and the insert of the announcing message fails, the
    row stays and no message announces it.  And when the handler runs twice
    on the same thread and the store accepts every insert, the thread has two
    disclosure rows and two announcing messages. *)
Lemma disclosure_unannounced_or_doubled :
  let w := Inbox.mkWorld Sample.db (Sample.opened []) in
  let r := Inbox.handleShareContact Sample.defaults false true (JS.lit "m-1") w in
  let r1 := Inbox.handleShareContact Sample.defaults false false
              (JS.lit "m-1") w in
  let r2 := Inbox.handleShareContact Sample.defaults' false false
              (JS.lit "m-1") (snd (fst r1)) in
  (fst (fst r) = Inbox.Caught
   /\ Store.thread_contact_sharing (Inbox.store (snd (fst r)))
      = [SharingRow.mk (JS.lit "m-1") (JS.lit "c-alfa") (JS.lit "c-beta")]
   /\ Store.thread_contact_sharing Sample.db = []
   /\ Store.messages (Inbox.store (snd (fst r))) = Store.messages Sample.db)
  /\ (fst (fst r1) = Inbox.Completed
      /\ fst (fst r2) = Inbox.Completed
      /\ Store.thread_contact_sharing (Inbox.store (snd (fst r2)))
         = [SharingRow.mk (JS.lit "m-1") (JS.lit "c-alfa") (JS.lit "c-beta");
            SharingRow.mk (JS.lit "m-1") (JS.lit "c-alfa") (JS.lit "c-beta")]
      /\ List.map MessageRow.id
           (List.filter
              (fun m => JS.eqb (MessageRow.subject m)
                               (JS.lit "Kontaktinformasjon delt"))
              (Store.messages (Inbox.store (snd (fst r2)))))
         = [JS.lit "m-3"; JS.lit "m-4"]).
Proof. repeat split. Qed.

(** C1 (amended). [handleShareContact] issues two store calls in sequence,
    first the disclosure row, then the announcing message, and has no guard
    against a second disclosure of its own.  Every call in which both inserts
    succeed appends exactly one disclosure row for the thread, from the
    user's company to the other participant of the selected message, and
    exactly one message with the fixed subject and content, in that thread,
    addressed to the same other participant; so two such calls on one thread
    leave two rows and two announcing messages.  When the first insert is
    refused nothing is written.  When only the second insert fails the
    disclosure row stays without its message.  A message is never written
    without its disclosure row. *)
Theorem handleShareContact_writes (d : Defaults)
    (sharingError messageError : bool) (messageId : jsstring)
    (w : Inbox.World) :
  let r := Inbox.handleShareContact d sharingError messageError messageId w in
  let s := Inbox.store w in
  let s' := Inbox.store (snd (fst r)) in
  Store.companies s' = Store.companies s
  /\ Store.resources s' = Store.resources s
  /\ match fst (fst r) with
     | Inbox.Completed =>
         sharingError = false /\ messageError = false
         /\ exists sel c row m,
              Inbox.selectedMessage (Inbox.ui w) = Some sel
              /\ Inbox.userCompanyId (Inbox.ui w) = Some c
              /\ Store.thread_contact_sharing s'
                 = Store.thread_contact_sharing s ++ [row]
              /\ Store.messages s' = Store.messages s ++ [m]
              /\ SharingRow.thread_id row = messageId
              /\ SharingRow.from_company_id row = c
              /\ SharingRow.to_company_id row = MessageRow.to_company_id m
              /\ MessageRow.from_company_id m = c
              /\ MessageRow.to_company_id m
                 = (if JS.eqb (Inbox.Party.id (Inbox.Message.from_company sel)) c
                    then Inbox.Party.id (Inbox.Message.to_company sel)
                    else Inbox.Party.id (Inbox.Message.from_company sel))
              /\ (forall o, o <> c ->
                    (Inbox.Party.id (Inbox.Message.from_company sel) = c
                     /\ Inbox.Party.id (Inbox.Message.to_company sel) = o)
                    \/ (Inbox.Party.id (Inbox.Message.from_company sel) = o
                        /\ Inbox.Party.id (Inbox.Message.to_company sel) = c) ->
                    MessageRow.to_company_id m = o)
              /\ MessageRow.resource_id m
                 = Inbox.Res.id (Inbox.Message.resource sel)
              /\ MessageRow.subject m = JS.lit "Kontaktinformasjon delt"
              /\ MessageRow.content m
                 = JS.lit "Kontaktinformasjon er n" ++ [229%N]
                   ++ JS.lit " delt mellom partene."
              /\ MessageRow.thread_id m = Some messageId
              /\ MessageRow.read_at m = None
              /\ Inbox.ui (snd (fst r)) = Inbox.ui w
     | Inbox.Rejected => snd (fst r) = w
     | Inbox.Caught =>
         Store.messages s' = Store.messages s
         /\ ((sharingError = true
              /\ Store.thread_contact_sharing s'
                 = Store.thread_contact_sharing s)
             \/ (sharingError = false /\ messageError = true
                 /\ exists sel c row,
                      Inbox.selectedMessage (Inbox.ui w) = Some sel
                      /\ Inbox.userCompanyId (Inbox.ui w) = Some c
                      /\ Store.thread_contact_sharing s'
                         = Store.thread_contact_sharing s ++ [row]
                      /\ SharingRow.thread_id row = messageId
                      /\ SharingRow.from_company_id row = c
                      /\ SharingRow.to_company_id row
                         = (if JS.eqb (Inbox.Party.id
                                         (Inbox.Message.from_company sel)) c
                            then Inbox.Party.id (Inbox.Message.to_company sel)
                            else Inbox.Party.id
                                   (Inbox.Message.from_company sel))))
     end
  /\ (fst (fst r) = Inbox.Completed
      <-> Inbox.selectedMessage (Inbox.ui w) <> None
          /\ JS.truthy_opt (Inbox.userCompanyId (Inbox.ui w)) = true
          /\ sharingError = false /\ messageError = false)
  /\ Inbox.store
       (snd (fst (Inbox.handleShareContact d true messageError messageId w)))
     = s
  /\ (fst (fst r) = Inbox.Completed ->
      forall d',
        let r2 := Inbox.handleShareContact d' false false messageId
                    (snd (fst r)) in
        fst (fst r2) = Inbox.Completed
        /\ exists row m1 m2,
             Store.thread_contact_sharing (Inbox.store (snd (fst r2)))
             = Store.thread_contact_sharing s ++ [row; row]
             /\ Store.messages (Inbox.store (snd (fst r2)))
                = Store.messages s ++ [m1; m2]
             /\ SharingRow.thread_id row = messageId
             /\ MessageRow.subject m1 = JS.lit "Kontaktinformasjon delt"
             /\ MessageRow.subject m2 = JS.lit "Kontaktinformasjon delt"
             /\ MessageRow.thread_id m1 = Some messageId
             /\ MessageRow.thread_id m2 = Some messageId).
Proof.
  intros r s s'.
  destruct (Inbox.selectedMessage (Inbox.ui w)) as [sel|] eqn:Es;
    [|subst r s s'; unfold Inbox.handleShareContact; rewrite Es; simpl;
      intuition congruence].
  destruct (Inbox.userCompanyId (Inbox.ui w)) as [c|] eqn:Ec;
    [|subst r s s'; unfold Inbox.handleShareContact; rewrite Es, Ec; simpl;
      intuition congruence].
  destruct (JS.truthy c) eqn:Et;
    [|subst r s s'; unfold Inbox.handleShareContact; rewrite Es, Ec, Et; simpl;
      intuition congruence].
  destruct (toCompanyId_other (Inbox.ui w) sel c Ec) as [Hto Hother].
  assert (Hlast : Inbox.store
       (snd (fst (Inbox.handleShareContact d true messageError messageId w)))
     = s).
  { unfold Inbox.handleShareContact. now rewrite Es, Ec, Et. }
  destruct sharingError, messageError.
  - subst r s s'. unfold Inbox.handleShareContact. rewrite Es, Ec, Et. simpl.
    do 2 (split; [reflexivity|]).
    split; [split; [reflexivity|]; left; now split|].
    split; [intuition congruence|]. split; [reflexivity | discriminate].
  - subst r s s'. unfold Inbox.handleShareContact. rewrite Es, Ec, Et. simpl.
    do 2 (split; [reflexivity|]).
    split; [split; [reflexivity|]; left; now split|].
    split; [intuition congruence|]. split; [reflexivity | discriminate].
  - subst r s s'. unfold Inbox.handleShareContact. rewrite Es, Ec, Et. simpl.
    do 2 (split; [reflexivity|]).
    split.
    { split; [reflexivity|]. right. do 2 (split; [reflexivity|]).
      eexists sel, c, _. do 3 (split; [reflexivity|]).
      split; [reflexivity|]. split; [reflexivity | exact Hto]. }
    split; [intuition congruence|]. split; [reflexivity | discriminate].
  - subst r s s'.
    rewrite (handleShareContact_completes d messageId w sel c Es Ec Et).
    cbn [fst snd Inbox.store Inbox.ui].
    do 2 (split; [reflexivity|]).
    split.
    { do 2 (split; [reflexivity|]).
      eexists sel, c, _, _. do 4 (split; [reflexivity|]).
      do 4 (split; [reflexivity|]).
      split; [exact Hto|]. split; [exact Hother|]. repeat split. }
    split.
    { split; [intros _|reflexivity]. split; [discriminate|]. simpl.
      now rewrite Et. }
    split; [exact Hlast|].
    intros _ d'.
    match goal with
    | |- context [Inbox.handleShareContact d' false false messageId ?w2] =>
        rewrite (handleShareContact_completes d' messageId w2 sel c Es Ec Et)
    end.
    cbn [fst snd Inbox.store Inbox.ui].
    split; [reflexivity|].
    eexists _, _, _. split.
    { unfold Db.insert_message, Db.insert_sharing. simpl.
      rewrite <- app_assoc. reflexivity. }
    split.
    { unfold Db.insert_message, Db.insert_sharing. simpl.
      rewrite <- app_assoc. reflexivity. }
    repeat split.
Qed.

(* ===================================================================== *)
(** ** is_taken: set, never cleared *)
(* ===================================================================== *)

Lemma never_untaken_refl (s s' : Store.t) :
  Store.resources s' = Store.resources s -> never_untaken s s'.
Proof.
  unfold never_untaken. intros ->.
  induction (Store.resources s); constructor; [split|]; auto.
Qed.

Lemma never_untaken_trans (s1 s2 s3 : Store.t) :
  never_untaken s1 s2 -> never_untaken s2 s3 -> never_untaken s1 s3.
Proof.
  unfold never_untaken. generalize (Store.resources s1), (Store.resources s2),
    (Store.resources s3). clear.
  intros l1 l2 l3 H. revert l3.
  induction H as [|a b l1 l2 [Hid Ht] _ IH]; intros l3 H3; inversion H3; subst.
  - constructor.
  - constructor; [|now apply IH].
    match goal with Hs : stays_taken b _ |- _ => destruct Hs as [Hid' Ht'] end.
    split; [congruence | auto].
Qed.

Lemma update_is_taken_resources (k : jsstring) (s : Store.t) :
  never_untaken s (Db.update_is_taken k s).
Proof.
  unfold never_untaken, Db.update_is_taken. simpl.
  induction (Store.resources s) as [|r l IH]; simpl; constructor; [|exact IH].
  destruct (JS.eqb (ResourceRow.id r) k); split; auto.
Qed.

Lemma mark_read_resources (clock : nat -> Z) (accepted : nat -> bool)
    (unread : list Inbox.Message.t) :
  forall (i : nat) (s : Store.t),
  Store.resources (Inbox.mark_read clock accepted i unread s)
  = Store.resources s
  /\ Store.companies (Inbox.mark_read clock accepted i unread s)
     = Store.companies s
  /\ Store.thread_contact_sharing (Inbox.mark_read clock accepted i unread s)
     = Store.thread_contact_sharing s.
Proof.
  induction unread as [|m l IH]; intros i s; simpl; [auto|].
  destruct (IH (S i) (if accepted i
                      then Db.update_read_at (Inbox.Message.id m) (clock i) s
                      else s))
    as (-> & -> & ->). now destruct (accepted i).
Qed.

Lemma handleAcceptResource_resources (onMessageSent : bool)
    (resourceId : jsstring) (w : ResourceTable.World) :
  never_untaken (ResourceTable.store w)
    (ResourceTable.store
       (fst (ResourceTable.handleAcceptResource onMessageSent resourceId w))).
Proof.
  unfold ResourceTable.handleAcceptResource.
  destruct (ResourceTable.userCompanyId (ResourceTable.ui w)) as [c|];
    [|now apply never_untaken_refl].
  destruct (negb (JS.truthy c)); [now apply never_untaken_refl|]. simpl.
  unfold ResourceTable.accept_resource.
  destruct (Db.resource (ResourceTable.store w) resourceId) as [r|];
    [|now apply never_untaken_refl].
  destruct (ResourceRow.is_taken r); simpl;
    [now apply never_untaken_refl | apply update_is_taken_resources].
Qed.

Lemma step_never_untaken (s s' : Store.t) : step s s' -> never_untaken s s'.
Proof.
  destruct 1.
  - apply never_untaken_refl. unfold Inbox.loadContactSharing.
    destruct (Inbox.userCompanyId (Inbox.ui w)) as [c|]; [|reflexivity].
    destruct (negb (JS.truthy c)), sharingError; reflexivity.
  - apply never_untaken_refl. unfold Inbox.loadMessages.
    destruct (Inbox.userCompanyId (Inbox.ui w)) as [c|]; [|reflexivity].
    destruct (negb (JS.truthy c)), error; reflexivity.
  - apply never_untaken_refl. unfold Inbox.loadThread.
    destruct error; [reflexivity|]. simpl. apply mark_read_resources.
  - apply never_untaken_refl. unfold Inbox.handleReply.
    destruct (Inbox.selectedMessage (Inbox.ui w)) as [sel|]; [|reflexivity].
    destruct (Inbox.userCompanyId (Inbox.ui w)) as [c|]; [|reflexivity].
    destruct (negb (JS.truthy (JS.trim (Inbox.reply (Inbox.ui w))))
              || negb (JS.truthy c)), error; reflexivity.
  - apply never_untaken_refl. unfold Inbox.handleShareContact.
    destruct (Inbox.selectedMessage (Inbox.ui w)) as [sel|]; [|reflexivity].
    destruct (Inbox.userCompanyId (Inbox.ui w)) as [c|]; [|reflexivity].
    destruct (negb (JS.truthy c)), sharingError, messageError; reflexivity.
  - unfold Inbox.handleMarkAsTaken. destruct error; simpl.
    + now apply never_untaken_refl.
    + apply update_is_taken_resources.
  - apply never_untaken_refl. unfold ResourceTable.loadPendingRequests.
    destruct (ResourceTable.userCompanyId (ResourceTable.ui w)) as [c|];
      [|reflexivity].
    destruct (negb (JS.truthy c)), failed; try reflexivity.
    now destruct (ResourceTable.grouped _).
  - apply never_untaken_refl. unfold ResourceTable.loadContactInfo.
    destruct (ResourceTable.userCompanyId (ResourceTable.ui w)) as [c|];
      [|reflexivity].
    destruct (negb (JS.truthy c)); reflexivity.
  - apply handleAcceptResource_resources.
Qed.

(** Neither handler refuses a resource that is already taken.
    [handleMarkAsTaken] on it completes without an error and starts its
    refreshes; [handleAcceptResource] on it calls [onMessageSent] as after
    any other call and leaves the table as it was. *)
Lemma mark_taken_twice_succeeds :
  let w := Inbox.mkWorld Sample.db_taken (Sample.opened []) in
  let r := Inbox.handleMarkAsTaken false (JS.lit "r-1") Sample.props w in
  let t := ResourceTable.mkState ∅ (Some (JS.lit "c-beta")) false ∅ None
             false in
  let a := ResourceTable.handleAcceptResource true (JS.lit "r-1")
             (ResourceTable.mkWorld Sample.db_taken t) in
  (ResourceRow.is_taken <$> Db.resource Sample.db_taken (JS.lit "r-1"))
  = Some true
  /\ fst (fst r) = Inbox.Completed
  /\ Inbox.error (Inbox.ui (snd (fst r))) = None
  /\ snd r = [Inbox.LoadMessages; Inbox.OnMessageUpdate]
  /\ snd a = [ResourceTable.OnMessageSent]
  /\ fst a = ResourceTable.mkWorld Sample.db_taken t.
Proof. repeat split. Qed.

(** C3 (amended). No handler fails on a resource that is already taken.
    [handleMarkAsTaken] has no guard: it sets [is_taken] on the rows with the
    given id whether or not it was set, and completes without an error; the
    control that calls it is rendered only while the opened message's
    resource is not taken.  [handleAcceptResource] does not look at the
    answer of the remote procedure: for a user with a company it calls
    [onMessageSent] whatever the state of the resource, and it changes
    nothing of the table but its loading flag.  No handler clears [is_taken]:
    over any sequence of handler runs every resource keeps its id and a
    resource that is taken stays taken. *)
Theorem is_taken_never_reversed (s s' : Store.t) (u : Inbox.State)
    (p : Inbox.Props) (sel : Inbox.Message.t) (resourceId : jsstring)
    (t : ResourceTable.State) (onMessageSent : bool) :
  rtc step s s' ->
  never_untaken s s'
  /\ (let r := Inbox.handleMarkAsTaken false resourceId p (Inbox.mkWorld s u) in
      fst (fst r) = Inbox.Completed
      /\ Inbox.ui (snd (fst r)) = u
      /\ Store.resources (Inbox.store (snd (fst r)))
         = List.map (fun r => if JS.eqb (ResourceRow.id r) resourceId
                              then ResourceRow.set_is_taken true r else r)
                    (Store.resources s))
  /\ (let a := ResourceTable.handleAcceptResource onMessageSent resourceId
                 (ResourceTable.mkWorld s t) in
      snd a = (if JS.truthy_opt (ResourceTable.userCompanyId t) && onMessageSent
               then [ResourceTable.OnMessageSent] else [])
      /\ never_untaken s (ResourceTable.store (fst a))
      /\ (ResourceTable.ui (fst a) = t
          \/ ResourceTable.ui (fst a) = ResourceTable.setLoading false t))
  /\ (Inbox.show_mark_taken (Inbox.render_controls u sel) = true ->
      Inbox.Res.is_taken (Inbox.Message.resource sel) = false).
Proof.
  intros H. split; [|split; [repeat split|split]].
  - induction H as [s|s1 s2 s3 H12 _ IH].
    + now apply never_untaken_refl.
    + apply (never_untaken_trans s1 s2 s3);
        [apply step_never_untaken; exact H12 | exact IH].
  - split; [|split].
    + unfold ResourceTable.handleAcceptResource. simpl.
      destruct (ResourceTable.userCompanyId t) as [[|x c]|]; simpl;
        try reflexivity.
    + apply (handleAcceptResource_resources onMessageSent resourceId
               (ResourceTable.mkWorld s t)).
    + unfold ResourceTable.handleAcceptResource. simpl.
      destruct (ResourceTable.userCompanyId t) as [[|x c]|]; simpl; auto.
  - unfold Inbox.render_controls. simpl.
    destruct (Inbox.Res.is_taken (Inbox.Message.resource sel));
      [discriminate | reflexivity].
Qed.

Lemma is_taken_never_reversed_witness :
  let w := Inbox.mkWorld Sample.db (Sample.opened []) in
  let s1 := Inbox.store
              (snd (fst (Inbox.handleMarkAsTaken false (JS.lit "r-1")
                           Sample.props w))) in
  let s2 := ResourceTable.store
              (fst (ResourceTable.handleAcceptResource true (JS.lit "r-1")
                      (ResourceTable.mkWorld s1 Sample.table0))) in
  rtc step Sample.db s2
  /\ never_untaken Sample.db s2
  /\ List.map ResourceRow.is_taken (Store.resources s2) = [true].
Proof.
  intros w s1 s2.
  assert (H : rtc step Sample.db s2).
  { eapply rtc_l;
      [exact (step_handleMarkAsTaken false (JS.lit "r-1") Sample.props w)|].
    eapply rtc_l; [|apply rtc_refl].
    exact (step_handleAcceptResource true (JS.lit "r-1")
             (ResourceTable.mkWorld s1 Sample.table0)). }
  split; [exact H|]. split; [|reflexivity].
  exact (proj1 (is_taken_never_reversed Sample.db s2 (Sample.opened [])
                  Sample.props Sample.inbound (JS.lit "r-1") Sample.table0
                  true H)).
Defined.

(* ===================================================================== *)
(** ** loadThread: what is returned and what is marked read *)
(* ===================================================================== *)

Lemma joined_ext (s s' : Store.t) (row : MessageRow.t) :
  Store.companies s' = Store.companies s ->
  Store.resources s' = Store.resources s ->
  joined s' row = joined s row.
Proof.
  intros Hc Hr. unfold joined, Inbox.select_row, Db.company, Db.resource.
  now rewrite Hc, Hr.
Qed.

Lemma in_thread_iff (k : jsstring) (row : MessageRow.t) :
  Inbox.in_thread k row = true <-> of_thread k row.
Proof.
  unfold Inbox.in_thread, of_thread. rewrite orb_true_iff, eqb_eq.
  destruct (MessageRow.thread_id row) as [t|].
  - rewrite eqb_eq. intuition congruence.
  - intuition congruence.
Qed.

Lemma is_user_iff (u : Inbox.State) (k : jsstring) :
  Inbox.is_user u k = true <-> Inbox.userCompanyId u = Some k.
Proof.
  unfold Inbox.is_user. destruct (Inbox.userCompanyId u) as [c|].
  - rewrite eqb_eq. intuition congruence.
  - intuition congruence.
Qed.

Lemma In_query_thread (s : Store.t) (k : jsstring) (m : Inbox.Message.t) :
  In m (Inbox.validMessages (Inbox.query_thread k s))
  <-> exists row, In row (Store.messages s) /\ of_thread k row
                  /\ joined s row = Some m.
Proof.
  unfold Inbox.query_thread. rewrite In_validMessages.
  split; intros (row & Hrow & Hj); exists row.
  - apply In_order, filter_In in Hrow. rewrite in_thread_iff in Hrow. tauto.
  - split; [|tauto]. apply In_order, filter_In. rewrite in_thread_iff. tauto.
Qed.

(** The rows after the updates of [mark_read]: a row is as before or, when
    its id is among the messages marked, has its [read_at] set to a reading
    of the clock; when every update is carried out, every row whose id is
    among them has. *)
Lemma mark_read_messages (clock : nat -> Z) (accepted : nat -> bool)
    (unread : list Inbox.Message.t) :
  forall (i : nat) (s : Store.t),
  exists f : MessageRow.t -> MessageRow.t,
    Store.messages (Inbox.mark_read clock accepted i unread s)
    = List.map f (Store.messages s)
    /\ forall row,
         (f row = row
          \/ (In (MessageRow.id row) (List.map Inbox.Message.id unread)
              /\ exists j, f row = MessageRow.set_read_at (Some (clock j)) row))
         /\ ((forall j, accepted j = true) ->
             In (MessageRow.id row) (List.map Inbox.Message.id unread) ->
             exists j, f row = MessageRow.set_read_at (Some (clock j)) row).
Proof.
  induction unread as [|m l IH]; intros i s; simpl.
  - exists (fun row => row). split; [now rewrite List.map_id|].
    intros row. split; [now left | tauto].
  - destruct (IH (S i) (if accepted i
                        then Db.update_read_at (Inbox.Message.id m) (clock i) s
                        else s))
      as (f1 & Hf1 & Hrow).
    set (g := fun row => if accepted i
                         then if JS.eqb (MessageRow.id row) (Inbox.Message.id m)
                              then MessageRow.set_read_at (Some (clock i)) row
                              else row
                         else row).
    assert (Hg : forall row, MessageRow.id (g row) = MessageRow.id row).
    { intros row. unfold g. destruct (accepted i); [|reflexivity].
      now destruct (JS.eqb _ _). }
    assert (Hset : forall v row,
               MessageRow.set_read_at v (g row) = MessageRow.set_read_at v row).
    { intros v row. unfold g. destruct (accepted i); [|reflexivity].
      now destruct (JS.eqb _ _). }
    assert (Hgrow : forall row,
               g row = row
               \/ (Inbox.Message.id m = MessageRow.id row
                   /\ g row = MessageRow.set_read_at (Some (clock i)) row)).
    { intros row. unfold g. destruct (accepted i); [|now left].
      destruct (JS.eqb (MessageRow.id row) (Inbox.Message.id m)) eqn:E;
        [|now left].
      apply eqb_eq in E. right. now split. }
    exists (fun row => f1 (g row)). split.
    { rewrite Hf1. destruct (accepted i) eqn:Ea.
      - unfold Db.update_read_at. simpl. rewrite List.map_map.
        apply List.map_ext. intros row. reflexivity.
      - apply List.map_ext. intros row. reflexivity. }
    intros row. split.
    + destruct (Hrow (g row)) as [[H1|(H1 & j & Hj)] _].
      * rewrite H1. destruct (Hgrow row) as [->|[E ->]]; [now left|].
        right. split; [now left | now exists i].
      * right. rewrite Hg in H1. split; [now right|].
        exists j. now rewrite Hj, Hset.
    + intros Hall Hin.
      destruct (List.in_dec (List.list_eq_dec N.eq_dec) (MessageRow.id row)
                  (List.map Inbox.Message.id l)) as [Hl|Hl].
      * destruct (Hrow (g row)) as [_ H2]. rewrite Hg in H2.
        destruct (H2 Hall Hl) as (j & Hj). exists j. now rewrite Hj, Hset.
      * destruct Hin as [E|Hin]; [|contradiction].
        destruct (Hrow (g row)) as [[H1|(H1 & _)] _].
        -- rewrite H1. exists i. unfold g. rewrite (Hall i).
           symmetry in E. apply eqb_eq in E. now rewrite E.
        -- rewrite Hg in H1. contradiction.
Qed.

Lemma unread_ids (s : Store.t) (u : Inbox.State) (k : jsstring)
    (row : MessageRow.t) :
  NoDup (List.map MessageRow.id (Store.messages s)) ->
  In row (Store.messages s) ->
  In (MessageRow.id row)
     (List.map Inbox.Message.id
        (List.filter (Inbox.unread_for u)
           (Inbox.validMessages (Inbox.query_thread k s))))
  <-> to_stamp s u k row.
Proof.
  intros Hnd Hrow. unfold to_stamp. split.
  - intros H. apply in_map_iff in H. destruct H as (m & Hid & Hm).
    apply filter_In in Hm. destruct Hm as [Hm Hu].
    apply In_query_thread in Hm. destruct Hm as (row2 & Hrow2 & Hth & Hj).
    destruct (joined_fields _ _ _ Hj)
      as (Hi & _ & _ & _ & Hr & _ & Hto & _).
    assert (row2 = row).
    { apply (NoDup_map_inj MessageRow.id (Store.messages s)); auto.
      congruence. }
    subst row2. unfold Inbox.unread_for in Hu.
    apply andb_true_iff in Hu. destruct Hu as [Hu1 Hu2].
    rewrite Hr in Hu1. rewrite Hto in Hu2. apply is_user_iff in Hu2.
    split; [exact Hth|]. split; [apply joined_resolves; congruence|].
    split; [now destruct (MessageRow.read_at row) | exact Hu2].
  - intros (Hth & Hres & Hr & Hto).
    apply joined_resolves in Hres.
    destruct (joined s row) as [m|] eqn:Ej; [|contradiction].
    destruct (joined_fields _ _ _ Ej)
      as (Hi & _ & _ & _ & Hr' & _ & Hto' & _).
    apply in_map_iff. exists m. split; [exact Hi|].
    apply filter_In. split.
    + apply In_query_thread. eauto.
    + unfold Inbox.unread_for. rewrite Hr', Hto', Hr. simpl.
      now apply is_user_iff.
Qed.

Lemma Forall2_map_pointwise {A B : Type} (P : A -> B -> Prop) (f : A -> B)
    (l : list A) :
  (forall x, In x l -> P x (f x)) -> Forall2 P l (List.map f l).
Proof.
  induction l as [|x l IH]; intros H; simpl; constructor.
  - apply H. now left.
  - apply IH. intros y Hy. apply H. now right.
Qed.

(** [loadThread] on a store with unique message ids. *)
Lemma loadThread_stamps (clock : nat -> Z) (accepted : nat -> bool)
    (k : jsstring) (w : Inbox.World) :
  NoDup (List.map MessageRow.id (Store.messages (Inbox.store w))) ->
  exists f : MessageRow.t -> MessageRow.t,
    Store.messages (Inbox.store (Inbox.loadThread false clock accepted k w))
    = List.map f (Store.messages (Inbox.store w))
    /\ forall row, In row (Store.messages (Inbox.store w)) ->
         (f row = row
          \/ (to_stamp (Inbox.store w) (Inbox.ui w) k row
              /\ exists j, f row = MessageRow.set_read_at (Some (clock j)) row))
         /\ ((forall j, accepted j = true) ->
             to_stamp (Inbox.store w) (Inbox.ui w) k row ->
             exists j, f row = MessageRow.set_read_at (Some (clock j)) row).
Proof.
  intros Hnd. unfold Inbox.loadThread. simpl.
  destruct (mark_read_messages clock accepted
              (List.filter (Inbox.unread_for (Inbox.ui w))
                 (Inbox.validMessages (Inbox.query_thread k (Inbox.store w))))
              0 (Inbox.store w)) as (f & Hf & Hrow).
  exists f. split; [exact Hf|]. intros row Hin.
  pose proof (unread_ids (Inbox.store w) (Inbox.ui w) k row Hnd Hin) as Hiff.
  destruct (Hrow row) as [H1 H2]. split.
  - destruct H1 as [H1|[H1 Hj]]; [now left|]. right. split; [|exact Hj].
    now apply Hiff.
  - intros Hall Hst. apply (H2 Hall). now apply Hiff.
Qed.

(** Two ways in which a message of the thread stays unread.  A message whose
    sender no longer resolves has the id that is asked for and is not
    returned; it is addressed to the user, unread, and stays unread.  And
    when the store refuses the updates, the thread is returned, no error is
    set, and the request addressed to the user is as unread as before. *)
Lemma loadThread_drops_dangling :
  let w := Inbox.mkWorld Sample.db_orphan Sample.inbox0 in
  let w' := Inbox.loadThread false (fun _ => 400%Z) (fun _ => true)
              (JS.lit "m-9") w in
  let v := Inbox.mkWorld Sample.db Sample.inbox0 in
  let v' := Inbox.loadThread false (fun _ => 400%Z) (fun _ => false)
              (JS.lit "m-1") v in
  (In Sample.orphan (Store.messages (Inbox.store w))
   /\ MessageRow.id Sample.orphan = JS.lit "m-9"
   /\ Inbox.selectedThread (Inbox.ui w') = []
   /\ Inbox.error (Inbox.ui w') = None
   /\ Store.messages (Inbox.store w') = [Sample.orphan])
  /\ (List.map Inbox.Message.id (Inbox.selectedThread (Inbox.ui v'))
      = [JS.lit "m-1"; JS.lit "m-2"]
      /\ Inbox.error (Inbox.ui v') = None
      /\ MessageRow.to_company_id Sample.request = JS.lit "c-alfa"
      /\ List.map MessageRow.read_at (Store.messages (Inbox.store v'))
         = [None; None]).
Proof. repeat split. now left. Qed.

(** C7 (amended). On a store whose message ids are unique, a [loadThread]
    whose query succeeds returns the messages whose id or [thread_id] equals
    the argument and whose sender, recipient and resource resolve, oldest
    first.  It asks the store to set [read_at] to a reading of the clock on
    those returned messages that are addressed to the user's company and have
    [read_at] null, and does not look at the answers: every row is either as
    it was or is such a message with [read_at] set, and rows of the other
    tables are as they were.  When the store carries out every update,
    exactly those messages are stamped, every other row, read rows included,
    is as it was, and a second call changes nothing in the store. *)
Theorem loadThread_reads (clock : nat -> Z) (accepted : nat -> bool)
    (messageId : jsstring) (w : Inbox.World) :
  NoDup (List.map MessageRow.id (Store.messages (Inbox.store w))) ->
  let s := Inbox.store w in
  let w' := Inbox.loadThread false clock accepted messageId w in
  (forall m, In m (Inbox.selectedThread (Inbox.ui w')) <->
     exists row, In row (Store.messages s)
                 /\ (MessageRow.id row = messageId
                     \/ MessageRow.thread_id row = Some messageId)
                 /\ resolves s row
                 /\ joined s row = Some m)
  /\ oldest_first (Inbox.selectedThread (Inbox.ui w'))
  /\ Forall2 (fun row row' =>
                row' = row
                \/ (to_stamp s (Inbox.ui w) messageId row
                    /\ exists i,
                         row' = MessageRow.set_read_at (Some (clock i)) row))
             (Store.messages s) (Store.messages (Inbox.store w'))
  /\ Store.companies (Inbox.store w') = Store.companies s
  /\ Store.resources (Inbox.store w') = Store.resources s
  /\ Store.thread_contact_sharing (Inbox.store w')
     = Store.thread_contact_sharing s
  /\ Inbox.error (Inbox.ui w') = Inbox.error (Inbox.ui w)
  /\ ((forall i, accepted i = true) ->
      Forall2 (fun row row' =>
                 (to_stamp s (Inbox.ui w) messageId row ->
                  exists i,
                    row' = MessageRow.set_read_at (Some (clock i)) row)
                 /\ (~ to_stamp s (Inbox.ui w) messageId row -> row' = row))
              (Store.messages s) (Store.messages (Inbox.store w'))
      /\ forall clock' accepted',
           Inbox.store (Inbox.loadThread false clock' accepted' messageId w')
           = Inbox.store w').
Proof.
  intros Hnd s w'.
  destruct (loadThread_stamps clock accepted messageId w Hnd)
    as (f & Hf & Hrow).
  fold w' in Hf. fold s in Hf, Hrow.
  assert (Hrest : Store.resources (Inbox.store w') = Store.resources s
                  /\ Store.companies (Inbox.store w') = Store.companies s
                  /\ Store.thread_contact_sharing (Inbox.store w')
                     = Store.thread_contact_sharing s).
  { subst w'. unfold Inbox.loadThread. simpl. apply mark_read_resources. }
  destruct Hrest as (Hres & Hco & Hsh).
  assert (Hu : Inbox.userCompanyId (Inbox.ui w')
               = Inbox.userCompanyId (Inbox.ui w)) by reflexivity.
  refine (conj _ (conj _ (conj _ (conj Hco (conj Hres (conj Hsh
            (conj eq_refl _))))))).
  - intros m. subst w' s. unfold Inbox.loadThread. simpl.
    rewrite In_query_thread. unfold of_thread.
    split; intros (row & Hin & Hth & H); exists row.
    + split; [exact Hin|]. split; [exact Hth|].
      split; [apply joined_resolves; congruence | exact H].
    + tauto.
  - subst w'. unfold Inbox.loadThread, Inbox.query_thread. simpl.
    apply (validMessages_sorted s true), order_sorted.
  - rewrite Hf. apply Forall2_map_pointwise. intros row Hin.
    apply (Hrow row Hin).
  - intros Hall. split.
    + rewrite Hf. apply Forall2_map_pointwise. intros row Hin.
      destruct (Hrow row Hin) as [H1 H2]. split.
      * intros Hst. exact (H2 Hall Hst).
      * intros Hn. destruct H1 as [H1|[H1 _]]; [exact H1 | contradiction].
    + intros clock' accepted'. clearbody w'. unfold Inbox.loadThread. simpl.
      rewrite filter_none; [reflexivity|].
      intros m Hm. destruct (Inbox.unread_for _ m) eqn:Eu; [|reflexivity].
      exfalso. apply In_query_thread in Hm.
      destruct Hm as (row' & Hrow' & Hth & Hj).
      rewrite Hf in Hrow'. apply in_map_iff in Hrow'.
      destruct Hrow' as (row & <- & Hin).
      rewrite (joined_ext s (Inbox.store w') _ Hco Hres) in Hj.
      destruct (joined_fields _ _ _ Hj) as (_ & _ & _ & _ & Hr & _ & Hto & _).
      unfold Inbox.unread_for in Eu. apply andb_true_iff in Eu.
      destruct Eu as [Eu1 Eu2]. rewrite Hr in Eu1. rewrite Hto in Eu2.
      apply is_user_iff in Eu2. rewrite Hu in Eu2.
      destruct (Hrow row Hin) as [[H1|(_ & j & H1)] H2].
      * rewrite H1 in Hth, Hj, Eu1, Eu2.
        assert (Hst : to_stamp s (Inbox.ui w) messageId row).
        { split; [exact Hth|]. split; [apply joined_resolves; congruence|].
          split; [now destruct (MessageRow.read_at row) | exact Eu2]. }
        destruct (H2 Hall Hst) as (j & Hj'). rewrite H1 in Hj'.
        rewrite Hj' in Eu1. discriminate Eu1.
      * rewrite H1 in Eu1. discriminate Eu1.
Qed.

Lemma loadThread_reads_witness :
  let w := Inbox.mkWorld Sample.db Sample.inbox0 in
  let w' := Inbox.loadThread false (fun i => 400 + Z.of_nat i)%Z
              (fun _ => true) (JS.lit "m-1") w in
  List.map Inbox.Message.id (Inbox.selectedThread (Inbox.ui w'))
  = [JS.lit "m-1"; JS.lit "m-2"]
  /\ List.map MessageRow.read_at (Store.messages (Inbox.store w'))
     = [Some 400%Z; None]
  /\ oldest_first (Inbox.selectedThread (Inbox.ui w'))
  /\ Inbox.store (Inbox.loadThread false (fun _ => 900%Z) (fun _ => true)
                    (JS.lit "m-1") w')
     = Inbox.store w'.
Proof.
  intros w w'.
  assert (Hnd : NoDup (List.map MessageRow.id (Store.messages (Inbox.store w)))).
  { apply (bool_decide_unpack _). vm_compute. exact I. }
  destruct (loadThread_reads (fun i => 400 + Z.of_nat i)%Z (fun _ => true)
              (JS.lit "m-1") w Hnd)
    as (_ & Hsorted & _ & _ & _ & _ & _ & Hidem).
  split; [reflexivity|]. split; [reflexivity|].
  split; [exact Hsorted|].
  exact (proj2 (Hidem (fun _ => eq_refl)) (fun _ => 900%Z) (fun _ => true)).
Defined.

(* ===================================================================== *)
(** ** What is shown of a company before disclosure *)
(* ===================================================================== *)

(** Without a disclosure for the thread [getDisplayName] is "Du" or the
    anonymous id of the message's recipient. *)
Lemma getDisplayName_undisclosed (u : Inbox.State) (m : Inbox.Message.t)
    (isFromUser : bool) :
  Inbox.shared u (Inbox.Message.thread_key m) = false ->
  Inbox.getDisplayName u m isFromUser
  = if isFromUser then JS.lit "Du"
    else Inbox.Party.anonymous_id (Inbox.Message.to_company m).
Proof.
  intros H. unfold Inbox.getDisplayName. rewrite H. now destruct isFromUser.
Qed.

(** A real company name is shown only when the thread is disclosed and the
    contact details are present. *)
Lemma getDisplayName_real_name (u : Inbox.State) (m : Inbox.Message.t) :
  Inbox.getDisplayName u m false
  = match Inbox.Party.real_contact_info (Inbox.Message.to_company m) with
    | Some info =>
        if Inbox.shared u (Inbox.Message.thread_key m)
        then ContactInfo.company_name info
        else Inbox.Party.anonymous_id (Inbox.Message.to_company m)
    | None => Inbox.Party.anonymous_id (Inbox.Message.to_company m)
    end.
Proof.
  unfold Inbox.getDisplayName.
  destruct (Inbox.shared u (Inbox.Message.thread_key m)),
    (Inbox.Party.real_contact_info (Inbox.Message.to_company m)); reflexivity.
Qed.

Lemma unmarked_shared (u : Inbox.State) (T : jsstring) :
  unmarked u T -> Inbox.shared u T = false.
Proof.
  unfold unmarked, Inbox.shared. intros [H1 H2].
  destruct (Inbox.contactShared u !! T) as [[|]|];
    [congruence | reflexivity | exact H2].
Qed.

(** X8. While nothing marks the thread of a message as shared (the component
    holds no true entry under the thread's key and the key names no inherited
    property), the entry of the message list does not depend on the real
    contact details of either company: it is the same when both are removed
    from the message. *)
Lemma render_entry_undisclosed (u : Inbox.State) (m : Inbox.Message.t)
    (T : jsstring) :
  thread_of m T -> unmarked u T ->
  Inbox.render_entry u m = Inbox.render_entry u (hide m).
Proof.
  intros HT H. apply thread_of_key in HT. subst T. apply unmarked_shared in H.
  unfold Inbox.render_entry.
  rewrite !getDisplayName_undisclosed by exact H. reflexivity.
Qed.

Lemma render_entry_undisclosed_witness :
  Inbox.render_entry (Sample.opened []) Sample.inbound
  = Inbox.render_entry (Sample.opened []) (hide Sample.inbound).
Proof.
  apply (render_entry_undisclosed (Sample.opened []) Sample.inbound
           (JS.lit "m-1")).
  - reflexivity.
  - split; [|reflexivity]. intros H. vm_compute in H. discriminate H.
Defined.

(** X9. While nothing marks the thread of the selected message or the thread
    of the message itself as shared, a message of the opened thread is
    rendered without the contact lines, and its rendering is the same when
    the real contact details of both companies are removed from it. *)
Lemma render_bubble_undisclosed (u : Inbox.State) (sel m : Inbox.Message.t)
    (Ts Tm : jsstring) :
  thread_of sel Ts -> unmarked u Ts ->
  thread_of m Tm -> unmarked u Tm ->
  Inbox.render_bubble u sel m = Inbox.render_bubble u sel (hide m)
  /\ Inbox.bubble_contact (Inbox.render_bubble u sel m) = None.
Proof.
  intros HTs Hs HTm Hm. apply thread_of_key in HTs, HTm. subst Ts Tm.
  apply unmarked_shared in Hs, Hm. unfold Inbox.render_bubble.
  rewrite Hs, !getDisplayName_undisclosed by exact Hm. simpl. auto.
Qed.

Lemma render_bubble_undisclosed_witness :
  Inbox.render_bubble (Sample.opened []) Sample.inbound Sample.inbound
  = Inbox.render_bubble (Sample.opened []) Sample.inbound (hide Sample.inbound)
  /\ Inbox.bubble_contact
       (Inbox.render_bubble (Sample.opened []) Sample.inbound Sample.inbound)
     = None.
Proof.
  assert (H : unmarked (Sample.opened []) (JS.lit "m-1")).
  { split; [|reflexivity]. intros H. vm_compute in H. discriminate H. }
  exact (render_bubble_undisclosed (Sample.opened []) Sample.inbound
           Sample.inbound (JS.lit "m-1") (JS.lit "m-1") eq_refl H eq_refl H).
Defined.

(** The name on a message that the user did not send is taken from the
    message's recipient. *)
Lemma inbound_entry_names_recipient (u : Inbox.State) (m : Inbox.Message.t) :
  Inbox.is_user u (Inbox.Party.id (Inbox.Message.from_company m)) = false ->
  Inbox.shared u (Inbox.Message.thread_key m) = false ->
  Inbox.entry_party (Inbox.render_entry u m)
  = JS.lit "Fra: " ++ Inbox.Party.anonymous_id (Inbox.Message.to_company m).
Proof.
  intros Hf Hs. unfold Inbox.render_entry. simpl. rewrite Hf.
  now rewrite getDisplayName_undisclosed.
Qed.

(** C4. Alfa views Beta's request before any disclosure.  None of Beta's
    contact details is shown, but the name on the message is Alfa's own
    anonymous id, not Beta's: both in the message list and in the opened
    thread the sender of an incoming message is labelled with the
    recipient's anonymous id. *)
Theorem inbound_sender_shown_as_viewer :
  let u := Sample.opened [] in
  exists m,
    joined Sample.db Sample.request = Some m
    /\ Inbox.shared u (Inbox.Message.thread_key m) = false
    /\ Inbox.is_user u (Inbox.Party.id (Inbox.Message.from_company m)) = false
    /\ Inbox.Party.anonymous_id (Inbox.Message.from_company m)
       = JS.lit "Anonym-42"
    /\ Inbox.Party.anonymous_id (Inbox.Message.to_company m)
       = JS.lit "Anonym-17"
    /\ Inbox.entry_party (Inbox.render_entry u m) = JS.lit "Fra: Anonym-17"
    /\ Inbox.bubble_name (Inbox.render_bubble u m m) = JS.lit "Anonym-17"
    /\ Inbox.bubble_contact (Inbox.render_bubble u m m) = None.
Proof. intros u. eexists. repeat split. Qed.

(** *** The company cell of the resource table *)

Lemma single_In {A : Type} (l : list A) (x : A) :
  ResourceTable.single l = Some x -> l = [x].
Proof. destruct l as [|y [|z l]]; simpl; congruence. Qed.

(** [contact_step] adds contact details for a resource only when a
    disclosure row exists for a message about that resource. *)
Lemma contact_step_lookup (s : Store.t) (c : jsstring)
    (info : gmap jsstring ContactInfo.t) (resource : ResourceTable.Resource.t)
    (k : jsstring) (v : ContactInfo.t) :
  ResourceTable.contact_step s c info resource !! k = Some v ->
  info !! k = Some v
  \/ exists m sh, In m (Store.messages s) /\ MessageRow.resource_id m = k
                  /\ In sh (Store.thread_contact_sharing s)
                  /\ SharingRow.thread_id sh = MessageRow.id m.
Proof.
  unfold ResourceTable.contact_step.
  destruct (ResourceTable.single (take 1 _)) as [m|] eqn:Em; [|auto].
  destruct (ResourceTable.single (List.filter _ (Store.thread_contact_sharing s)))
    as [sh|] eqn:Esh; [|auto].
  destruct (ResourceTable.single (List.filter _ (Store.companies s)))
    as [co|]; [|auto].
  destruct (CompanyRow.real_contact_info co) as [real|]; [|auto].
  rewrite lookup_insert. destruct (decide _) as [<-|_]; [|auto].
  intros _. right. exists m, sh.
  apply single_In in Em, Esh.
  assert (Hm : In m (Db.order true
                       (List.filter
                          (fun m => JS.eqb (MessageRow.resource_id m)
                                           (ResourceTable.Resource.id resource))
                          (Store.messages s)))).
  { destruct (Db.order true _) as [|x l]; [discriminate|].
    simpl in Em. rewrite take_0 in Em. injection Em as ->. now left. }
  apply In_order, filter_In in Hm. destruct Hm as [Hm Hr].
  assert (Hsh : In sh (List.filter
                         (fun r => JS.eqb (SharingRow.thread_id r)
                                          (MessageRow.id m))
                         (Store.thread_contact_sharing s)))
    by (rewrite Esh; now left).
  apply filter_In in Hsh. destruct Hsh as [Hsh Ht].
  apply eqb_eq in Hr, Ht. auto.
Qed.

(** X10. After [loadContactInfo] on a table that held no contact details,
    the cell of a resource whose id names no inherited property shows the
    anonymous id whenever the store has no disclosure row for any message
    about that resource. *)
Lemma render_company_undisclosed (resources : list ResourceTable.Resource.t)
    (w : ResourceTable.World) (r : ResourceTable.Resource.t) :
  ResourceTable.contactInfo (ResourceTable.ui w) = ∅ ->
  JS.proto_member (ResourceTable.Resource.id r) = false ->
  (forall m sh, In m (Store.messages (ResourceTable.store w)) ->
                MessageRow.resource_id m = ResourceTable.Resource.id r ->
                In sh (Store.thread_contact_sharing (ResourceTable.store w)) ->
                SharingRow.thread_id sh <> MessageRow.id m) ->
  ResourceTable.render_company
    (ResourceTable.ui (ResourceTable.loadContactInfo resources w)) r
  = ResourceTable.Anonymous (ResourceTable.Resource.anonymId r).
Proof.
  intros He Hp Hno. unfold ResourceTable.render_company.
  assert (H : ResourceTable.contactInfo
                (ResourceTable.ui (ResourceTable.loadContactInfo resources w))
              !! ResourceTable.Resource.id r = None); [|now rewrite H, Hp].
  unfold ResourceTable.loadContactInfo.
  destruct (ResourceTable.userCompanyId (ResourceTable.ui w)) as [c|];
    [|now rewrite He].
  destruct (negb (JS.truthy c)); [now rewrite He|]. simpl. rewrite He.
  generalize (List.filter ResourceTable.Resource.is_taken resources).
  intros l.
  assert (G : forall (l : list ResourceTable.Resource.t)
                (acc : gmap jsstring ContactInfo.t),
             acc !! ResourceTable.Resource.id r = None ->
             foldl (ResourceTable.contact_step (ResourceTable.store w) c) acc l
             !! ResourceTable.Resource.id r = None).
  { clear l. induction l as [|x l IH]; intros acc Hacc; simpl; [exact Hacc|].
    apply IH.
    destruct (ResourceTable.contact_step (ResourceTable.store w) c acc x
              !! ResourceTable.Resource.id r) as [v|] eqn:E; [|reflexivity].
    apply contact_step_lookup in E.
    destruct E as [E|(m & sh & Hm & Hr & Hsh & Ht)]; [congruence|].
    exfalso. exact (Hno m sh Hm Hr Hsh Ht). }
  apply G. apply lookup_empty.
Qed.

Lemma render_company_undisclosed_witness :
  let w := ResourceTable.mkWorld Sample.db_taken Sample.table0 in
  ResourceTable.render_company
    (ResourceTable.ui (ResourceTable.loadContactInfo [Sample.offer true] w))
    (Sample.offer true)
  = ResourceTable.Anonymous (JS.lit "Anonym-17").
Proof.
  intros w.
  apply (render_company_undisclosed [Sample.offer true] w (Sample.offer true)).
  - reflexivity.
  - reflexivity.
  - intros m sh _ _ [].
Defined.

(* ===================================================================== *)
(** ** loadContactSharing: which threads count as shared *)
(* ===================================================================== *)

Lemma sharedThreads_fold (rows : list SharingRow.t) (k : jsstring) :
  forall acc : gmap jsstring bool,
  foldl (fun acc curr => JS.assign (SharingRow.thread_id curr) true acc)
        acc rows !! k
  = if List.existsb (fun r => JS.eqb (SharingRow.thread_id r) k) rows
       && negb (JS.eqb k (JS.lit "__proto__"))
    then Some true else acc !! k.
Proof.
  induction rows as [|r rows IH]; intros acc; simpl; [reflexivity|].
  rewrite IH.
  destruct (JS.eqb k (JS.lit "__proto__")) eqn:Ep; simpl.
  - rewrite !andb_false_r. unfold JS.assign.
    destruct (JS.eqb (SharingRow.thread_id r) (JS.lit "__proto__")) eqn:E;
      [reflexivity|].
    apply eqb_eq in Ep. apply eqb_neq in E. subst k.
    now apply lookup_insert_ne.
  - rewrite !andb_true_r.
    destruct (List.existsb _ rows); [now rewrite orb_true_r|].
    rewrite orb_false_r. unfold JS.assign.
    destruct (JS.eqb (SharingRow.thread_id r) k) eqn:E.
    + apply eqb_eq in E. subst k. rewrite Ep. apply lookup_insert_eq.
    + apply eqb_neq in E.
      destruct (JS.eqb (SharingRow.thread_id r) (JS.lit "__proto__"));
        [reflexivity | now apply lookup_insert_ne].
Qed.

Lemma sharedThreads_shared (u : Inbox.State) (rows : list SharingRow.t)
    (k : jsstring) :
  Inbox.shared (Inbox.setContactShared (Inbox.sharedThreads rows) u) k
  = List.existsb (fun r => JS.eqb (SharingRow.thread_id r) k) rows
    || JS.proto_member k.
Proof.
  unfold Inbox.shared, Inbox.sharedThreads. simpl.
  rewrite sharedThreads_fold, lookup_empty.
  destruct (JS.eqb k (JS.lit "__proto__")) eqn:Ep.
  - apply eqb_eq in Ep. subst k. rewrite andb_false_r.
    now rewrite orb_true_r.
  - rewrite andb_true_r. now destruct (List.existsb _ rows).
Qed.

(** X1. After a [loadContactSharing] that got its data for company [c], a
    thread counts as shared exactly when the store has a disclosure row for
    it in which [c] is the disclosing company or the company disclosed to, or
    when its key names a property that every object inherits: a disclosure
    made by the other party counts as much as one's own, and a disclosure
    between two other companies does not. *)
Theorem loadContactSharing_shared_iff (w : Inbox.World) (c k : jsstring) :
  Inbox.userCompanyId (Inbox.ui w) = Some c -> JS.truthy c = true ->
  Inbox.shared (Inbox.ui (Inbox.loadContactSharing false w)) k = true
  <-> (exists r, In r (Store.thread_contact_sharing (Inbox.store w))
                 /\ SharingRow.thread_id r = k
                 /\ (SharingRow.from_company_id r = c
                     \/ SharingRow.to_company_id r = c))
      \/ JS.proto_member k = true.
Proof.
  intros Hc Ht. unfold Inbox.loadContactSharing. rewrite Hc, Ht. simpl.
  rewrite sharedThreads_shared, orb_true_iff, existsb_exists.
  apply or_iff_compat_r. split.
  - intros (r & Hr & Hk). apply filter_In in Hr. destruct Hr as [Hr Hp].
    apply orb_true_iff in Hp. rewrite !eqb_eq in Hp. apply eqb_eq in Hk.
    eauto.
  - intros (r & Hr & Hk & Hp). exists r. split; [|now apply eqb_eq].
    apply filter_In. split; [exact Hr|].
    apply orb_true_iff. now rewrite !eqb_eq.
Qed.

Lemma loadContactSharing_shared_iff_witness :
  let disclosed :=
    Store.set_thread_contact_sharing
      [SharingRow.mk (JS.lit "m-1") (JS.lit "c-beta") (JS.lit "c-alfa")]
      Sample.db in
  let w := Inbox.mkWorld disclosed Sample.inbox0 in
  Inbox.shared (Inbox.ui (Inbox.loadContactSharing false w)) (JS.lit "m-1")
  = true.
Proof.
  intros disclosed w.
  apply (loadContactSharing_shared_iff w (JS.lit "c-alfa") (JS.lit "m-1")
           eq_refl eq_refl).
  left. eexists. split; [now left|]. split; [reflexivity | now right].
Defined.

Lemma shared_after_share (d : Defaults) (messageId : jsstring)
    (w : Inbox.World) :
  fst (fst (Inbox.handleShareContact d false false messageId w))
  = Inbox.Completed ->
  let w1 := snd (fst (Inbox.handleShareContact d false false messageId w)) in
  let w2 := Inbox.loadContactSharing false w1 in
  Inbox.shared (Inbox.ui w2) messageId = true
  /\ Inbox.userCompanyId (Inbox.ui w2) = Inbox.userCompanyId (Inbox.ui w).
Proof.
  intros Hcompl w1 w2. subst w2 w1. revert Hcompl.
  unfold Inbox.handleShareContact.
  destruct (Inbox.selectedMessage (Inbox.ui w)) as [s0|] eqn:Es;
    [|discriminate].
  destruct (Inbox.userCompanyId (Inbox.ui w)) as [c|] eqn:Ec;
    [|discriminate].
  destruct (JS.truthy c) eqn:Ht; [|discriminate]. simpl. intros _.
  unfold Inbox.loadContactSharing. simpl. rewrite Ec, Ht. simpl.
  split; [|exact Ec].
  rewrite sharedThreads_shared. apply orb_true_iff. left.
  apply existsb_exists.
  exists (SharingRow.mk messageId c (Inbox.toCompanyId (Inbox.ui w) s0)).
  split; [|simpl; apply eqb_refl].
  apply filter_In. split.
  - apply in_or_app. right. now left.
  - simpl. now rewrite eqb_refl.
Qed.

(** X2. When [handleShareContact] completes for a thread, the next
    [loadContactSharing] that gets its data marks that thread as shared, so
    for a selected message of the thread the "Del kontaktinfo" button is
    gone and "Kontaktinfo delt" is shown. *)
Theorem share_then_refresh_shows_shared (d : Defaults) (messageId : jsstring)
    (w : Inbox.World) (sel : Inbox.Message.t) :
  fst (fst (Inbox.handleShareContact d false false messageId w))
  = Inbox.Completed ->
  Inbox.Message.thread_key sel = messageId ->
  let w1 := snd (fst (Inbox.handleShareContact d false false messageId w)) in
  let w2 := Inbox.loadContactSharing false w1 in
  Inbox.shared (Inbox.ui w2) messageId = true
  /\ Inbox.show_share (Inbox.render_controls (Inbox.ui w2) sel) = false
  /\ Inbox.show_shared (Inbox.render_controls (Inbox.ui w2) sel) = true.
Proof.
  intros Hcompl Hk w1 w2.
  destruct (shared_after_share d messageId w Hcompl) as [H _].
  fold w1 in H. fold w2 in H.
  split; [exact H|]. unfold Inbox.render_controls. simpl. rewrite Hk, H.
  split; reflexivity.
Qed.

Lemma share_then_refresh_shows_shared_witness :
  let w := Inbox.mkWorld Sample.db (Sample.opened []) in
  let w1 := snd (fst (Inbox.handleShareContact Sample.defaults false false
                        (JS.lit "m-1") w)) in
  Inbox.shared (Inbox.ui (Inbox.loadContactSharing false w1)) (JS.lit "m-1")
  = true.
Proof.
  intros w w1.
  destruct (Inbox.selectedMessage (Inbox.ui w)) as [sel|] eqn:E;
    [|discriminate E].
  exact (proj1 (share_then_refresh_shows_shared Sample.defaults (JS.lit "m-1")
                  w sel eq_refl
                  (f_equal (fun o => match o with
                                     | Some m => Inbox.Message.thread_key m
                                     | None => []
                                     end) (eq_sym E)))).
Defined.

(* ===================================================================== *)
(** ** A reply, then the thread *)
(* ===================================================================== *)

Lemma place_snoc (x y : MessageRow.t) (l : list MessageRow.t) :
  (MessageRow.created_at x <= MessageRow.created_at y)%Z ->
  Db.place true x (l ++ [y]) = Db.place true x l ++ [y].
Proof.
  intros H. induction l as [|z l IH]; simpl.
  - unfold Db.before. apply Z.leb_le in H. now rewrite H.
  - destruct (MessageRow.created_at x <=? MessageRow.created_at z)%Z;
      [reflexivity|]. simpl. now rewrite IH.
Qed.

Lemma order_snoc (y : MessageRow.t) (l : list MessageRow.t) :
  Forall (fun x => (MessageRow.created_at x <= MessageRow.created_at y)%Z) l ->
  Db.order true (l ++ [y]) = Db.order true l ++ [y].
Proof.
  induction 1 as [|x l Hx _ IH]; simpl; [reflexivity|].
  rewrite IH. now apply place_snoc.
Qed.

Lemma validMessages_snoc (s : Store.t) (rows : list MessageRow.t)
    (row : MessageRow.t) (m : Inbox.Message.t) :
  joined s row = Some m ->
  Inbox.validMessages (List.map (Inbox.select_row s) (rows ++ [row]))
  = Inbox.validMessages (List.map (Inbox.select_row s) rows) ++ [m].
Proof.
  intros H. unfold Inbox.validMessages. rewrite List.map_app, omap_app. simpl.
  unfold joined in H. now rewrite H.
Qed.

(** X3. A reply that [handleReply] has sent is returned by the next
    [loadThread] of its thread: when the sender, the recipient and the
    resource of the reply resolve and no message is newer than the reply,
    the reply is the last message of the loaded thread, with the text that
    was typed and the user's company as sender. *)
Theorem reply_then_loadThread (d : Defaults) (p : Inbox.Props)
    (w : Inbox.World) (clock : nat -> Z) (accepted : nat -> bool)
    (sel : Inbox.Message.t) (c : jsstring) :
  Inbox.selectedMessage (Inbox.ui w) = Some sel ->
  Inbox.userCompanyId (Inbox.ui w) = Some c ->
  fst (fst (Inbox.handleReply d false p w)) = Inbox.Completed ->
  Db.company (Inbox.store w) c <> None ->
  Db.company (Inbox.store w) (Inbox.toCompanyId (Inbox.ui w) sel) <> None ->
  Db.resource (Inbox.store w) (Inbox.Res.id (Inbox.Message.resource sel))
  <> None ->
  Forall (fun x => (MessageRow.created_at x <= db_now d)%Z)
         (Store.messages (Inbox.store w)) ->
  let w1 := snd (fst (Inbox.handleReply d false p w)) in
  let w2 := Inbox.loadThread false clock accepted
              (Inbox.Message.thread_key sel) w1 in
  exists m,
    last (Inbox.selectedThread (Inbox.ui w2)) = Some m
    /\ Inbox.Message.id m = new_id d
    /\ Inbox.Message.content m = Inbox.reply (Inbox.ui w)
    /\ Inbox.Party.id (Inbox.Message.from_company m) = c
    /\ Inbox.Party.id (Inbox.Message.to_company m)
       = Inbox.toCompanyId (Inbox.ui w) sel
    /\ Inbox.Message.created_at m = db_now d.
Proof.
  intros Es Ec Hcompl Hfrom Hto Hres Hnew w1 w2.
  set (row := MessageRow.mk (new_id d) c (Inbox.toCompanyId (Inbox.ui w) sel)
                (Inbox.Res.id (Inbox.Message.resource sel))
                (JS.lit "Re: " ++ Inbox.Message.subject sel)
                (Inbox.reply (Inbox.ui w)) (db_now d) None
                (Some (Inbox.Message.thread_key sel))).
  assert (Hs1 : Inbox.store w1
                = Store.set_messages
                    (Store.messages (Inbox.store w) ++ [row]) (Inbox.store w)).
  { subst w1. revert Hcompl. unfold Inbox.handleReply. rewrite Es, Ec.
    destruct (negb (JS.truthy (JS.trim (Inbox.reply (Inbox.ui w))))
              || negb (JS.truthy c)); [discriminate | reflexivity]. }
  assert (Hj : joined (Inbox.store w1) row <> None).
  { apply joined_resolves. rewrite Hs1. repeat split; assumption. }
  destruct (joined (Inbox.store w1) row) as [m|] eqn:Ej; [|congruence].
  exists m. split.
  - subst w2. unfold Inbox.loadThread, Inbox.query_thread. simpl.
    rewrite Hs1 at 2. simpl. rewrite List.filter_app. simpl.
    replace (Inbox.in_thread (Inbox.Message.thread_key sel) row) with true
      by (unfold Inbox.in_thread; simpl; rewrite eqb_refl;
          now rewrite orb_true_r).
    rewrite order_snoc.
    + rewrite (validMessages_snoc _ _ _ _ Ej). apply last_snoc.
    + apply List.Forall_forall. intros x Hx. apply filter_In in Hx.
      rewrite List.Forall_forall in Hnew. apply (Hnew x (proj1 Hx)).
  - destruct (joined_fields _ _ _ Ej)
      as (Hi & _ & Hc & Hcr & _ & _ & Ht & Hf & _).
    repeat split; assumption.
Qed.

Lemma reply_then_loadThread_witness :
  let w := Inbox.mkWorld Sample.db (Sample.opened (JS.lit "Ja, fra mandag.")) in
  let w1 := snd (fst (Inbox.handleReply Sample.defaults false Sample.props w)) in
  let w2 := Inbox.loadThread false (fun _ => 400%Z) (fun _ => true)
              (JS.lit "m-1") w1 in
  exists m, last (Inbox.selectedThread (Inbox.ui w2)) = Some m
            /\ Inbox.Message.id m = JS.lit "m-3"
            /\ Inbox.Message.content m = JS.lit "Ja, fra mandag.".
Proof.
  intros w w1 w2.
  destruct (reply_then_loadThread Sample.defaults Sample.props w
              (fun _ => 400%Z) (fun _ => true) _ (JS.lit "c-alfa")
              eq_refl eq_refl eq_refl)
    as (m & Hl & Hi & Hc & _).
  - vm_compute. discriminate.
  - vm_compute. discriminate.
  - vm_compute. discriminate.
  - repeat (constructor; [simpl; lia|]). constructor.
  - exists m. split; [exact Hl|]. split; [exact Hi | exact Hc].
Defined.

(* ===================================================================== *)
(** ** A user without a company *)
(* ===================================================================== *)

(** X4. When no company row belongs to the signed-in user,
    [loadUserCompany] leaves the company unknown and clears [hasCompany];
    from then on [handleReply] and [handleShareContact] are left through
    their guards, [loadMessages] and [loadContactSharing] do nothing, and
    [loadThread] marks no message as read. *)
Theorem no_company_no_writes (uid messageId : jsstring) (w : Inbox.World)
    (d : Defaults) (p : Inbox.Props) (clock : nat -> Z)
    (accepted : nat -> bool) (e1 e2 : bool) :
  (forall co, In co (Store.companies (Inbox.store w)) ->
              CompanyRow.user_id co <> uid) ->
  let w0 := Inbox.loadUserCompany false (Some uid) w in
  Inbox.userCompanyId (Inbox.ui w0) = None
  /\ Inbox.hasCompany (Inbox.ui w0) = false
  /\ Inbox.store w0 = Inbox.store w
  /\ Inbox.handleReply d e1 p w0 = (Inbox.Rejected, w0, [])
  /\ Inbox.handleShareContact d e1 e2 messageId w0 = (Inbox.Rejected, w0, [])
  /\ Inbox.loadMessages e1 p w0 = (w0, [])
  /\ Inbox.loadContactSharing e1 w0 = w0
  /\ Inbox.store (Inbox.loadThread false clock accepted messageId w0)
     = Inbox.store w0.
Proof.
  intros Hno w0.
  assert (Hw0 : w0 = Inbox.with_ui
                       (fun u => Inbox.setUserCompanyId None
                                   (Inbox.setHasCompany false u)) w).
  { subst w0. unfold Inbox.loadUserCompany.
    rewrite filter_none; [reflexivity|].
    intros co Hco. apply eqb_neq. now apply Hno. }
  rewrite Hw0.
  do 3 (split; [reflexivity|]).
  split; [unfold Inbox.handleReply; simpl;
          now destruct (Inbox.selectedMessage (Inbox.ui w))|].
  split; [unfold Inbox.handleShareContact; simpl;
          now destruct (Inbox.selectedMessage (Inbox.ui w))|].
  do 2 (split; [reflexivity|]).
  unfold Inbox.loadThread. simpl.
  rewrite filter_none; [reflexivity|].
  intros m _. unfold Inbox.unread_for, Inbox.is_user. simpl.
  apply andb_false_r.
Qed.

Lemma no_company_no_writes_witness :
  let w := Inbox.mkWorld Sample.db Sample.inbox0 in
  let w0 := Inbox.loadUserCompany false (Some (JS.lit "u-9")) w in
  Inbox.userCompanyId (Inbox.ui w0) = None
  /\ Inbox.handleReply Sample.defaults false Sample.props w0
     = (Inbox.Rejected, w0, []).
Proof.
  intros w w0.
  destruct (no_company_no_writes (JS.lit "u-9") (JS.lit "m-1") w
              Sample.defaults Sample.props (fun _ => 0%Z) (fun _ => true)
              false false)
    as (H1 & _ & _ & H4 & _).
  - intros co [<-|[<-|[]]]; discriminate.
  - split; [exact H1 | exact H4].
Defined.

(* ===================================================================== *)
(** ** handleMarkAsTaken: the row afterwards *)
(* ===================================================================== *)

Lemma find_resource_map (g : ResourceRow.t -> ResourceRow.t) (k : jsstring)
    (l : list ResourceRow.t) :
  (forall r, ResourceRow.id (g r) = ResourceRow.id r) ->
  List.find (fun r => JS.eqb (ResourceRow.id r) k) (List.map g l)
  = g <$> List.find (fun r => JS.eqb (ResourceRow.id r) k) l.
Proof.
  intros Hg. induction l as [|r l IH]; simpl; [reflexivity|].
  rewrite Hg. destruct (JS.eqb (ResourceRow.id r) k); [reflexivity | exact IH].
Qed.

(** X5. After a [handleMarkAsTaken] whose update succeeds, looking the
    resource up gives the row it had with [is_taken] set, looking any other
    resource up gives what it gave before, no other table has changed, and
    running the handler again changes nothing. *)
Theorem handleMarkAsTaken_lookup (resourceId k : jsstring) (p : Inbox.Props)
    (w : Inbox.World) :
  let w1 := snd (fst (Inbox.handleMarkAsTaken false resourceId p w)) in
  Db.resource (Inbox.store w1) resourceId
  = ResourceRow.set_is_taken true <$> Db.resource (Inbox.store w) resourceId
  /\ (k <> resourceId ->
      Db.resource (Inbox.store w1) k = Db.resource (Inbox.store w) k)
  /\ Store.messages (Inbox.store w1) = Store.messages (Inbox.store w)
  /\ Store.companies (Inbox.store w1) = Store.companies (Inbox.store w)
  /\ Store.thread_contact_sharing (Inbox.store w1)
     = Store.thread_contact_sharing (Inbox.store w)
  /\ Inbox.store (snd (fst (Inbox.handleMarkAsTaken false resourceId p w1)))
     = Inbox.store w1.
Proof.
  intros w1. subst w1. unfold Inbox.handleMarkAsTaken, Db.resource. simpl.
  set (g := fun r => if JS.eqb (ResourceRow.id r) resourceId
                     then ResourceRow.set_is_taken true r else r).
  assert (Hg : forall r, ResourceRow.id (g r) = ResourceRow.id r).
  { intros r. unfold g. now destruct (JS.eqb _ _). }
  rewrite !(find_resource_map g) by exact Hg.
  split; [|split; [|repeat split]].
  - destruct (List.find _ (Store.resources (Inbox.store w))) as [r|] eqn:E;
      [|reflexivity].
    apply find_some in E. destruct E as [_ E]. simpl. unfold g. now rewrite E.
  - intros Hk.
    destruct (List.find _ (Store.resources (Inbox.store w))) as [r|] eqn:E;
      [|reflexivity].
    apply find_some in E. destruct E as [_ E]. apply eqb_eq in E.
    simpl. unfold g.
    destruct (JS.eqb (ResourceRow.id r) resourceId) eqn:E';
      [|reflexivity].
    apply eqb_eq in E'. congruence.
  - unfold Db.update_is_taken, Store.set_resources. simpl. f_equal.
    rewrite List.map_map. apply map_ext. intros r. fold (g r). fold (g (g r)).
    unfold g at 1. rewrite Hg. unfold g.
    destruct (JS.eqb (ResourceRow.id r) resourceId); reflexivity.
Qed.

(* ===================================================================== *)
(** ** latestMessages on messages in any order *)
(* ===================================================================== *)

Lemma tm_set_keys (k : jsstring) (v : Inbox.Message.t) (tm : Inbox.ThreadMap) :
  Inbox.tm_has k tm = true ->
  List.map fst (Inbox.tm_set k v tm) = List.map fst tm.
Proof.
  unfold Inbox.tm_has. induction tm as [|[k0 v0] tm IH]; simpl;
    [discriminate|].
  destruct (JS.eqb k0 k) eqn:E; simpl.
  - intros _. apply eqb_eq in E. now rewrite E.
  - intros H. now rewrite IH.
Qed.

Lemma tm_set_In (k : jsstring) (v : Inbox.Message.t) (tm : Inbox.ThreadMap)
    (k' : jsstring) (v' : Inbox.Message.t) :
  NoDup (List.map fst tm) -> Inbox.tm_has k tm = true ->
  In (k', v') (Inbox.tm_set k v tm)
  <-> (k' = k /\ v' = v) \/ (k' <> k /\ In (k', v') tm).
Proof.
  unfold Inbox.tm_has. induction tm as [|[k0 v0] tm IH]; simpl;
    [discriminate|].
  intros Hnd Hhas. inversion Hnd as [|x l Hx Hnd']; subst.
  destruct (JS.eqb k0 k) eqn:E; simpl.
  - apply eqb_eq in E. subst k0. split.
    + intros [[= <- <-]|Hin]; [now left|]. right. split; [|now right].
      intros ->. apply Hx, list_elem_of_In.
      apply (in_map fst) in Hin. exact Hin.
    + intros [[-> ->]|[Hne [[= <- <-]|Hin]]]; [now left | congruence |].
      now right.
  - apply eqb_neq in E. simpl in Hhas. rewrite (IH Hnd' Hhas). split.
    + intros [[= <- <-]|[H|[Hne Hin]]]; [right; split; auto | now left |].
      right. split; [exact Hne | now right].
    + intros [H|[Hne [H0|Hin]]]; [right; now left | now left |].
      right. right. now split.
Qed.

Lemma tm_value_unique (tm : Inbox.ThreadMap) (k : jsstring)
    (v v' : Inbox.Message.t) :
  NoDup (List.map fst tm) -> In (k, v) tm -> In (k, v') tm -> v = v'.
Proof.
  induction tm as [|[k0 v0] tm IH]; simpl; [tauto|].
  intros Hnd H H'. inversion Hnd as [|x l Hx Hnd']; subst.
  destruct H as [[= -> ->]|H], H' as [[= <-]|H'].
  - reflexivity.
  - exfalso. apply Hx, list_elem_of_In. now apply (in_map fst) in H'.
  - exfalso. subst. apply Hx, list_elem_of_In. now apply (in_map fst) in H.
  - now apply IH.
Qed.

Lemma group_step_any (tm : Inbox.ThreadMap) (msg : Inbox.Message.t)
    (done : list Inbox.Message.t) :
  latest_so_far tm done ->
  latest_so_far (Inbox.group_step tm msg) (done ++ [msg]).
Proof.
  intros (Ha & Hb & Hc). unfold Inbox.group_step.
  destruct (Inbox.tm_has (Inbox.Message.thread_key msg) tm) eqn:Eh.
  - destruct (tm_has_get _ _ Eh) as (old & Hg & Hin). rewrite Hg. simpl.
    destruct (Inbox.Message.created_at old <? Inbox.Message.created_at msg)%Z
      eqn:El.
    + apply Z.ltb_lt in El.
      refine (conj _ (conj _ _)).
      * intros k v Hkv. apply (tm_set_In _ _ _ _ _ Hb Eh) in Hkv.
        destruct Hkv as [[-> ->]|[_ Hkv]].
        -- split; [reflexivity | apply in_or_app; right; now left].
        -- apply Ha in Hkv. destruct Hkv as [-> Hv].
           split; [reflexivity | apply in_or_app; now left].
      * now rewrite (tm_set_keys _ _ _ Eh).
      * intros m Hm. apply in_app_or in Hm. destruct Hm as [Hm|[<-|[]]].
        -- destruct (Hc m Hm) as (v & Hv & Hle).
           destruct (List.list_eq_dec N.eq_dec (Inbox.Message.thread_key m)
                       (Inbox.Message.thread_key msg)) as [Ek|Ek].
           ++ exists msg. rewrite Ek in Hv |- *.
              rewrite (tm_value_unique _ _ _ _ Hb Hv Hin) in Hle.
              split; [|lia].
              apply (tm_set_In _ _ _ _ _ Hb Eh). now left.
           ++ exists v. split; [|exact Hle].
              apply (tm_set_In _ _ _ _ _ Hb Eh). right. now split.
        -- exists msg. split; [|lia].
           apply (tm_set_In _ _ _ _ _ Hb Eh). now left.
    + apply Z.ltb_ge in El.
      refine (conj _ (conj Hb _)).
      * intros k v Hkv. apply Ha in Hkv. destruct Hkv as [-> Hv].
        split; [reflexivity | apply in_or_app; now left].
      * intros m Hm. apply in_app_or in Hm. destruct Hm as [Hm|[<-|[]]].
        -- now apply Hc.
        -- exists old. split; [exact Hin | exact El].
  - simpl. rewrite (tm_set_fresh _ _ _ Eh). apply tm_has_false in Eh.
    refine (conj _ (conj _ _)).
    + intros k v Hkv. apply in_app_or in Hkv.
      destruct Hkv as [Hkv|[[= <- <-]|[]]].
      * apply Ha in Hkv. destruct Hkv as [-> Hv].
        split; [reflexivity | apply in_or_app; now left].
      * split; [reflexivity | apply in_or_app; right; now left].
    + rewrite List.map_app. simpl. apply NoDup_app.
      split; [exact Hb|]. split.
      * intros x Hx Hx'. apply list_elem_of_In in Hx, Hx'.
        destruct Hx' as [<-|[]]. contradiction.
      * apply NoDup_singleton.
    + intros m Hm. apply in_app_or in Hm. destruct Hm as [Hm|[<-|[]]].
      * destruct (Hc m Hm) as (v & Hv & Hle). exists v.
        split; [apply in_or_app; now left | exact Hle].
      * exists msg. split; [apply in_or_app; right; now left | lia].
Qed.

(** X6. Whatever the order in which the messages arrive, [latestMessages]
    returns messages of its input, no two of the same thread, and for every
    message of the input a message of the same thread that is at least as
    recent: one message per thread, of the latest timestamp in the thread. *)
Theorem latestMessages_any_order (l : list Inbox.Message.t) :
  (forall m, In m (Inbox.latestMessages l) -> In m l)
  /\ NoDup (List.map Inbox.Message.thread_key (Inbox.latestMessages l))
  /\ (forall m, In m l ->
        exists v, In v (Inbox.latestMessages l)
                  /\ Inbox.Message.thread_key v = Inbox.Message.thread_key m
                  /\ (Inbox.Message.created_at m
                      <= Inbox.Message.created_at v)%Z).
Proof.
  assert (G : forall rest tm done,
             latest_so_far tm done ->
             latest_so_far (foldl Inbox.group_step tm rest) (done ++ rest)).
  { induction rest as [|msg rest IH]; intros tm done H; simpl.
    - now rewrite app_nil_r.
    - replace (done ++ msg :: rest) with ((done ++ [msg]) ++ rest)
        by now rewrite <- app_assoc.
      apply IH. now apply group_step_any. }
  assert (H0 : latest_so_far [] []).
  { refine (conj _ (conj _ _)).
    - intros k v [].
    - constructor.
    - intros m []. }
  destruct (G l [] [] H0) as (Ha & Hb & Hc). simpl in Ha, Hc.
  unfold Inbox.latestMessages, Inbox.tm_values.
  set (tm := foldl Inbox.group_step [] l) in *.
  assert (Hk : List.map Inbox.Message.thread_key (List.map snd tm)
               = List.map fst tm).
  { rewrite List.map_map. apply map_ext_in. intros [k v] Hkv. simpl.
    symmetry. now apply Ha in Hkv. }
  refine (conj _ (conj _ _)).
  - intros m Hm. apply in_map_iff in Hm. destruct Hm as ([k v] & <- & Hkv).
    now apply Ha in Hkv.
  - now rewrite Hk.
  - intros m Hm. destruct (Hc m Hm) as (v & Hv & Hle). exists v.
    split; [|split; [now apply Ha in Hv | exact Hle]].
    apply in_map_iff. now exists (Inbox.Message.thread_key m, v).
Qed.

(* ===================================================================== *)
(** ** Opening a thread and the "Ny melding" badge *)
(* ===================================================================== *)

Lemma thread_key_in_thread (s : Store.t) (row : MessageRow.t)
    (m : Inbox.Message.t) :
  joined s row = Some m ->
  of_thread (Inbox.Message.thread_key m) row.
Proof.
  intros Hj. destruct (joined_fields _ _ _ Hj) as (Hi & _ & _ & _ & _ & Ht & _).
  unfold Inbox.Message.thread_key, of_thread, JS.or_else.
  rewrite Ht, Hi.
  destruct (MessageRow.thread_id row) as [[|x t]|]; auto.
Qed.

Lemma loadMessages_userCompanyId (error : bool) (p : Inbox.Props)
    (w : Inbox.World) :
  Inbox.userCompanyId (Inbox.ui (fst (Inbox.loadMessages error p w)))
  = Inbox.userCompanyId (Inbox.ui w).
Proof.
  unfold Inbox.loadMessages.
  destruct (Inbox.userCompanyId (Inbox.ui w)) as [c|] eqn:Ec; [|exact Ec].
  destruct (negb (JS.truthy c)); [exact Ec|].
  destruct error; [exact Ec|]. simpl.
  destruct (Inbox.selectedMessage (Inbox.ui w)); simpl; [|exact Ec].
  match goal with |- context [List.find ?f ?l] => destruct (List.find f l) end;
    exact Ec.
Qed.

(** After a [loadThread] whose updates the store carries out, every row of
    the thread that is returned and is addressed to the user's company has a
    [read_at]. *)
Lemma loadThread_leaves_none_unread (clock : nat -> Z)
    (accepted : nat -> bool) (k : jsstring) (w : Inbox.World)
    (row' : MessageRow.t) :
  NoDup (List.map MessageRow.id (Store.messages (Inbox.store w))) ->
  (forall i, accepted i = true) ->
  In row' (Store.messages
             (Inbox.store (Inbox.loadThread false clock accepted k w))) ->
  of_thread k row' ->
  joined (Inbox.store w) row' <> None ->
  Inbox.userCompanyId (Inbox.ui w) = Some (MessageRow.to_company_id row') ->
  MessageRow.read_at row' <> None.
Proof.
  intros Hnd Hall Hin Hth Hj Hto.
  destruct (loadThread_stamps clock accepted k w Hnd) as (f & Hf & Hrow).
  rewrite Hf in Hin. apply in_map_iff in Hin. destruct Hin as (row & <- & Hin).
  destruct (Hrow row Hin) as [[H1|(_ & j & H1)] H2].
  - rewrite H1 in Hth, Hj, Hto |- *. intros Hr.
    assert (Hst : to_stamp (Inbox.store w) (Inbox.ui w) k row).
    { split; [exact Hth|]. split; [now apply joined_resolves|]. now split. }
    destruct (H2 Hall Hst) as (j & Hj'). rewrite H1 in Hj'.
    rewrite Hj' in Hr. discriminate Hr.
  - rewrite H1. discriminate.
Qed.

(** X7. On a store with unique message ids, once [loadThread] has loaded a
    thread for the user's company and the store has carried out its updates,
    the next [loadMessages] shows the entry of that thread without the
    "Ny melding" badge. *)
Theorem opened_thread_has_no_badge (clock : nat -> Z) (accepted : nat -> bool)
    (messageId c : jsstring) (p : Inbox.Props) (w : Inbox.World) :
  NoDup (List.map MessageRow.id (Store.messages (Inbox.store w))) ->
  (forall i, accepted i = true) ->
  Inbox.userCompanyId (Inbox.ui w) = Some c -> JS.truthy c = true ->
  let w1 := Inbox.loadThread false clock accepted messageId w in
  let w2 := fst (Inbox.loadMessages false p w1) in
  forall m, In m (Inbox.messages (Inbox.ui w2)) ->
            thread_of m messageId ->
            Inbox.entry_unread (Inbox.render_entry (Inbox.ui w2) m) = false.
Proof.
  intros Hnd Hall Hc Ht w1 w2 m Hm Hk.
  apply thread_of_key in Hk. symmetry in Hk.
  assert (Hc1 : Inbox.userCompanyId (Inbox.ui w1) = Some c) by exact Hc.
  destruct (loadMessages_ok p w1 c Hc1 Ht) as (Hmsgs & _ & _).
  fold w2 in Hmsgs.
  assert (Hc2 : Inbox.userCompanyId (Inbox.ui w2) = Some c).
  { subst w2. now rewrite loadMessages_userCompanyId. }
  rewrite Hmsgs in Hm.
  apply (proj1 (latestMessages_newest _
                  (validMessages_sorted (Inbox.store w1) false _
                     (order_sorted false _)))) in Hm.
  unfold Inbox.query_messages in Hm. apply In_validMessages in Hm.
  destruct Hm as (row' & Hrow' & Hj).
  apply In_order, filter_In in Hrow'. destruct Hrow' as [Hrow' _].
  assert (Hrest := mark_read_resources clock accepted
            (List.filter (Inbox.unread_for (Inbox.ui w))
               (Inbox.validMessages
                  (Inbox.query_thread messageId (Inbox.store w))))
            0 (Inbox.store w)).
  destruct Hrest as (Hres & Hco & _).
  assert (Hj0 : joined (Inbox.store w) row' = Some m).
  { rewrite <- Hj. symmetry. apply joined_ext; [exact Hco | exact Hres]. }
  destruct (joined_fields _ _ _ Hj0) as (_ & _ & _ & _ & Hr & _ & Hto & _).
  unfold Inbox.render_entry. simpl. unfold Inbox.unread_for.
  destruct (Inbox.is_user (Inbox.ui w2)
              (Inbox.Party.id (Inbox.Message.to_company m))) eqn:Eu;
    [|apply andb_false_r].
  assert (Hu : Inbox.userCompanyId (Inbox.ui w)
               = Some (MessageRow.to_company_id row')).
  { apply is_user_iff in Eu. rewrite Hc2 in Eu. rewrite Hc, <- Hto.
    exact Eu. }
  assert (Hth : of_thread messageId row').
  { rewrite <- Hk. now apply (thread_key_in_thread (Inbox.store w)). }
  assert (Hjn : joined (Inbox.store w) row' <> None) by congruence.
  assert (Hread := loadThread_leaves_none_unread clock accepted messageId w
                     row' Hnd Hall Hrow' Hth Hjn Hu).
  rewrite Hr. destruct (MessageRow.read_at row'); [reflexivity | congruence].
Qed.

Lemma opened_thread_has_no_badge_witness :
  let w := Inbox.mkWorld Sample.db Sample.inbox_beta in
  let w0 := fst (Inbox.loadMessages false Sample.props w) in
  let w1 := Inbox.loadThread false (fun _ => 400%Z) (fun _ => true)
              (JS.lit "m-1") w in
  let w2 := fst (Inbox.loadMessages false Sample.props w1) in
  List.map (fun m => Inbox.entry_unread (Inbox.render_entry (Inbox.ui w0) m))
           (Inbox.messages (Inbox.ui w0)) = [true]
  /\ List.map Inbox.Message.thread_id (Inbox.messages (Inbox.ui w2))
     = [Some (JS.lit "m-1")]
  /\ forall m, In m (Inbox.messages (Inbox.ui w2)) ->
               thread_of m (JS.lit "m-1") ->
               Inbox.entry_unread (Inbox.render_entry (Inbox.ui w2) m) = false.
Proof.
  intros w w0 w1 w2. split; [reflexivity|]. split; [reflexivity|].
  apply (opened_thread_has_no_badge (fun _ => 400%Z) (fun _ => true)
           (JS.lit "m-1") (JS.lit "c-beta") Sample.props w).
  - apply (bool_decide_unpack _). vm_compute. exact I.
  - reflexivity.
  - reflexivity.
  - reflexivity.
Defined.

(* ===================================================================== *)
(** ** The requests listed for a resource *)
(* ===================================================================== *)

Lemma StronglySorted_map_filter {A B : Type} (R : A -> A -> Prop)
    (R' : B -> B -> Prop) (g : A -> B) (f : A -> bool) (l : list A) :
  (forall a b, R a b -> R' (g a) (g b)) ->
  StronglySorted R l -> StronglySorted R' (List.map g (List.filter f l)).
Proof.
  intros HR. induction 1 as [|x l Hl IH Hx]; simpl; [constructor|].
  destruct (f x); simpl; [|exact IH].
  constructor; [exact IH|].
  rewrite List.Forall_forall in Hx |- *. intros y Hy.
  apply in_map_iff in Hy. destruct Hy as (a & <- & Ha).
  apply filter_In in Ha. apply HR, Hx, Ha.
Qed.

Lemma foldl_group_thrown (l : list ResourceTable.Request.t) :
  foldl ResourceTable.group None l = None.
Proof. induction l as [|x l IH]; simpl; [reflexivity | exact IH]. Qed.

(** The [reduce] throws as soon as a request is about an id that names an
    inherited property. *)
Lemma grouped_throws (l : list ResourceTable.Request.t) :
  forall acc : gmap jsstring (list ResourceTable.Request.t),
  (forall k, JS.proto_member k = true -> acc !! k = None) ->
  Exists (fun r => JS.proto_member (ResourceTable.Request.resource_id r)
                   = true) l ->
  foldl ResourceTable.group (Some acc) l = None.
Proof.
  induction l as [|msg l IH]; intros acc Hacc Hex; [inversion Hex|].
  cbn [foldl].
  destruct (JS.proto_member (ResourceTable.Request.resource_id msg)) eqn:Ep.
  - unfold ResourceTable.group at 2. rewrite (Hacc _ Ep), Ep.
    apply foldl_group_thrown.
  - assert (Hl : Exists (fun r => JS.proto_member
                                    (ResourceTable.Request.resource_id r)
                                  = true) l).
    { inversion Hex as [x l' Hx|x l' Hx]; subst; [congruence | exact Hx]. }
    assert (Hins : forall v k,
               JS.proto_member k = true ->
               <[ResourceTable.Request.resource_id msg := v]> acc !! k = None).
    { intros v k Hk. rewrite lookup_insert_ne; [now apply Hacc | congruence]. }
    unfold ResourceTable.group at 2.
    destruct (acc !! ResourceTable.Request.resource_id msg) as [l0|].
    + apply IH; [apply Hins | exact Hl].
    + rewrite Ep. apply IH; [apply Hins | exact Hl].
Qed.

(** X11. After a [loadPendingRequests] that got its data for company [c],
    when no unread thread-starting message to [c] is about an id that names
    an inherited property, the requests listed for a resource are the unread
    thread-starting messages to [c] about that resource, each with its
    sender's label, and they are listed newest first.  When some unread
    thread-starting message to [c] is about such an id, the call changes
    nothing: the requests listed are those that were listed before. *)
Theorem pending_requests_listing (w : ResourceTable.World) (c rid : jsstring) :
  ResourceTable.userCompanyId (ResourceTable.ui w) = Some c ->
  JS.truthy c = true ->
  let u' := ResourceTable.ui (ResourceTable.loadPendingRequests false w) in
  let listed := default [] (ResourceTable.pendingRequests u' !! rid) in
  let msgs := Store.messages (ResourceTable.store w) in
  ((forall m, In m msgs -> MessageRow.to_company_id m = c ->
              MessageRow.thread_id m = None -> MessageRow.read_at m = None ->
              JS.proto_member (MessageRow.resource_id m) = false) ->
   (forall q, In q listed <->
      exists m, In m msgs
                /\ MessageRow.to_company_id m = c
                /\ MessageRow.thread_id m = None
                /\ MessageRow.read_at m = None
                /\ MessageRow.resource_id m = rid
                /\ q = ResourceTable.with_company_info (ResourceTable.store w) m)
   /\ StronglySorted
        (fun a b => (ResourceTable.Request.created_at b
                     <= ResourceTable.Request.created_at a)%Z) listed)
  /\ ((exists m, In m msgs /\ MessageRow.to_company_id m = c
                 /\ MessageRow.thread_id m = None
                 /\ MessageRow.read_at m = None
                 /\ JS.proto_member (MessageRow.resource_id m) = true) ->
      ResourceTable.loadPendingRequests false w = w).
Proof.
  intros Hc Ht u' listed msgs. split.
  - intros Hok.
    assert (Hok' : forall m, In m msgs -> ResourceTable.pending c m = true ->
                     JS.proto_member (MessageRow.resource_id m) = false).
    { intros m Hm Hp. apply pending_iff in Hp. destruct Hp as (H1 & H2 & H3).
      now apply Hok. }
    destruct (loadPendingRequests_stored w c Hc Ht Hok') as [_ Hst].
    subst listed u'. rewrite Hst. split.
    + intros q. rewrite in_map_iff. split.
      * intros (m & <- & Hm). apply filter_In in Hm. destruct Hm as [Hm Hr].
        apply In_order, filter_In in Hm. destruct Hm as [Hm Hp].
        apply pending_iff in Hp. apply eqb_eq in Hr. exists m. tauto.
      * intros (m & Hm & H1 & H2 & H3 & H4 & ->). exists m.
        split; [reflexivity|].
        apply filter_In. split; [|now apply eqb_eq].
        apply In_order, filter_In. split; [exact Hm|].
        apply pending_iff. tauto.
    + apply (StronglySorted_map_filter (row_order false)); [|apply order_sorted].
      intros a b Hab. unfold row_order, Db.before in Hab. simpl. lia.
  - intros (m & Hm & H1 & H2 & H3 & Hp).
    unfold ResourceTable.loadPendingRequests. rewrite Hc, Ht. simpl.
    unfold ResourceTable.grouped. rewrite grouped_throws; [reflexivity | |].
    + intros k _. apply lookup_empty.
    + apply List.Exists_exists.
      exists (ResourceTable.with_company_info (ResourceTable.store w) m).
      split; [|exact Hp]. apply in_map. apply In_order, filter_In.
      split; [exact Hm|]. apply pending_iff. tauto.
Qed.

Lemma pending_requests_listing_witness :
  let w := ResourceTable.mkWorld Sample.db Sample.table0 in
  let u' := ResourceTable.ui (ResourceTable.loadPendingRequests false w) in
  let v := ResourceTable.mkWorld Sample.db_stray Sample.table0 in
  List.map ResourceTable.Request.id
    (default [] (ResourceTable.pendingRequests u' !! JS.lit "r-1"))
  = [JS.lit "m-1"]
  /\ StronglySorted
       (fun a b => (ResourceTable.Request.created_at b
                    <= ResourceTable.Request.created_at a)%Z)
       (default [] (ResourceTable.pendingRequests u' !! JS.lit "r-1"))
  /\ ResourceTable.loadPendingRequests false v = v.
Proof.
  intros w u' v. split; [reflexivity|]. split.
  - refine (proj2 (proj1 (pending_requests_listing w (JS.lit "c-alfa")
                            (JS.lit "r-1") eq_refl eq_refl) _)).
    intros m [<-|[<-|[]]] _ _ _; reflexivity.
  - apply (proj2 (pending_requests_listing v (JS.lit "c-alfa") (JS.lit "r-1")
                    eq_refl eq_refl)).
    exists Sample.stray. split; [right; right; now left|]. repeat split.
Defined.

(** X12. The sender shown on a pending request is never empty: it is the
    anonymous id of the one company row with the sender's id when that id is
    not empty, and "Ukjent bedrift" when there is no such row, more than one,
    or an empty anonymous id. *)
Theorem request_sender_label (s : Store.t) (msg : MessageRow.t) :
  let label := ResourceTable.Request.from_company_anonymous_id
                 (ResourceTable.with_company_info s msg) in
  let found := List.filter
                 (fun c => JS.eqb (CompanyRow.id c)
                                  (MessageRow.from_company_id msg))
                 (Store.companies s) in
  JS.truthy label = true
  /\ match found with
     | [company] =>
         label = if JS.truthy (CompanyRow.anonymous_id company)
                 then CompanyRow.anonymous_id company
                 else JS.lit "Ukjent bedrift"
     | _ => label = JS.lit "Ukjent bedrift"
     end.
Proof.
  intros label found. subst label. unfold ResourceTable.with_company_info.
  simpl. fold found.
  destruct found as [|company [|c2 rest]]; simpl; try (split; reflexivity).
  destruct (JS.truthy (CompanyRow.anonymous_id company)) eqn:E;
    split; auto.
Qed.

(* ===================================================================== *)
(** ** Contact details in the resource table *)
(* ===================================================================== *)

(** Where the contact details that [contact_step] adds come from. *)
Lemma contact_step_source (s : Store.t) (c : jsstring)
    (info : gmap jsstring ContactInfo.t) (resource : ResourceTable.Resource.t)
    (k : jsstring) (v : ContactInfo.t) :
  ResourceTable.contact_step s c info resource !! k = Some v ->
  info !! k = Some v
  \/ (k = ResourceTable.Resource.id resource
      /\ exists m sh co,
           In m (Store.messages s) /\ MessageRow.resource_id m = k
           /\ In sh (Store.thread_contact_sharing s)
           /\ SharingRow.thread_id sh = MessageRow.id m
           /\ In co (Store.companies s)
           /\ CompanyRow.real_contact_info co = Some v
           /\ (CompanyRow.id co = SharingRow.from_company_id sh
               \/ CompanyRow.id co = SharingRow.to_company_id sh)
           /\ (SharingRow.from_company_id sh <> SharingRow.to_company_id sh ->
               CompanyRow.id co <> c)).
Proof.
  unfold ResourceTable.contact_step.
  destruct (ResourceTable.single (take 1 _)) as [m|] eqn:Em; [|auto].
  destruct (ResourceTable.single (List.filter _ (Store.thread_contact_sharing s)))
    as [sh|] eqn:Esh; [|auto].
  destruct (ResourceTable.single (List.filter _ (Store.companies s)))
    as [co|] eqn:Eco; [|auto].
  destruct (CompanyRow.real_contact_info co) as [real|] eqn:Er; [|auto].
  rewrite lookup_insert. destruct (decide _) as [<-|_]; [|auto].
  intros [= <-]. right. split; [reflexivity|]. exists m, sh, co.
  apply single_In in Em, Esh, Eco.
  assert (Hm : In m (Db.order true
                       (List.filter
                          (fun m => JS.eqb (MessageRow.resource_id m)
                                           (ResourceTable.Resource.id resource))
                          (Store.messages s)))).
  { destruct (Db.order true _) as [|x l]; [discriminate|].
    simpl in Em. rewrite take_0 in Em. injection Em as ->. now left. }
  apply In_order, filter_In in Hm. destruct Hm as [Hm Hr].
  assert (Hsh : In sh (List.filter
                         (fun r => JS.eqb (SharingRow.thread_id r)
                                          (MessageRow.id m))
                         (Store.thread_contact_sharing s)))
    by (rewrite Esh; now left).
  apply filter_In in Hsh. destruct Hsh as [Hsh Ht].
  match type of Eco with
  | List.filter ?f ?l = _ =>
      assert (Hco : In co (List.filter f l)) by (rewrite Eco; now left)
  end.
  apply filter_In in Hco. destruct Hco as [Hco Hid].
  apply eqb_eq in Hr, Ht, Hid.
  repeat (split; [assumption|]). rewrite Hid.
  destruct (JS.eqb (SharingRow.from_company_id sh) c) eqn:E.
  - apply eqb_eq in E. split; [now right | congruence].
  - apply eqb_neq in E. split; [now left | auto].
Qed.

(** X13. Contact details that [loadContactInfo] puts into an empty table for
    a resource are the details of a company named in a disclosure row for a
    message about that resource, and, when the row names two different
    companies, never the viewer's own. *)
Theorem contact_info_source (resources : list ResourceTable.Resource.t)
    (w : ResourceTable.World) (c k : jsstring) (v : ContactInfo.t) :
  ResourceTable.contactInfo (ResourceTable.ui w) = ∅ ->
  ResourceTable.userCompanyId (ResourceTable.ui w) = Some c ->
  ResourceTable.contactInfo
    (ResourceTable.ui (ResourceTable.loadContactInfo resources w)) !! k
  = Some v ->
  exists m sh co,
    In m (Store.messages (ResourceTable.store w))
    /\ MessageRow.resource_id m = k
    /\ In sh (Store.thread_contact_sharing (ResourceTable.store w))
    /\ SharingRow.thread_id sh = MessageRow.id m
    /\ In co (Store.companies (ResourceTable.store w))
    /\ CompanyRow.real_contact_info co = Some v
    /\ (CompanyRow.id co = SharingRow.from_company_id sh
        \/ CompanyRow.id co = SharingRow.to_company_id sh)
    /\ (SharingRow.from_company_id sh <> SharingRow.to_company_id sh ->
        CompanyRow.id co <> c).
Proof.
  intros He Hc. unfold ResourceTable.loadContactInfo. rewrite Hc.
  destruct (negb (JS.truthy c)); [rewrite He, lookup_empty; discriminate|].
  simpl. rewrite He.
  generalize (List.filter ResourceTable.Resource.is_taken resources).
  intros l.
  assert (G : forall (l : list ResourceTable.Resource.t)
                (acc : gmap jsstring ContactInfo.t),
             foldl (ResourceTable.contact_step (ResourceTable.store w) c) acc l
             !! k = Some v ->
             acc !! k = Some v
             \/ exists m sh co,
                  In m (Store.messages (ResourceTable.store w))
                  /\ MessageRow.resource_id m = k
                  /\ In sh (Store.thread_contact_sharing (ResourceTable.store w))
                  /\ SharingRow.thread_id sh = MessageRow.id m
                  /\ In co (Store.companies (ResourceTable.store w))
                  /\ CompanyRow.real_contact_info co = Some v
                  /\ (CompanyRow.id co = SharingRow.from_company_id sh
                      \/ CompanyRow.id co = SharingRow.to_company_id sh)
                  /\ (SharingRow.from_company_id sh
                      <> SharingRow.to_company_id sh ->
                      CompanyRow.id co <> c)).
  { clear l. induction l as [|x l IH]; intros acc H; simpl in H; [now left|].
    destruct (IH _ H) as [H1|H1]; [|now right].
    apply contact_step_source in H1. destruct H1 as [H1|[_ H1]]; auto. }
  intros H. destruct (G l ∅ H) as [H1|H1]; [|exact H1].
  rewrite lookup_empty in H1. discriminate H1.
Qed.

Lemma contact_info_source_witness :
  let w := ResourceTable.mkWorld Sample.db_disclosed Sample.table0 in
  exists m sh co,
    In m (Store.messages Sample.db_disclosed)
    /\ MessageRow.resource_id m = JS.lit "r-1"
    /\ In sh (Store.thread_contact_sharing Sample.db_disclosed)
    /\ SharingRow.thread_id sh = MessageRow.id m
    /\ In co (Store.companies Sample.db_disclosed)
    /\ CompanyRow.real_contact_info co
       = CompanyRow.real_contact_info Sample.beta
    /\ (CompanyRow.id co = SharingRow.from_company_id sh
        \/ CompanyRow.id co = SharingRow.to_company_id sh)
    /\ (SharingRow.from_company_id sh <> SharingRow.to_company_id sh ->
        CompanyRow.id co <> JS.lit "c-alfa").
Proof.
  intros w.
  exact (contact_info_source [Sample.offer true] w (JS.lit "c-alfa")
           (JS.lit "r-1") _ eq_refl eq_refl eq_refl).
Defined.

Lemma contact_step_cases (s : Store.t) (c : jsstring)
    (info : gmap jsstring ContactInfo.t) (resource : ResourceTable.Resource.t) :
  ResourceTable.contact_step s c info resource = info
  \/ exists real,
       ResourceTable.contact_step s c info resource
       = <[ResourceTable.Resource.id resource := real]> info.
Proof.
  unfold ResourceTable.contact_step.
  destruct (ResourceTable.single (take 1 _)) as [m|]; [|auto].
  destruct (ResourceTable.single (List.filter _ (Store.thread_contact_sharing s)))
    as [sh|]; [|auto].
  destruct (ResourceTable.single (List.filter _ (Store.companies s)))
    as [co|]; [|auto].
  destruct (CompanyRow.real_contact_info co) as [real|]; eauto.
Qed.

(** X14. [loadContactInfo] never removes contact details: a resource that
    had details before the call has details after it, and they are the same
    details when no taken resource of the table has that id. *)
Theorem contact_info_kept (resources : list ResourceTable.Resource.t)
    (w : ResourceTable.World) (k : jsstring) (v : ContactInfo.t) :
  ResourceTable.contactInfo (ResourceTable.ui w) !! k = Some v ->
  let after := ResourceTable.contactInfo
                 (ResourceTable.ui (ResourceTable.loadContactInfo resources w))
  in
  is_Some (after !! k)
  /\ ((forall r, In r resources -> ResourceTable.Resource.is_taken r = true ->
                 ResourceTable.Resource.id r <> k) ->
      after !! k = Some v).
Proof.
  intros Hv after. subst after. unfold ResourceTable.loadContactInfo.
  destruct (ResourceTable.userCompanyId (ResourceTable.ui w)) as [c|];
    [|split; [now exists v | auto]].
  destruct (negb (JS.truthy c)); [split; [now exists v | auto]|]. simpl.
  assert (G : forall (l : list ResourceTable.Resource.t)
                (acc : gmap jsstring ContactInfo.t) (x : ContactInfo.t),
             acc !! k = Some x ->
             is_Some (foldl (ResourceTable.contact_step
                               (ResourceTable.store w) c) acc l !! k)
             /\ ((forall r, In r l -> ResourceTable.Resource.id r <> k) ->
                 foldl (ResourceTable.contact_step (ResourceTable.store w) c)
                       acc l !! k = Some x)).
  { induction l as [|r l IH]; intros acc x Hx; simpl.
    - split; [now exists x | auto].
    - destruct (contact_step_cases (ResourceTable.store w) c acc r)
        as [->|(real & ->)].
      + destruct (IH acc x Hx) as [H1 H2]. split; [exact H1|].
        intros Hn. apply H2. intros r' Hr'. apply Hn. now right.
      + destruct (decide (ResourceTable.Resource.id r = k)) as [E|E].
        * destruct (IH (<[ResourceTable.Resource.id r := real]> acc) real)
            as [H1 _]; [rewrite E; apply lookup_insert_eq|].
          split; [exact H1|]. intros Hn. exfalso.
          exact (Hn r (or_introl eq_refl) E).
        * destruct (IH (<[ResourceTable.Resource.id r := real]> acc) x)
            as [H1 H2]; [now rewrite lookup_insert_ne|].
          split; [exact H1|]. intros Hn. apply H2.
          intros r' Hr'. apply Hn. now right. }
  destruct (G (List.filter ResourceTable.Resource.is_taken resources)
              (ResourceTable.contactInfo (ResourceTable.ui w)) v Hv)
    as [H1 H2].
  split; [exact H1|]. intros Hn. apply H2. intros r Hr.
  apply filter_In in Hr. now apply Hn.
Qed.

Lemma contact_info_kept_witness :
  let info := ContactInfo.mk (JS.lit "Beta Installasjon AS")
                (JS.lit "post@beta.no") (JS.lit "22 00 00 02")
                (JS.lit "Lillegata 2") in
  let u := ResourceTable.setContactInfo (<[JS.lit "r-1" := info]> ∅)
             Sample.table0 in
  let w := ResourceTable.mkWorld Sample.db_taken u in
  is_Some (ResourceTable.contactInfo
             (ResourceTable.ui
                (ResourceTable.loadContactInfo [Sample.offer true] w))
           !! JS.lit "r-1").
Proof.
  intros info u w.
  exact (proj1 (contact_info_kept [Sample.offer true] w (JS.lit "r-1") info
                  eq_refl)).
Defined.

Lemma loadContactInfo_undisclosed (resources : list ResourceTable.Resource.t)
    (w : ResourceTable.World) (k : jsstring) :
  ResourceTable.contactInfo (ResourceTable.ui w) = ∅ ->
  (forall m sh, In m (Store.messages (ResourceTable.store w)) ->
                MessageRow.resource_id m = k ->
                In sh (Store.thread_contact_sharing (ResourceTable.store w)) ->
                SharingRow.thread_id sh <> MessageRow.id m) ->
  ResourceTable.contactInfo
    (ResourceTable.ui (ResourceTable.loadContactInfo resources w)) !! k
  = None.
Proof.
  intros He Hno.
  destruct (ResourceTable.contactInfo
              (ResourceTable.ui (ResourceTable.loadContactInfo resources w))
            !! k) as [v|] eqn:E; [|reflexivity].
  exfalso. revert E. unfold ResourceTable.loadContactInfo.
  destruct (ResourceTable.userCompanyId (ResourceTable.ui w)) as [c|];
    [|rewrite He, lookup_empty; discriminate].
  destruct (negb (JS.truthy c)); [rewrite He, lookup_empty; discriminate|].
  simpl. rewrite He.
  generalize (List.filter ResourceTable.Resource.is_taken resources).
  intros l. generalize (lookup_empty (M:=gmap jsstring) (A:=ContactInfo.t) k).
  generalize (∅ : gmap jsstring ContactInfo.t).
  induction l as [|x l IH]; intros acc Hacc; simpl; [congruence|].
  apply IH.
  destruct (ResourceTable.contact_step (ResourceTable.store w) c acc x !! k)
    as [v'|] eqn:E'; [|reflexivity].
  apply contact_step_source in E'.
  destruct E' as [E'|(_ & m & sh & co & Hm & Hr & Hsh & Ht & _)];
    [congruence|].
  exfalso. exact (Hno m sh Hm Hr Hsh Ht).
Qed.

(** X15. A taken resource whose id names no inherited property and about
    which no message has a disclosure row is shown, after [loadContactInfo]
    on a table that held no contact details, as "Venter på godkjenning"
    (AwaitingApproval), whatever its period and its pending requests. *)
Theorem taken_undisclosed_awaits (resources : list ResourceTable.Resource.t)
    (w : ResourceTable.World) (r : ResourceTable.Resource.t) (now : Z) :
  ResourceTable.contactInfo (ResourceTable.ui w) = ∅ ->
  JS.proto_member (ResourceTable.Resource.id r) = false ->
  (forall m sh, In m (Store.messages (ResourceTable.store w)) ->
                MessageRow.resource_id m = ResourceTable.Resource.id r ->
                In sh (Store.thread_contact_sharing (ResourceTable.store w)) ->
                SharingRow.thread_id sh <> MessageRow.id m) ->
  ResourceTable.Resource.is_taken r = true ->
  ResourceTable.getStatusInfo
    (ResourceTable.ui (ResourceTable.loadContactInfo resources w)) now r
  = display AwaitingApproval.
Proof.
  intros He Hp Hno Ht. rewrite getStatusInfo_display, Ht.
  rewrite (has_info_own _ _ Hp). unfold contact_resolvable.
  now rewrite (loadContactInfo_undisclosed resources w _ He Hno).
Qed.

Lemma taken_undisclosed_awaits_witness :
  let w := ResourceTable.mkWorld Sample.db_taken Sample.table0 in
  ResourceTable.getStatusInfo
    (ResourceTable.ui (ResourceTable.loadContactInfo [Sample.offer true] w))
    1500 (Sample.offer true)
  = display AwaitingApproval.
Proof.
  intros w.
  apply (taken_undisclosed_awaits [Sample.offer true] w (Sample.offer true)
           1500 eq_refl eq_refl).
  - intros m sh _ _ [].
  - reflexivity.
Defined.

(* ===================================================================== *)
(** ** The action offered for a resource, and its price *)
(* ===================================================================== *)


Lemma of_nat_digits (n : nat) :
  Forall (fun ch => (48 <= ch <= 57)%N) (JS.of_nat n).
Proof.
  unfold JS.of_nat. induction (Nat.to_uint n); simpl; constructor;
    auto; lia.
Qed.

Lemma of_Z_chars (z : Z) :
  Forall (fun ch => ch = 45%N \/ (48 <= ch <= 57)%N) (ResourceTable.of_Z z).
Proof.
  assert (G : forall n, Forall (fun ch => ch = 45%N \/ (48 <= ch <= 57)%N)
                          (JS.of_nat n)).
  { intros n. eapply List.Forall_impl; [|apply of_nat_digits]. intros ch H.
    now right. }
  destruct z; simpl.
  - change (JS.lit "0") with [48%N].
    constructor; [right; lia | constructor].
  - apply G.
  - change (JS.lit "-" ++ JS.of_nat (Pos.to_nat p))
      with (45%N :: JS.of_nat (Pos.to_nat p)).
    constructor; [now left | apply G].
Qed.

Lemma amount_is_not (z : Z) (word rest suffix : jsstring) :
  Forall (fun ch => ch <> 32%N) word ->
  Exists (fun ch => ch <> 45%N /\ ~ (48 <= ch <= 57)%N) word ->
  ResourceTable.of_Z z ++ JS.lit " kr" ++ suffix <> word ++ 32%N :: rest.
Proof.
  intros Hw Hex H.
  assert (E : ResourceTable.of_Z z = word).
  { apply (split_at_first 32%N _ _ (JS.lit "kr" ++ suffix) rest);
      [|exact Hw | exact H].
    eapply List.Forall_impl; [|apply of_Z_chars]. intros ch [->|Hc]; [discriminate|].
    intros ->. lia. }
  pose proof (of_Z_chars z) as Hz. rewrite E in Hz.
  rewrite List.Forall_forall in Hz. apply List.Exists_exists in Hex.
  destruct Hex as (ch & Hin & Hne & Hnd). destruct (Hz ch Hin); auto.
Qed.

(** X17. [formatPrice] answers "Etter avtale" exactly for the price type
    "negotiable", whether or not a price is given, and "Ikke spesifisert"
    exactly when the type is not "negotiable" and the price is missing or 0;
    an amount is never printed as either text. *)
Theorem formatPrice_words (price : option Z) (priceType : option jsstring) :
  (ResourceTable.formatPrice price priceType = JS.lit "Etter avtale"
   <-> ResourceTable.type_is priceType (JS.lit "negotiable") = true)
  /\ (ResourceTable.formatPrice price priceType = JS.lit "Ikke spesifisert"
      <-> ResourceTable.type_is priceType (JS.lit "negotiable") = false
          /\ ResourceTable.price_truthy price = false).
Proof.
  assert (Ha : forall z suffix,
             ResourceTable.of_Z z ++ JS.lit " kr" ++ suffix
             <> JS.lit "Etter avtale").
  { intros z suffix.
    apply (amount_is_not z (JS.lit "Etter") (JS.lit "avtale") suffix).
    - repeat constructor; discriminate.
    - apply List.Exists_exists. exists 69%N.
      split; [left; reflexivity | split; [discriminate | lia]]. }
  assert (Hb : forall z suffix,
             ResourceTable.of_Z z ++ JS.lit " kr" ++ suffix
             <> JS.lit "Ikke spesifisert").
  { intros z suffix.
    apply (amount_is_not z (JS.lit "Ikke") (JS.lit "spesifisert") suffix).
    - repeat constructor; discriminate.
    - apply List.Exists_exists. exists 73%N.
      split; [left; reflexivity | split; [discriminate | lia]]. }
  unfold ResourceTable.formatPrice.
  destruct (ResourceTable.type_is priceType (JS.lit "negotiable")) eqn:En;
    destruct (ResourceTable.price_truthy price) eqn:Ep; simpl.
  - split; split; try reflexivity; try discriminate. intros [H _].
    discriminate H.
  - split; split; try reflexivity; try discriminate. intros [H _].
    discriminate H.
  - destruct price as [z|]; [|discriminate Ep].
    split; split; try discriminate; intros H.
    + exfalso. exact (Ha z _ H).
    + exfalso. exact (Hb z _ H).
    + destruct H as [_ H]. discriminate H.
  - split; split; try discriminate; auto.
Qed.

(* ===================================================================== *)
(** ** After disclosure; the user's company; the requests button *)
(* ===================================================================== *)

(** X18. Once [handleShareContact] has completed for a thread and
    [loadContactSharing] has got its data, the entry of a message of that
    thread that the user sent names its recipient by the real company name,
    when the recipient has contact details: "Til: " followed by
    [company_name]. *)
Theorem disclosed_recipient_named (d : Defaults) (messageId : jsstring)
    (w : Inbox.World) (m : Inbox.Message.t) (info : ContactInfo.t) :
  fst (fst (Inbox.handleShareContact d false false messageId w))
  = Inbox.Completed ->
  Inbox.Message.thread_key m = messageId ->
  Inbox.is_user (Inbox.ui w) (Inbox.Party.id (Inbox.Message.from_company m))
  = true ->
  Inbox.Party.real_contact_info (Inbox.Message.to_company m) = Some info ->
  let w1 := snd (fst (Inbox.handleShareContact d false false messageId w)) in
  let w2 := Inbox.loadContactSharing false w1 in
  Inbox.entry_party (Inbox.render_entry (Inbox.ui w2) m)
  = JS.lit "Til: " ++ ContactInfo.company_name info.
Proof.
  intros Hcompl Hk Hu Hinfo w1 w2.
  destruct (shared_after_share d messageId w Hcompl) as [H Hc].
  fold w1 in H, Hc. fold w2 in H, Hc.
  unfold Inbox.render_entry. cbn [Inbox.entry_party].
  replace (Inbox.is_user (Inbox.ui w2)
             (Inbox.Party.id (Inbox.Message.from_company m))) with true
    by (unfold Inbox.is_user in Hu |- *; now rewrite Hc).
  rewrite getDisplayName_real_name, Hinfo, Hk, H. reflexivity.
Qed.

Lemma disclosed_recipient_named_witness :
  let w := Inbox.mkWorld Sample.db (Sample.opened []) in
  let w1 := snd (fst (Inbox.handleShareContact Sample.defaults false false
                        (JS.lit "m-1") w)) in
  let w2 := Inbox.loadContactSharing false w1 in
  joined Sample.db Sample.answer = Some Sample.outbound
  /\ Inbox.entry_party (Inbox.render_entry (Inbox.ui w2) Sample.outbound)
     = JS.lit "Til: Beta Installasjon AS".
Proof.
  intros w w1 w2. split; [reflexivity|].
  exact (disclosed_recipient_named Sample.defaults (JS.lit "m-1") w
           Sample.outbound _ eq_refl eq_refl eq_refl eq_refl).
Defined.

(** X19. The company [loadUserCompany] sets is the signed-in user's only
    company: when the call leaves a company id that was not there before,
    exactly one company row has the user's id as [user_id], and it is that
    row's id, with [hasCompany] set. *)
Theorem loadUserCompany_identity (error : bool) (user : option jsstring)
    (w : Inbox.World) (k : jsstring) :
  Inbox.userCompanyId (Inbox.ui (Inbox.loadUserCompany error user w)) = Some k ->
  Inbox.userCompanyId (Inbox.ui w) = Some k
  \/ exists uid co,
       user = Some uid /\ error = false
       /\ In co (Store.companies (Inbox.store w))
       /\ CompanyRow.user_id co = uid /\ CompanyRow.id co = k
       /\ (forall co', In co' (Store.companies (Inbox.store w)) ->
                       CompanyRow.user_id co' = uid -> co' = co)
       /\ Inbox.hasCompany (Inbox.ui (Inbox.loadUserCompany error user w))
          = true.
Proof.
  unfold Inbox.loadUserCompany.
  destruct user as [uid|]; [|auto].
  destruct error; [auto|].
  destruct (List.filter _ (Store.companies (Inbox.store w)))
    as [|co [|co2 rest]] eqn:E; simpl; try discriminate; auto.
  intros [= <-]. right. exists uid, co.
  assert (Hco : In co (List.filter
                         (fun c => JS.eqb (CompanyRow.user_id c) uid)
                         (Store.companies (Inbox.store w))))
    by (rewrite E; now left).
  apply filter_In in Hco. destruct Hco as [Hco Hu]. apply eqb_eq in Hu.
  repeat split; auto.
  intros co' Hco' Hu'.
  assert (H : In co' (List.filter
                        (fun c => JS.eqb (CompanyRow.user_id c) uid)
                        (Store.companies (Inbox.store w))))
    by (apply filter_In; split; [exact Hco' | now apply eqb_eq]).
  rewrite E in H. destruct H as [H|[]]. now symmetry.
Qed.

Lemma loadUserCompany_identity_witness :
  let w := Inbox.mkWorld Sample.db
             (Inbox.setUserCompanyId None Sample.inbox0) in
  exists co, In co (Store.companies Sample.db)
             /\ CompanyRow.user_id co = JS.lit "u-1"
             /\ CompanyRow.id co = JS.lit "c-alfa".
Proof.
  intros w.
  destruct (loadUserCompany_identity false (Some (JS.lit "u-1")) w
              (JS.lit "c-alfa") eq_refl)
    as [H|(uid & co & Hu & _ & Hin & Huid & Hid & _)].
  - discriminate H.
  - exists co. injection Hu as <-. auto.
Defined.

(** X20. After a [loadPendingRequests] that got its data, when no unread
    thread-starting message to the owner is about an id that names an
    inherited property, the owner of a resource that is not taken and whose
    id names none either is offered the requests button exactly when the
    store holds an unread thread-starting message to the owner about that
    resource, and the button shows how many there are; otherwise no action is
    rendered for the owner. *)
Theorem requests_button_iff (showActions : bool) (w : ResourceTable.World)
    (c : jsstring) (l : ResourceTable.Listing.t) :
  ResourceTable.userCompanyId (ResourceTable.ui w) = Some c ->
  JS.truthy c = true ->
  ResourceTable.Resource.company_id (ResourceTable.Listing.resource l) = c ->
  ResourceTable.Resource.is_taken (ResourceTable.Listing.resource l) = false ->
  JS.proto_member (ResourceTable.Resource.id (ResourceTable.Listing.resource l))
  = false ->
  (forall m, In m (Store.messages (ResourceTable.store w)) ->
             MessageRow.to_company_id m = c ->
             MessageRow.thread_id m = None -> MessageRow.read_at m = None ->
             JS.proto_member (MessageRow.resource_id m) = false) ->
  let rid := ResourceTable.Resource.id (ResourceTable.Listing.resource l) in
  let u' := ResourceTable.ui (ResourceTable.loadPendingRequests false w) in
  let msgs := Store.messages (ResourceTable.store w) in
  let n := length (List.filter (pending_request c rid) msgs) in
  ((exists m, In m msgs /\ MessageRow.to_company_id m = c
              /\ MessageRow.thread_id m = None /\ MessageRow.read_at m = None
              /\ MessageRow.resource_id m = rid)
   -> 0 < n
      /\ exists dialog,
           ResourceTable.renderAction showActions u' l
           = ResourceTable.Requests n dialog)
  /\ ((forall m, In m msgs -> MessageRow.to_company_id m = c ->
                 MessageRow.resource_id m = rid ->
                 MessageRow.thread_id m <> None \/ MessageRow.read_at m <> None)
      -> ResourceTable.renderAction showActions u' l
         = ResourceTable.NoAction)
  /\ (forall m, pending_request c rid m = true <->
        MessageRow.to_company_id m = c /\ MessageRow.thread_id m = None
        /\ MessageRow.read_at m = None /\ MessageRow.resource_id m = rid).
Proof.
  intros Hc Ht Hown Htaken Hp Hok rid u' msgs n.
  assert (Hok' : forall m, In m msgs -> ResourceTable.pending c m = true ->
                   JS.proto_member (MessageRow.resource_id m) = false).
  { intros m Hm Hq. apply pending_iff in Hq. destruct Hq as (H1 & H2 & H3).
    now apply Hok. }
  assert (Hn : ResourceTable.pending_count u' rid = n)
    by apply (pending_count_after_load w c rid Hc Ht Hok' Hp).
  destruct (loadPendingRequests_stored w c Hc Ht Hok') as [Hc' _].
  fold u' in Hc'.
  unfold ResourceTable.renderAction. fold rid. rewrite Hc', Hown, Htaken, Hn.
  rewrite eqb_refl. simpl.
  split; [|split; [|apply pending_request_iff]].
  - intros (m & Hm & H1 & H2 & H3 & H4).
    assert (Hpos : 0 < n).
    { subst n. assert (Hin : In m (List.filter (pending_request c rid) msgs)).
      { apply filter_In. split; [exact Hm|]. apply pending_request_iff. tauto. }
      destruct (List.filter _ _); [destruct Hin | simpl; lia]. }
    split; [exact Hpos|].
    assert (Hl : ResourceTable.pendingRequests u' !! rid <> None).
    { intros Hnone. pose proof (pending_count_own u' rid Hp) as Hlen.
      rewrite Hn, Hnone in Hlen. simpl in Hlen. lia. }
    apply Nat.ltb_lt in Hpos. rewrite Hpos. simpl.
    destruct (ResourceTable.pendingRequests u' !! rid) as [reqs|];
      [|contradiction].
    destruct (match ResourceTable.selectedResource u' with
              | Some k => JS.eqb k rid
              | None => false
              end && ResourceTable.showMessages u'); eauto.
  - intros Hnone.
    assert (H0 : n = 0).
    { subst n. rewrite filter_none; [reflexivity|]. intros m Hm.
      destruct (pending_request c rid m) eqn:E; [|reflexivity].
      apply pending_request_iff in E. destruct E as (E1 & E2 & E3 & E4).
      destruct (Hnone m Hm E1 E4); congruence. }
    rewrite H0. simpl. now rewrite !andb_false_r.
Qed.

Lemma requests_button_iff_witness :
  let w := ResourceTable.mkWorld Sample.db Sample.table0 in
  let l := ResourceTable.Listing.mk (Sample.offer false) (Some 500%Z)
             (Some (JS.lit "hourly")) in
  exists dialog,
    ResourceTable.renderAction true
      (ResourceTable.ui (ResourceTable.loadPendingRequests false w)) l
    = ResourceTable.Requests 1 dialog.
Proof.
  intros w l.
  refine (proj2 (proj1 (requests_button_iff true w (JS.lit "c-alfa") l
                          eq_refl eq_refl eq_refl eq_refl eq_refl _) _)).
  - intros m [<-|[<-|[]]] _ _ _; reflexivity.
  - exists Sample.request. split; [now left|]. repeat split.
Defined.
